(** * NewsApp.js: the verification pipeline and the feed aggregation layer

    A shallow embedding of the logic of [src/NewsApp.js]: the citation
    formatter, the streaming answer client, the question generator, the
    per-article verification handler, the feed window and the mainstream
    normalisation, and the bias-rating resolution.

    JavaScript strings are sequences of UTF-16 code units; they are modelled
    as lists of [N].  Exceptions are modelled by a completion type, and
    [try]/[catch] by a handler on completions.  React state ([useState]) is
    an explicit record threaded through the event handlers. *)

From Stdlib Require Import ZArith Ascii String.
From Stdlib Require Import DecimalPos DecimalN.
From stdpp Require Import gmap list.

Local Open Scope N_scope.

(** ** Strings of code units *)

Module Js.

Abbreviation char := N (only parsing).
Abbreviation jsstring := (list N) (only parsing).

Fixpoint of_string (s : string) : jsstring :=
  match s with
  | EmptyString => []
  | String a s' => N_of_ascii a :: of_string s'
  end.

(** The double quote, written by its code unit. *)
Definition dquote : jsstring := [34].

(** WhiteSpace and LineTerminator code units: the class [\s] of regular
    expressions, which is also what [String.prototype.trim] strips. *)
Definition isLineTerminator (c : char) : bool :=
  (c =? 10) || (c =? 13) || (c =? 8232) || (c =? 8233).

Definition isWhiteSpace (c : char) : bool :=
  (c =? 9) || (c =? 11) || (c =? 12) || (c =? 32) || (c =? 160)
  || (c =? 5760) || ((8192 <=? c) && (c <=? 8202)) || (c =? 8239)
  || (c =? 8287) || (c =? 12288) || (c =? 65279) || isLineTerminator c.

(** [\d] without the unicode flag: the ten ASCII digits. *)
Definition isDigit (c : char) : bool := (48 <=? c) && (c <=? 57).

Fixpoint dropWhile (p : char -> bool) (s : jsstring) : jsstring :=
  match s with
  | [] => []
  | c :: s' => if p c then dropWhile p s' else s
  end.

Fixpoint span (p : char -> bool) (s : jsstring) : jsstring * jsstring :=
  match s with
  | [] => ([], [])
  | c :: s' =>
      if p c then let '(a, b) := span p s' in (c :: a, b) else ([], s)
  end.

(** [s.trim()] *)
Definition trim (s : jsstring) : jsstring :=
  rev (dropWhile isWhiteSpace (rev (dropWhile isWhiteSpace s))).

(** [s] starts with [p]: the rest of [s] after [p]. *)
Fixpoint strip_prefix (p s : jsstring) : option jsstring :=
  match p, s with
  | [], _ => Some s
  | a :: p', c :: s' => if a =? c then strip_prefix p' s' else None
  | _ :: _, [] => None
  end.

(** The integer that a run of decimal digits denotes. *)
Definition digit_value (c : char) : N := c - 48.

Definition decimal_value (ds : jsstring) : N :=
  fold_left (fun acc c => acc * 10 + digit_value c) ds 0.

(** The Number value of a natural number: the nearest double, which has a
    significand of 53 bits, and of two nearest doubles the one with the even
    significand.  Every natural number up to 2^53 is its own double.  A
    result of 2^1024 stands for a number too large for a finite double. *)
Definition to_double (n : N) : N :=
  if n <? 2 ^ 53 then n
  else
    let e := N.log2 n - 52 in
    let q := n / 2 ^ e in
    let r := n mod 2 ^ e in
    let half := 2 ^ (e - 1) in
    (if (half <? r) || ((half =? r) && N.odd q) then q + 1 else q) * 2 ^ e.

(** The Numbers that [parseInt] gives on digits. *)
Inductive number :=
  | Finite (n : N)
  | Infinity.

(** [parseInt] on a run of decimal digits, as the replacer of the citation
    step calls it: the Number value of the integer they denote.  (Behind
    the 20th significant digit ECMAScript lets an implementation read zeros
    instead; the model rounds the integer itself, as the engines do.) *)
Definition parseInt (ds : jsstring) : number :=
  let x := to_double (decimal_value ds) in
  if x <? 2 ^ 1024 then Finite x else Infinity.

(** The decimal digits of a natural number. *)
Fixpoint uint_digits (u : Decimal.uint) : jsstring :=
  match u with
  | Decimal.Nil => []
  | Decimal.D0 u' => 48 :: uint_digits u'
  | Decimal.D1 u' => 49 :: uint_digits u'
  | Decimal.D2 u' => 50 :: uint_digits u'
  | Decimal.D3 u' => 51 :: uint_digits u'
  | Decimal.D4 u' => 52 :: uint_digits u'
  | Decimal.D5 u' => 53 :: uint_digits u'
  | Decimal.D6 u' => 54 :: uint_digits u'
  | Decimal.D7 u' => 55 :: uint_digits u'
  | Decimal.D8 u' => 56 :: uint_digits u'
  | Decimal.D9 u' => 57 :: uint_digits u'
  end.

Definition digits_of (n : N) : jsstring := uint_digits (N.to_uint n).

(** What a template literal and [toString] print for a Number [x] that is
    a natural number.  Below 2^53 these are its decimal digits.  From there
    on they are the digits of the number [v] with the fewest significant
    digits that reads back as [x], the closest to [x] of several and of two
    equally close ones the one with an even last digit; [v] is printed in
    full below 10^21 and with an exponent from there on.  The search goes
    through the powers of ten from the largest down: the multiples of a
    power next to [x] are the candidates. *)
Definition reads_as (x v : N) : bool := to_double v =? x.

Definition shortest_at (x e : N) : option N :=
  let p := 10 ^ e in
  let lo := x / p * p in
  let hi := lo + p in
  if reads_as x lo then
    if reads_as x hi then
      Some (if x - lo <? hi - x then lo
            else if hi - x <? x - lo then hi
            else if N.even (x / p) then lo else hi)
    else Some lo
  else if reads_as x hi then Some hi
  else None.

Fixpoint shortest_from (fuel : nat) (x e : N) : N :=
  match shortest_at x e with
  | Some v => v
  | None =>
      match fuel with
      | O => x
      | S fuel' => shortest_from fuel' x (e - 1)
      end
  end.

Definition shortest (x : N) : N :=
  let n := length (digits_of x) in
  shortest_from n x (N.of_nat n).

(** [d.ddde+n]: the digits without the zeros at the end, a point behind
    the first when there are more, and the exponent. *)
Definition exponential (v : N) : jsstring :=
  let ds := digits_of v in
  match rev (dropWhile (fun c => c =? 48) (rev ds)) with
  | [] => []
  | d :: frac =>
      d :: match frac with [] => [] | _ => 46 :: frac end
      ++ of_string "e+" ++ digits_of (N.of_nat (length ds - 1))
  end.

Definition number_to_string (x : N) : jsstring :=
  if x <? 2 ^ 53 then digits_of x
  else
    let v := shortest x in
    if v <? 10 ^ 21 then digits_of v else exponential v.

(** *** Completions: a value, or a thrown exception *)

Inductive exception :=
  | TypeError
  | SyntaxError
  | HttpError (status : N)
  | NetworkError.

Inductive completion (A : Type) :=
  | Normal (a : A)
  | Throw (e : exception).
Arguments Normal {A} a.
Arguments Throw {A} e.

Definition bind {A B} (c : completion A) (k : A -> completion B) : completion B :=
  match c with
  | Normal a => k a
  | Throw e => Throw e
  end.

(** [try { c } catch (error) { h error }] *)
Definition try_catch {A} (c : completion A) (h : exception -> completion A) : completion A :=
  match c with
  | Normal a => Normal a
  | Throw e => h e
  end.

(** *** [String.prototype.replace] with a global regular expression

    A regular expression is given by its matcher at a position: on the text
    from that position on, the captured data and the text after the match.
    The global replace scans left to right; after a match it resumes behind
    it, otherwise it copies one code unit.  The matchers below consume at
    least one code unit, so the length of the text is enough fuel. *)
Fixpoint replace_fuel {A} (fuel : nat) (m : jsstring -> option (A * jsstring))
    (f : A -> jsstring) (s : jsstring) : jsstring :=
  match fuel with
  | O => s
  | S fuel' =>
      match s with
      | [] => []
      | c :: s' =>
          match m s with
          | Some (x, rest) => f x ++ replace_fuel fuel' m f rest
          | None => c :: replace_fuel fuel' m f s'
          end
      end
  end.

Definition replace_global {A} (m : jsstring -> option (A * jsstring))
    (f : A -> jsstring) (s : jsstring) : jsstring :=
  replace_fuel (length s) m f s.

End Js.
Import Js.

Notation "c >>= k" := (bind c k) (at level 50, left associativity).

(** ** CitationFormatter: [formatPerigonResponse] *)

Module CitationFormatter.

(** A citation event as the formatter reads it: [citation.sequenceIndex],
    a Number that is a natural number, and [citation.url].  An absent or
    empty [url] is the empty string; both are falsy in the test
    [if (url)]. *)
Record Citation := { sequenceIndex : N; url : jsstring }.

(** The arguments as JavaScript values: the answer text may be [undefined],
    [null] or a string, and [citations] is an array when it is defined. *)
Inductive JsText :=
  | TUndefined
  | TNull
  | TString (s : jsstring).

Inductive JsCitations :=
  | CUndefined
  | CArray (cs : list Citation).

(** [!response] *)
Definition falsy (response : JsText) : bool :=
  match response with
  | TUndefined | TNull => true
  | TString s => match s with [] => true | _ => false end
  end.

(** *** Step 1: [/\*\*(.*?)\*\*/g] to ['<strong>$1</strong>'] *)

Definition stars : jsstring := [42; 42].

(** After the opening [**]: the shortest run of code units other than line
    terminators that is followed by [**], and the text behind that. *)
Fixpoint bold_body (s : jsstring) : option (jsstring * jsstring) :=
  match strip_prefix stars s with
  | Some rest => Some ([], rest)
  | None =>
      match s with
      | [] => None
      | c :: s' =>
          if isLineTerminator c then None
          else match bold_body s' with
               | Some (x, rest) => Some (c :: x, rest)
               | None => None
               end
      end
  end.

Definition match_bold (s : jsstring) : option (jsstring * jsstring) :=
  match strip_prefix stars s with
  | Some s1 => bold_body s1
  | None => None
  end.

Definition strong (x : jsstring) : jsstring :=
  of_string "<strong>" ++ x ++ of_string "</strong>".

Definition boldStep (response : jsstring) : jsstring :=
  replace_global match_bold strong response.

(** *** Step 2: [citationMap] and [/\[(\d+)\]/g] *)

(** [citations.forEach(citation => { citationMap[citation.sequenceIndex] = citation.url })] *)
Definition citationMap (citations : list Citation) : gmap N jsstring :=
  fold_left (fun m citation => <[sequenceIndex citation := url citation]> m)
            citations ∅.

(** The match at a position: [\[], the maximal run of digits, which must be
    non-empty, and [\]]; the capture is the run of digits. *)
Definition match_citation (s : jsstring) : option (jsstring * jsstring) :=
  match s with
  | c :: s1 =>
      if c =? 91 then
        match span isDigit s1 with
        | (d :: ds, c2 :: s3) => if c2 =? 93 then Some (d :: ds, s3) else None
        | _ => None
        end
      else None
  | [] => None
  end.

Definition bracket (ds : jsstring) : jsstring := [91] ++ ds ++ [93].

Definition anchor (href : jsstring) (citationNumber : N) : jsstring :=
  of_string "<a href=" ++ dquote ++ href ++ dquote
  ++ of_string " target=" ++ dquote ++ of_string "_blank" ++ dquote
  ++ of_string " rel=" ++ dquote ++ of_string "noopener noreferrer" ++ dquote
  ++ of_string ">[" ++ number_to_string citationNumber ++ of_string "]</a>".

(** The replacer callback [(match, p1) => ...].  No citation has the index
    [Infinity]. *)
Definition citation_replacer (cmap : gmap N jsstring) (p1 : jsstring) : jsstring :=
  match parseInt p1 with
  | Finite citationNumber =>
      match cmap !! citationNumber with
      | Some (c :: href) => anchor (c :: href) citationNumber
      | _ => bracket p1
      end
  | Infinity => bracket p1
  end.

Definition citationStep (citations : list Citation) (s : jsstring) : jsstring :=
  replace_global match_citation (citation_replacer (citationMap citations)) s.

(** *** Step 3: [/^Perigon Response:\s*/i] to [''] *)

(** Canonicalisation of the [i] flag, on the ASCII letters; no code unit
    outside ASCII canonicalises to an ASCII one. *)
Definition canonicalize (c : char) : char :=
  if (97 <=? c) && (c <=? 122) then c - 32 else c.

Fixpoint strip_prefix_ci (p s : jsstring) : option jsstring :=
  match p, s with
  | [], _ => Some s
  | a :: p', c :: s' =>
      if canonicalize a =? canonicalize c then strip_prefix_ci p' s' else None
  | _ :: _, [] => None
  end.

Definition label : jsstring := of_string "Perigon Response:".

Definition labelStep (s : jsstring) : jsstring :=
  match strip_prefix_ci label s with
  | Some rest => dropWhile isWhiteSpace rest
  | None => s
  end.

(** *** The formatter *)

Definition formatPerigonResponse (response : JsText) (citations : JsCitations)
    : completion jsstring :=
  if falsy response then Normal []
  else
    match response with
    | TString text =>
        let formattedResponse := boldStep text in
        match citations with
        | CArray cs =>
            let formattedResponse := citationStep cs formattedResponse in
            Normal (labelStep formattedResponse)
        | CUndefined => Throw TypeError
        end
    | _ => Normal []
    end.

(** *** What the properties of the formatter speak of

    A bold marker is [**X**] with [X] free of line terminators ([.] does not
    match them); a bracket token is [[n]] with [n] one or more digits; the
    label is ["Perigon Response:"] in any letter case at the start. *)
Definition has_bold_marker (s : jsstring) : Prop :=
  exists a x b, s = a ++ stars ++ x ++ stars ++ b
                /\ Forall (fun c => isLineTerminator c = false) x.

Definition has_bracket_token (s : jsstring) : Prop :=
  exists a ds b, s = a ++ bracket ds ++ b
                 /\ ds <> [] /\ Forall (fun c => isDigit c = true) ds.

Definition has_label (s : jsstring) : Prop :=
  exists p rest, s = p ++ rest /\ map canonicalize p = map canonicalize label.

(** What a token [[n]] becomes, said with the list of citations and without
    the functions of the formatter: a link to the URL of the last citation
    whose index is the number [n], labelled with that number in brackets,
    when there is such a citation and its URL is not empty, and the token
    itself otherwise.  The number is written without its leading zeros. *)
Definition last_citation (cits : list Citation) (n : N) : option Citation :=
  last (List.filter (fun c => sequenceIndex c =? n) cits).

Definition without_leading_zeros (ds : jsstring) : jsstring :=
  match dropWhile (fun c => c =? 48) ds with
  | [] => [48]
  | ds' => ds'
  end.

Definition hyperlink (href text : jsstring) : jsstring :=
  of_string "<a href=" ++ dquote ++ href ++ dquote
  ++ of_string " target=" ++ dquote ++ of_string "_blank" ++ dquote
  ++ of_string " rel=" ++ dquote ++ of_string "noopener noreferrer" ++ dquote
  ++ of_string ">" ++ text ++ of_string "</a>".

Definition rendered_token (cits : list Citation) (ds : jsstring) : jsstring :=
  match last_citation cits (decimal_value ds) with
  | Some c =>
      match url c with
      | [] => bracket ds
      | _ => hyperlink (url c) (bracket (without_leading_zeros ds))
      end
  | None => bracket ds
  end.

(** Decision procedures for the three properties of a text. *)
Definition is_some {A} (o : option A) : bool :=
  match o with Some _ => true | None => false end.

Fixpoint any_suffix (p : jsstring -> bool) (s : jsstring) : bool :=
  p s || match s with [] => false | _ :: s' => any_suffix p s' end.

Definition has_bold_marker_b (s : jsstring) : bool :=
  any_suffix (fun t => is_some (match_bold t)) s.

Definition has_bracket_token_b (s : jsstring) : bool :=
  any_suffix (fun t => is_some (match_citation t)) s.

Definition has_label_b (s : jsstring) : bool :=
  is_some (strip_prefix_ci label s).

End CitationFormatter.

(** ** JSON values and property access *)

Module Json.

(** What [JSON.parse] and [response.json()] produce.  A number is kept as
    its literal: the code never computes with the numbers of a response. *)
#[warnings="-register-all"]
Inductive value :=
  | JNull
  | JBool (b : bool)
  | JNumber (literal : jsstring)
  | JString (s : jsstring)
  | JArray (elems : list value)
  | JObject (props : list (jsstring * value)).

(** A JavaScript value read from such data: [None] is [undefined]. *)
Abbreviation jsvalue := (option value) (only parsing).

Fixpoint assoc (name : jsstring) (props : list (jsstring * value)) : jsvalue :=
  match props with
  | [] => None
  | (k, v) :: props' => if bool_decide (k = name) then Some v else assoc name props'
  end.

(** [x.name], for the property names the code reads ([clusters], [hits],
    [type], [content], [choices], [message], [articles], [source], [name],
    [domain]), which no prototype of a value of JSON defines:
    reading a property of [undefined] or [null] throws, an object gives the
    property it holds or [undefined], any other value gives [undefined]. *)
Definition get (x : jsvalue) (name : jsstring) : completion jsvalue :=
  match x with
  | None | Some JNull => Throw TypeError
  | Some (JObject props) => Normal (assoc name props)
  | Some _ => Normal None
  end.

(** [x[0]] *)
Definition index0 (x : jsvalue) : completion jsvalue :=
  match x with
  | None | Some JNull => Throw TypeError
  | Some (JArray elems) => Normal (head elems)
  | Some (JObject props) => Normal (assoc (of_string "0") props)
  | Some (JString (c :: _)) => Normal (Some (JString [c]))
  | Some _ => Normal None
  end.

(** The value of a number literal, as a mantissa and a power of ten: for
    [-12.50e3] the mantissa 1250 and the exponent 3 - 2. *)
Definition literal_exponent (s : jsstring) : Z :=
  match s with
  | e :: s1 =>
      if (e =? 101) || (e =? 69) then
        match s1 with
        | g :: s2 =>
            if g =? 45 then (- Z.of_N (decimal_value s2))%Z
            else if g =? 43 then Z.of_N (decimal_value s2)
            else Z.of_N (decimal_value s1)
        | [] => 0%Z
        end
      else 0%Z
  | [] => 0%Z
  end.

Definition literal_parts (s : jsstring) : N * Z :=
  let s1 := match s with
            | c :: s' => if c =? 45 then s' else s
            | [] => s
            end in
  let '(int, r1) := span isDigit s1 in
  let '(frac, r2) :=
    match r1 with
    | c :: r => if c =? 46 then span isDigit r else ([], r1)
    | [] => ([], r1)
    end in
  (decimal_value (int ++ frac),
   (literal_exponent r2 - Z.of_nat (length frac))%Z).

(** A number literal becomes the number zero when its mantissa is zero, and
    when its value is so small that the nearest double is zero: at most
    2^-1075, half of the least positive double. *)
Definition zero_literal (s : jsstring) : bool :=
  let '(mantissa, exponent) := literal_parts s in
  (mantissa =? 0)
  || ((exponent <? 0)%Z
      && (mantissa * 2 ^ 1075 <=? 10 ^ Z.to_N (- exponent))).

(** [Boolean(x)] *)
Definition truthy (x : jsvalue) : bool :=
  match x with
  | None | Some JNull => false
  | Some (JBool b) => b
  | Some (JNumber literal) => negb (zero_literal literal)
  | Some (JString s) => match s with [] => false | _ => true end
  | Some (JArray _) | Some (JObject _) => true
  end.

(** [Array.isArray(x)] *)
Definition isArray (x : jsvalue) : bool :=
  match x with Some (JArray _) => true | _ => false end.

Definition is_object (v : value) : Prop :=
  match v with JObject _ => True | _ => False end.

(** [x === s] for a string literal [s] *)
Definition strict_eq_string (x : jsvalue) (s : jsstring) : bool :=
  match x with
  | Some (JString t) => bool_decide (t = s)
  | _ => false
  end.

(** The string that [result += x] appends.  A number is printed as its
    literal, which is what JavaScript prints only for a literal in the
    shortest form of its number (12 or 0.5, and not 1.0, 1e2 or -0); what
    is proved of the text of an answer is stated for contents that are
    strings. *)
Fixpoint to_string (v : value) : jsstring :=
  match v with
  | JNull => of_string "null"
  | JBool true => of_string "true"
  | JBool false => of_string "false"
  | JNumber literal => literal
  | JString s => s
  | JArray elems =>
      (fix join (l : list value) : jsstring :=
         match l with
         | [] => []
         | x :: l' =>
             match x with JNull => [] | _ => to_string x end
             ++ match l' with [] => [] | _ => 44 :: join l' end
         end) elems
  | JObject _ => of_string "[object Object]"
  end.

Definition ToString (x : jsvalue) : jsstring :=
  match x with
  | None => of_string "undefined"
  | Some v => to_string v
  end.

End Json.
Import Json.

(** ** Requests *)

Module Http.

(** The outcome of [await fetch(API_URL)] and of [await response.json()]:
    the request may fail; a response has its [ok] flag and status, and its
    body decodes to a value or not at all. *)
Inductive fetch_outcome :=
  | FetchRejected
  | FetchResponse (ok : bool) (status : N) (json : option value).

(** The outcome of a streamed request: the chunks that [reader.read()]
    delivers, each as [TextDecoder] decodes it, and whether the stream ends
    ([done]) or a read fails behind them; or a response whose [body] is
    [null]. *)
Inductive stream_outcome :=
  | StreamRejected
  | StreamResponse (ok : bool) (status : N) (chunks : list jsstring)
                   (ends : bool)
  | StreamNoBody (ok : bool) (status : N).

End Http.
Import Http.

(** ** SourceMetadataResolver: [getBiasRating] *)

Module SourceMetadataResolver.

(** A record of [sourceInfo.results], as far as the resolver reads it; a
    rating field is a string of the five-point scale, or absent ([None]). *)
Record SourceRecord := {
  domain : jsstring;
  mbfcBiasRating : option jsstring;
  allSidesBiasRating : option jsstring;
  adFontesBiasRating : option jsstring
}.

(** The scale, with its names and slider positions ([ratingValues]). *)
Inductive BiasRating := Left | LeanLeft | Center | LeanRight | Right.

Definition rating_name (r : BiasRating) : jsstring :=
  match r with
  | Left => of_string "Left"
  | LeanLeft => of_string "Lean Left"
  | Center => of_string "Center"
  | LeanRight => of_string "Lean Right"
  | Right => of_string "Right"
  end.

Definition ratingValues (r : BiasRating) : N :=
  match r with
  | Left => 0
  | LeanLeft => 25
  | Center => 50
  | LeanRight => 75
  | Right => 100
  end.

(** Truthiness of a string-valued field, and [a || b]. *)
Definition field_truthy (x : option jsstring) : bool :=
  match x with
  | Some (_ :: _) => true
  | _ => false
  end.

Definition js_or (a b : option jsstring) : option jsstring :=
  if field_truthy a then a else b.

(** [source?.field]: [undefined] when [source] is. *)
Definition opt_field (source : option SourceRecord)
    (field : SourceRecord -> option jsstring) : option jsstring :=
  match source with
  | Some s => field s
  | None => None
  end.

Definition getBiasRating (source : option SourceRecord) : option jsstring :=
  js_or (js_or (js_or (opt_field source mbfcBiasRating)
                      (opt_field source allSidesBiasRating))
               (opt_field source adFontesBiasRating))
        None.

(** The provider fields in their priority order. *)
Definition provider_fields (s : SourceRecord) : list (option jsstring) :=
  [mbfcBiasRating s; allSidesBiasRating s; adFontesBiasRating s].

End SourceMetadataResolver.

(** ** FeedAggregator: the mainstream feed *)

Module FeedAggregator.

(** The state of the component that the fetch writes. *)
Record FeedState := {
  news : list value;
  loading : bool;
  error : option jsstring
}.

Fixpoint mapM {A B} (f : A -> completion B) (l : list A) : completion (list B) :=
  match l with
  | [] => Normal []
  | x :: l' => f x >>= fun y => mapM f l' >>= fun ys => Normal (y :: ys)
  end.

(** [.filter(Boolean)] on the mapped hits. *)
Fixpoint filter_truthy (l : list jsvalue) : list value :=
  match l with
  | [] => []
  | x :: l' =>
      match x with
      | Some v => if truthy x then v :: filter_truthy l' else filter_truthy l'
      | None => filter_truthy l'
      end
  end.

(** The value given to [setNews] by the lines from [if (data.clusters && ...)]
    on. *)
Definition normalize_clusters (data : value) : completion (list value) :=
  get (Some data) (of_string "clusters") >>= fun clusters =>
  if truthy clusters && isArray clusters then
    match clusters with
    | Some (JArray cs) =>
        mapM (fun cluster =>
                get (Some cluster) (of_string "hits") >>= fun hits => index0 hits)
             cs >>= fun firsts =>
        let articles := filter_truthy firsts in
        Normal (take 18 articles)
    | _ => Normal []
    end
  else Normal [].

(** The [try] block of [fetchMainstreamNews], up to the articles. *)
Definition mainstream_try (r : fetch_outcome) : completion (list value) :=
  match r with
  | FetchRejected => Throw NetworkError
  | FetchResponse false status _ => Throw (HttpError status)
  | FetchResponse true _ None => Throw SyntaxError
  | FetchResponse true _ (Some data) => normalize_clusters data
  end.

Definition fetchMainstreamNews (st : FeedState) (r : fetch_outcome) : FeedState :=
  let st := {| news := news st; loading := true; error := error st |} in
  match mainstream_try r with
  | Normal articles =>
      {| news := articles; loading := false; error := error st |}
  | Throw _ =>
      {| news := news st; loading := false;
         error := Some (of_string "Failed to fetch news") |}
  end.

(** A cluster as the feed documents it: an object whose [hits] is an array
    of article objects. *)
Definition cluster_with_hits (cluster : value) (hits : list value) : Prop :=
  is_object cluster
  /\ get (Some cluster) (of_string "hits") = Normal (Some (JArray hits))
  /\ Forall is_object hits.

(** [{ hits: [...] }], and the state of the component before its first
    fetch ([useState([])], [useState(true)], [useState(null)]). *)
Definition cluster_of (hits : list value) : value :=
  JObject [(of_string "hits", JArray hits)].

Definition clusters_response (clusters : list value) : value :=
  JObject [(of_string "clusters", JArray clusters)].

Definition initial_feed : FeedState :=
  {| news := []; loading := true; error := None |}.

End FeedAggregator.

(** ** FeedQueryBuilder: the date window *)

Module FeedQueryBuilder.

Local Open Scope Z_scope.

(** A [Date] read in local time is the number of its calendar day, counted
    from 1970-01-01.  The time of day is left out: [setDate] keeps it and the
    pattern ['yyyy-MM-dd'] does not read it.  A [Date] holds a time within
    100,000,000 days of 1970-01-01; beyond that it is an Invalid Date, which
    [format] refuses, and which the day numbers do not model. *)
Abbreviation Date := Z (only parsing).

(** The day within its 400-year era (146097 days, starting on a 1 March):
    year of the era, month (1 to 12) and day of the month. *)
Definition civil_of_doe (doe : Z) : Z * Z * Z :=
  let yoe := (doe - doe / 1460 + doe / 36524 - doe / 146096) / 365 in
  let doy := doe - (365 * yoe + yoe / 4 - yoe / 100) in
  let mp := (5 * doy + 2) / 153 in
  let d := doy - (153 * mp + 2) / 5 + 1 in
  let m := if mp <? 10 then mp + 3 else mp - 9 in
  (yoe, m, d).

Definition doe_of_civil (yoe m d : Z) : Z :=
  let doy := (153 * (if m >? 2 then m - 3 else m + 9) + 2) / 5 + d - 1 in
  yoe * 365 + yoe / 4 - yoe / 100 + doy.

(** Year, month (1 to 12) and day of the month of a day number. *)
Definition civil_from_days (date : Date) : Z * Z * Z :=
  let z := date + 719468 in
  let era := z / 146097 in
  let '(yoe, m, d) := civil_of_doe (z mod 146097) in
  let y := yoe + era * 400 in
  (if m <=? 2 then y + 1 else y, m, d).

(** The day number of a year, month (1 to 12) and day; [d] may lie outside
    the month, as in [setDate]. *)
Definition days_from_civil (y m d : Z) : Z :=
  let y := if m <=? 2 then y - 1 else y in
  let era := y / 400 in
  let yoe := y - era * 400 in
  era * 146097 + doe_of_civil yoe m d - 719468.

Definition getFullYear (date : Date) : Z := fst (fst (civil_from_days date)).
(** [getMonth] counts from 0. *)
Definition getMonth (date : Date) : Z := snd (fst (civil_from_days date)) - 1.
Definition getDate (date : Date) : Z := snd (civil_from_days date).

(** [date.setDate(dt)]: day [dt] counted from the first of the month of
    [date]. *)
Definition setDate (date : Date) (dt : Z) : Date :=
  days_from_civil (getFullYear date) (getMonth date + 1) 1 + dt - 1.

(** date-fns [addDays] and [subDays]. *)
Definition addDays (date : Date) (amount : Z) : Date :=
  if amount =? 0 then date else setDate date (getDate date + amount).

Definition subDays (date : Date) (amount : Z) : Date := addDays date (- amount).

(** date-fns [addLeadingZeros]: the sign and the absolute value padded with
    zeros to [targetLength] digits. *)
Definition addLeadingZeros (number : Z) (targetLength : nat) : jsstring :=
  let digits := number_to_string (Z.to_N (Z.abs number)) in
  (if number <? 0 then [45%N] else [])
  ++ replicate (targetLength - length digits) 48%N ++ digits.

(** [format(date, 'yyyy-MM-dd')]; the token [yyyy] prints year [1 - y] for a
    year [y] that is not positive. *)
Definition format_yyyy_MM_dd (date : Date) : jsstring :=
  let signedYear := getFullYear date in
  let year := if signedYear >? 0 then signedYear else 1 - signedYear in
  addLeadingZeros year 4 ++ [45%N]
  ++ addLeadingZeros (getMonth date + 1) 2 ++ [45%N]
  ++ addLeadingZeros (getDate date) 2.

(** The constants [from] and [to] of [fetchFaithNews] ... *)
Definition fetchFaithNews_window (today : Date) (dateOffset : Z)
    : jsstring * jsstring :=
  let to := format_yyyy_MM_dd (subDays today dateOffset) in
  let from := format_yyyy_MM_dd (subDays today (dateOffset + 1)) in
  (from, to).

(** ... and of [fetchMainstreamNews]. *)
Definition fetchMainstreamNews_window (today : Date) (dateOffset : Z)
    : jsstring * jsstring :=
  let to := format_yyyy_MM_dd (subDays today dateOffset) in
  let from := format_yyyy_MM_dd (subDays today (dateOffset + 1)) in
  (from, to).

(** *** What the properties of the window speak of

    The calendar, said without the day numbers: leap years, the lengths of
    the months, the dates there are, and the date of the day after. *)
Definition isLeapYear (y : Z) : bool :=
  (y mod 4 =? 0) && (negb (y mod 100 =? 0) || (y mod 400 =? 0)).

Definition daysInMonth (y m : Z) : Z :=
  if m =? 2 then (if isLeapYear y then 29 else 28)
  else if (m =? 4) || (m =? 6) || (m =? 9) || (m =? 11) then 30
  else 31.

Definition valid_date (date : Z * Z * Z) : bool :=
  let '(y, m, d) := date in
  (1 <=? m) && (m <=? 12) && (1 <=? d) && (d <=? daysInMonth y m).

Definition next_day (date : Z * Z * Z) : Z * Z * Z :=
  let '(y, m, d) := date in
  if d <? daysInMonth y m then (y, m, d + 1)
  else if m <? 12 then (y, m + 1, 1)
  else (y + 1, 1, 1).

(** The shape [YYYY-MM-DD]. *)
Definition is_YYYY_MM_DD (s : jsstring) : bool :=
  match s with
  | [y1; y2; y3; y4; h1; m1; m2; h2; d1; d2] =>
      forallb isDigit [y1; y2; y3; y4; m1; m2; d1; d2]
      && (h1 =? 45)%N && (h2 =? 45)%N
  | _ => false
  end.

(** The date that a text denotes: a year of four digits or more, a month
    of two digits and a day of two digits, with hyphens between them. *)
Definition read_date (s : jsstring) : option (Z * Z * Z) :=
  let '(y, rest) := span isDigit s in
  match rest with
  | [h1; m1; m2; h2; d1; d2] =>
      if (4 <=? length y)%nat && (h1 =? 45)%N && (h2 =? 45)%N
         && forallb isDigit [m1; m2; d1; d2]
      then Some (Z.of_N (decimal_value y),
                 Z.of_N (decimal_value [m1; m2]),
                 Z.of_N (decimal_value [d1; d2]))
      else None
  | _ => None
  end.

Definition digits_of_length (n : nat) (s : jsstring) : bool :=
  (length s =? n)%nat && forallb isDigit s.

(** A check of all the integers from [z] on, [fuel] of them. *)
Fixpoint all_from (fuel : nat) (z : Z) (p : Z -> bool) : bool :=
  match fuel with
  | O => true
  | S fuel' => p z && all_from fuel' (z + 1) p
  end.

(** What holds of every day of an era: the parts are in range and give the
    day back. *)
Definition doe_ok (doe : Z) : bool :=
  let '(yoe, m, d) := civil_of_doe doe in
  (0 <=? yoe) && (yoe <? 400) && (1 <=? m) && (m <=? 12)
  && (1 <=? d) && (d <=? 31) && (doe_of_civil yoe m d =? doe).

Definition same_date (x y : Z * Z * Z) : bool :=
  let '(y1, m1, d1) := x in
  let '(y2, m2, d2) := y in
  (y1 =? y2) && (m1 =? m2) && (d1 =? d2).

(** What holds of every day: its date is one of the calendar, and the date
    of the day after it is the next one. *)
Definition day_ok (date : Date) : bool :=
  valid_date (civil_from_days date)
  && same_date (civil_from_days (date + 1)) (next_day (civil_from_days date)).

(** A field of two digits that reads back as the number printed. *)
Definition field_ok (n : Z) : bool :=
  match addLeadingZeros n 2 with
  | [a; b] => isDigit a && isDigit b && (Z.of_N (decimal_value [a; b]) =? n)
  | _ => false
  end.

End FeedQueryBuilder.

(** ** [JSON.parse] *)

Module JsonParse.

(** The result of a parser: a value and the text behind it, a syntax error,
    or not enough fuel (which [JSON_parse] never runs into, see
    [JSON_parse_fuel]). *)
Inductive presult (A : Type) :=
  | POk (a : A) (rest : jsstring)
  | PSyntax
  | PFuel.
Arguments POk {A} a rest.
Arguments PSyntax {A}.
Arguments PFuel {A}.

(** JSON whitespace: space, tab, line feed, carriage return. *)
Definition is_json_ws (c : char) : bool :=
  (c =? 32) || (c =? 9) || (c =? 10) || (c =? 13).

Definition skip_ws (s : jsstring) : jsstring := dropWhile is_json_ws s.

Definition hex_value (c : char) : option N :=
  if isDigit c then Some (c - 48)
  else if (97 <=? c) && (c <=? 102) then Some (c - 87)
  else if (65 <=? c) && (c <=? 70) then Some (c - 55)
  else None.

(** The escape [\uXXXX]. *)
Definition hex4 (h1 h2 h3 h4 : char) : option char :=
  match hex_value h1, hex_value h2, hex_value h3, hex_value h4 with
  | Some a, Some b, Some c, Some d => Some (((a * 16 + b) * 16 + c) * 16 + d)
  | _, _, _, _ => None
  end.

(** The one-letter escapes. *)
Definition simple_escape (e : char) : option char :=
  if e =? 34 then Some 34
  else if e =? 92 then Some 92
  else if e =? 47 then Some 47
  else if e =? 98 then Some 8
  else if e =? 102 then Some 12
  else if e =? 110 then Some 10
  else if e =? 114 then Some 13
  else if e =? 116 then Some 9
  else None.

(** A string behind its opening quote, up to the closing one. *)
Fixpoint parse_string_body (s : jsstring) : presult jsstring :=
  match s with
  | [] => PSyntax
  | c :: s1 =>
      if c =? 34 then POk [] s1
      else if c =? 92 then
        match s1 with
        | [] => PSyntax
        | e :: s2 =>
            if e =? 117 then
              match s2 with
              | h1 :: h2 :: h3 :: h4 :: s3 =>
                  match hex4 h1 h2 h3 h4 with
                  | Some u =>
                      match parse_string_body s3 with
                      | POk str rest => POk (u :: str) rest
                      | r => r
                      end
                  | None => PSyntax
                  end
              | _ => PSyntax
              end
            else
              match simple_escape e with
              | Some u =>
                  match parse_string_body s2 with
                  | POk str rest => POk (u :: str) rest
                  | r => r
                  end
              | None => PSyntax
              end
        end
      else if c <? 32 then PSyntax
      else
        match parse_string_body s1 with
        | POk str rest => POk (c :: str) rest
        | r => r
        end
  end.

(** A number: an optional minus, then [0] or a digit from 1 to 9 and more
    digits, then optionally a point and one or more digits, then optionally
    [e] or [E], an optional sign and one or more digits.  The result is the
    literal. *)
Definition parse_digits1 (s : jsstring) : option (jsstring * jsstring) :=
  match span isDigit s with
  | (d :: ds, rest) => Some (d :: ds, rest)
  | _ => None
  end.

Definition parse_int_part (s : jsstring) : option (jsstring * jsstring) :=
  match s with
  | c :: s1 =>
      if c =? 48 then Some ([c], s1)
      else if isDigit c then let '(ds, rest) := span isDigit s1 in Some (c :: ds, rest)
      else None
  | [] => None
  end.

Definition parse_frac (s : jsstring) : option (jsstring * jsstring) :=
  match s with
  | c :: s1 =>
      if c =? 46 then
        match parse_digits1 s1 with
        | Some (ds, rest) => Some (c :: ds, rest)
        | None => None
        end
      else Some ([], s)
  | [] => Some ([], s)
  end.

Definition parse_exp (s : jsstring) : option (jsstring * jsstring) :=
  match s with
  | c :: s1 =>
      if (c =? 101) || (c =? 69) then
        let '(sign, s2) :=
          match s1 with
          | g :: s2 => if (g =? 43) || (g =? 45) then ([g], s2) else ([], s1)
          | [] => ([], s1)
          end in
        match parse_digits1 s2 with
        | Some (ds, rest) => Some (c :: sign ++ ds, rest)
        | None => None
        end
      else Some ([], s)
  | [] => Some ([], s)
  end.

Definition parse_number (s : jsstring) : presult jsstring :=
  let '(minus, s1) :=
    match s with
    | c :: s' => if c =? 45 then ([c], s') else ([], s)
    | [] => ([], s)
    end in
  match parse_int_part s1 with
  | Some (int, s2) =>
      match parse_frac s2 with
      | Some (frac, s3) =>
          match parse_exp s3 with
          | Some (exp, s4) => POk (minus ++ int ++ frac ++ exp) s4
          | None => PSyntax
          end
      | None => PSyntax
      end
  | None => PSyntax
  end.

Definition parse_literal (word : jsstring) (v : value) (s : jsstring)
    : presult value :=
  match strip_prefix word s with
  | Some rest => POk v rest
  | None => PSyntax
  end.

(** Values, the elements of an array behind [[] or [,], and the members of
    an object behind [{] or [,].  The members are collected with the latest
    first, so that of two members with one name the later is the one read.
    Every call consumes a code unit of the text before the next one, so the
    length of the text bounds the fuel used. *)
Fixpoint parse_value (fuel : nat) (s : jsstring) : presult value :=
  match fuel with
  | O => PFuel
  | S fuel' =>
      match skip_ws s with
      | [] => PSyntax
      | c :: s1 =>
          if c =? 123 then
            match skip_ws s1 with
            | c2 :: s2 =>
                if c2 =? 125 then POk (JObject []) s2
                else parse_members fuel' s1 []
            | [] => PSyntax
            end
          else if c =? 91 then
            match skip_ws s1 with
            | c2 :: s2 =>
                if c2 =? 93 then POk (JArray []) s2
                else parse_elements fuel' s1 []
            | [] => PSyntax
            end
          else if c =? 34 then
            match parse_string_body s1 with
            | POk str rest => POk (JString str) rest
            | PSyntax => PSyntax
            | PFuel => PFuel
            end
          else if c =? 116 then parse_literal (of_string "true") (JBool true) (c :: s1)
          else if c =? 102 then parse_literal (of_string "false") (JBool false) (c :: s1)
          else if c =? 110 then parse_literal (of_string "null") JNull (c :: s1)
          else
            match parse_number (c :: s1) with
            | POk literal rest => POk (JNumber literal) rest
            | PSyntax => PSyntax
            | PFuel => PFuel
            end
      end
  end

with parse_elements (fuel : nat) (s : jsstring) (acc : list value)
    : presult value :=
  match fuel with
  | O => PFuel
  | S fuel' =>
      match parse_value fuel' s with
      | POk v s1 =>
          match skip_ws s1 with
          | c :: s2 =>
              if c =? 44 then parse_elements fuel' s2 (v :: acc)
              else if c =? 93 then POk (JArray (rev (v :: acc))) s2
              else PSyntax
          | [] => PSyntax
          end
      | PSyntax => PSyntax
      | PFuel => PFuel
      end
  end

with parse_members (fuel : nat) (s : jsstring) (acc : list (jsstring * value))
    : presult value :=
  match fuel with
  | O => PFuel
  | S fuel' =>
      match skip_ws s with
      | c :: s1 =>
          if c =? 34 then
            match parse_string_body s1 with
            | POk name s2 =>
                match skip_ws s2 with
                | c3 :: s3 =>
                    if c3 =? 58 then
                      match parse_value fuel' s3 with
                      | POk v s4 =>
                          match skip_ws s4 with
                          | c5 :: s5 =>
                              if c5 =? 44 then parse_members fuel' s5 ((name, v) :: acc)
                              else if c5 =? 125 then POk (JObject ((name, v) :: acc)) s5
                              else PSyntax
                          | [] => PSyntax
                          end
                      | PSyntax => PSyntax
                      | PFuel => PFuel
                      end
                    else PSyntax
                | [] => PSyntax
                end
            | PSyntax => PSyntax
            | PFuel => PFuel
            end
          else PSyntax
      | [] => PSyntax
      end
  end.

(** [JSON.parse(text)]: one value, with only whitespace around it; anything
    else throws a [SyntaxError]. *)
Definition parse_text (text : jsstring) : presult value :=
  match parse_value (2 * length text + 2) text with
  | POk v rest =>
      match skip_ws rest with
      | [] => POk v []
      | _ => PSyntax
      end
  | r => r
  end.

Definition JSON_parse (text : jsstring) : completion value :=
  match parse_text text with
  | POk v _ => Normal v
  | _ => Throw SyntaxError
  end.

End JsonParse.

(** ** QuestionGenerator: [generateQuestion] *)

Module QuestionGenerator.
Import JsonParse.

(** The prompt of the one completion request. *)
Definition prompt (title content : jsstring) : jsstring :=
  of_string "There is a news article with the following content "
  ++ dquote ++ title ++ dquote ++ of_string " " ++ dquote ++ content ++ dquote
  ++ of_string ". generate a brief question to ask a search engine about this article".

(** [x.trim()]: a method of strings only. *)
Definition call_trim (x : jsvalue) : completion jsstring :=
  match x with
  | Some (JString s) => Normal (trim s)
  | _ => Throw TypeError
  end.

(** The [try] block, on the outcome of the request. *)
Definition generateQuestion_try (r : fetch_outcome) : completion jsstring :=
  match r with
  | FetchRejected => Throw NetworkError
  | FetchResponse false status _ => Throw (HttpError status)
  | FetchResponse true _ None => Throw SyntaxError
  | FetchResponse true _ (Some data) =>
      get (Some data) (of_string "choices") >>= fun choices =>
      index0 choices >>= fun choice =>
      get choice (of_string "message") >>= fun message =>
      get message (of_string "content") >>= fun content =>
      call_trim content
  end.

Definition failed_question : jsstring := of_string "Failed to generate question".

Definition generateQuestion (r : fetch_outcome) : completion jsstring :=
  try_catch (generateQuestion_try r) (fun _ => Normal failed_question).

End QuestionGenerator.

(** ** StreamingAnswerClient: [callPerigonAPI] *)

Module StreamingAnswerClient.
Import JsonParse.

(** The result: [{ content, citations }]; a citation is the whole parsed
    event, of which the formatter reads [sequenceIndex] and [url]. *)
Record AnswerResult := {
  content : jsstring;
  citations : list value
}.

(** [chunk.split('\n')] *)
Fixpoint split_newline (s : jsstring) : list jsstring :=
  match s with
  | [] => [[]]
  | c :: s' =>
      if c =? 10 then [] :: split_newline s'
      else match split_newline s' with
           | line :: lines => (c :: line) :: lines
           | [] => [[c]]
           end
  end.

(** [line => line.trim() !== ''] *)
Definition not_blank (line : jsstring) : bool :=
  match trim line with [] => false | _ => true end.

Definition lines_of (chunk : jsstring) : list jsstring :=
  filter (fun line => not_blank line = true) (split_newline chunk).

(** The running [result] and [citations]. *)
Definition accumulator : Type := jsstring * list value.

(** The body of [for (const line of lines)], given the parsed line. *)
Definition handle_parsed (acc : accumulator) (parsedLine : value)
    : completion accumulator :=
  let '(result, citations) := acc in
  get (Some parsedLine) (of_string "type") >>= fun type =>
  if strict_eq_string type (of_string "RESPONSE_CHUNK") then
    get (Some parsedLine) (of_string "content") >>= fun content =>
    Normal (result ++ ToString content, citations)
  else if strict_eq_string type (of_string "CITATION") then
    Normal (result, citations ++ [parsedLine])
  else Normal acc.

Definition handle_line (acc : accumulator) (line : jsstring)
    : completion accumulator :=
  JSON_parse line >>= fun parsedLine => handle_parsed acc parsedLine.

Fixpoint handle_lines (acc : accumulator) (lines : list jsstring)
    : completion accumulator :=
  match lines with
  | [] => Normal acc
  | line :: lines' => handle_line acc line >>= fun acc' => handle_lines acc' lines'
  end.

(** [while (true)]: one turn per chunk that [reader.read()] delivers, until
    it reports [done] or fails. *)
Fixpoint read_loop (acc : accumulator) (chunks : list jsstring) (ends : bool)
    : completion accumulator :=
  match chunks with
  | [] => if ends then Normal acc else Throw NetworkError
  | chunk :: chunks' =>
      handle_lines acc (lines_of chunk) >>= fun acc' =>
      read_loop acc' chunks' ends
  end.

Definition callPerigonAPI_try (r : stream_outcome) : completion AnswerResult :=
  match r with
  | StreamRejected => Throw NetworkError
  | StreamResponse false status _ _ => Throw (HttpError status)
  | StreamResponse true _ chunks ends =>
      read_loop ([], []) chunks ends >>= fun '(result, citations) =>
      Normal {| content := trim result; citations := citations |}
  | StreamNoBody false status => Throw (HttpError status)
  | StreamNoBody true _ => Throw TypeError
  end.

Definition failed_answer : AnswerResult :=
  {| content := of_string "Failed to get response from Perigon API";
     citations := [] |}.

Definition callPerigonAPI (r : stream_outcome) : completion AnswerResult :=
  try_catch (callPerigonAPI_try r) (fun _ => Normal failed_answer).

(** The text of a frame [{"type":"RESPONSE_CHUNK","content":text}], for a
    text without quotes or escapes, and of a frame with only a [type]. *)
Definition quoted (s : jsstring) : jsstring := dquote ++ s ++ dquote.

Definition chunk_frame (text : jsstring) : jsstring :=
  of_string "{" ++ quoted (of_string "type") ++ of_string ":"
  ++ quoted (of_string "RESPONSE_CHUNK") ++ of_string ","
  ++ quoted (of_string "content") ++ of_string ":" ++ quoted text
  ++ of_string "}".

Definition typed_frame (type : jsstring) : jsstring :=
  of_string "{" ++ quoted (of_string "type") ++ of_string ":" ++ quoted type
  ++ of_string "}".

End StreamingAnswerClient.

(** ** VerificationCache: [handleCheckMainstream] and its button *)

Module VerificationCache.
Import QuestionGenerator StreamingAnswerClient.

(** The requests sent: the completion request of [generateQuestion], and the
    streamed request of [callPerigonAPI] with its question. *)
Inductive call :=
  | QuestionCall (articleId title content : jsstring)
  | StreamCall (articleId question : jsstring).

(** An invocation of the handler that is suspended at one of its two
    [await]s. *)
Inductive task :=
  | AwaitQuestion (articleId : jsstring)
  | AwaitAnswer (articleId : jsstring).

(** The state of the component ([perigonResponses], [loadingResponses]),
    the suspended invocations and the requests sent so far.  The two
    objects are plain objects used as maps from article identifiers: the
    maps hold their own properties, and a read of a name that is not an own
    property finds what [Object.prototype] holds under it. *)
Record AppState := {
  perigonResponses : gmap (list N) AnswerResult;
  loadingResponses : gmap (list N) bool;
  pending : list task;
  calls : list call
}.

Definition initial : AppState :=
  {| perigonResponses := ∅; loadingResponses := ∅; pending := []; calls := [] |}.

(** The names under which a plain object inherits a value from
    [Object.prototype]: functions, and under [__proto__] the prototype
    itself; all of them truthy. *)
Definition object_prototype_names : list jsstring :=
  map of_string
    ["constructor"; "__defineGetter__"; "__defineSetter__"; "hasOwnProperty";
     "__lookupGetter__"; "__lookupSetter__"; "isPrototypeOf";
     "propertyIsEnumerable"; "toString"; "valueOf"; "__proto__";
     "toLocaleString"]%string.

Definition inherited (key : jsstring) : bool :=
  existsb (fun name => bool_decide (name = key)) object_prototype_names.

(** [handleCheckMainstream(articleId, title, content)] up to its first
    [await].  [perigonResponses[articleId]] is truthy when a response is
    stored, which is an object, and when nothing is stored but the
    identifier is an inherited name. *)
Definition handleCheckMainstream (st : AppState) (articleId title content : jsstring)
    : AppState :=
  match perigonResponses st !! articleId with
  | Some _ => st
  | None =>
      if inherited articleId then st
      else
        {| perigonResponses := perigonResponses st;
           loadingResponses := <[articleId := true]> (loadingResponses st);
           pending := pending st ++ [AwaitQuestion articleId];
           calls := calls st ++ [QuestionCall articleId title content] |}
  end.

Definition less_than_200_words : jsstring := of_string " in less than 200 words".

(** The invocation [i] resumes with the outcome of the completion request:
    from [await generateQuestion] to [await callPerigonAPI(question)].  Were
    [generateQuestion] to throw, the invocation would end there. *)
Definition resume_question (st : AppState) (i : nat) (r : fetch_outcome) : AppState :=
  match pending st !! i with
  | Some (AwaitQuestion articleId) =>
      match generateQuestion r with
      | Normal question =>
          let question := question ++ less_than_200_words in
          {| perigonResponses := perigonResponses st;
             loadingResponses := loadingResponses st;
             pending := <[i := AwaitAnswer articleId]> (pending st);
             calls := calls st ++ [StreamCall articleId question] |}
      | Throw _ =>
          {| perigonResponses := perigonResponses st;
             loadingResponses := loadingResponses st;
             pending := delete i (pending st);
             calls := calls st |}
      end
  | _ => st
  end.

(** The invocation [i] resumes with the outcome of the stream: the two
    state updates behind [await callPerigonAPI(question)]. *)
Definition resume_answer (st : AppState) (i : nat) (r : stream_outcome) : AppState :=
  match pending st !! i with
  | Some (AwaitAnswer articleId) =>
      match callPerigonAPI r with
      | Normal perigonResponse =>
          {| perigonResponses := <[articleId := perigonResponse]> (perigonResponses st);
             loadingResponses := <[articleId := false]> (loadingResponses st);
             pending := delete i (pending st);
             calls := calls st |}
      | Throw _ =>
          {| perigonResponses := perigonResponses st;
             loadingResponses := loadingResponses st;
             pending := delete i (pending st);
             calls := calls st |}
      end
  | _ => st
  end.

(** The button of an article: [disabled={loadingResponses[article.articleId]}],
    [onClick] the handler.  The page is rendered from the current state
    before the next event is handled, so the button and the handler read
    the state that the earlier events left.  Where the identifier is no own
    property of [loadingResponses] the value is the inherited one: a
    function, which React does not set as an attribute, or, under
    [__proto__], the prototype object, which is truthy. *)
Definition disabled (st : AppState) (articleId : jsstring) : bool :=
  match loadingResponses st !! articleId with
  | Some b => b
  | None => bool_decide (articleId = of_string "__proto__")
  end.

Definition click (st : AppState) (articleId title content : jsstring) : AppState :=
  if disabled st articleId then st
  else handleCheckMainstream st articleId title content.

(** What happens to the component: a call of the handler, a click on a
    button, the arrival of a response for a suspended invocation. *)
Inductive event :=
  | Invoke (articleId title content : jsstring)
  | Click (articleId title content : jsstring)
  | QuestionResponse (i : nat) (r : fetch_outcome)
  | AnswerResponse (i : nat) (r : stream_outcome).

Definition step (st : AppState) (e : event) : AppState :=
  match e with
  | Invoke articleId title content => handleCheckMainstream st articleId title content
  | Click articleId title content => click st articleId title content
  | QuestionResponse i r => resume_question st i r
  | AnswerResponse i r => resume_answer st i r
  end.

Definition run (st : AppState) (events : list event) : AppState :=
  fold_left step events st.

(** Events that come from the page: no call of the handler but by a click. *)
Definition from_page (e : event) : Prop :=
  match e with Invoke _ _ _ => False | _ => True end.

(** A trigger of the verification of an article. *)
Definition triggers (articleId : jsstring) (e : event) : bool :=
  match e with
  | Invoke a _ _ | Click a _ _ => bool_decide (a = articleId)
  | _ => false
  end.

(** The requests sent for an article. *)
Definition is_question_call (articleId : jsstring) (c : call) : bool :=
  match c with
  | QuestionCall a _ _ => bool_decide (a = articleId)
  | StreamCall _ _ => false
  end.

Definition is_stream_call (articleId : jsstring) (c : call) : bool :=
  match c with
  | StreamCall a _ => bool_decide (a = articleId)
  | QuestionCall _ _ _ => false
  end.

Definition question_calls (articleId : jsstring) (st : AppState) : nat :=
  length (List.filter (is_question_call articleId) (calls st)).

Definition stream_calls (articleId : jsstring) (st : AppState) : nat :=
  length (List.filter (is_stream_call articleId) (calls st)).

(** The suspended invocations for an article. *)
Definition task_of (articleId : jsstring) (t : task) : bool :=
  match t with
  | AwaitQuestion a | AwaitAnswer a => bool_decide (a = articleId)
  end.

Definition awaits_answer (articleId : jsstring) (t : task) : bool :=
  match t with
  | AwaitAnswer a => bool_decide (a = articleId)
  | AwaitQuestion _ => false
  end.

Definition in_flight (articleId : jsstring) (st : AppState) : nat :=
  length (List.filter (task_of articleId) (pending st)).

Definition streaming (articleId : jsstring) (st : AppState) : nat :=
  length (List.filter (awaits_answer articleId) (pending st)).

Definition completed (articleId : jsstring) (st : AppState) : nat :=
  match perigonResponses st !! articleId with Some _ => 1 | None => 0 end.

(** What holds of every state that the page can reach, for every article:
    each request sent belongs to a suspended invocation or to the stored
    response, there is at most one of these, and the button is disabled
    exactly while an invocation is suspended (for an identifier that is no
    inherited name). *)
Definition invariant (st : AppState) : Prop :=
  forall articleId,
    question_calls articleId st
    = (in_flight articleId st + completed articleId st)%nat
    /\ stream_calls articleId st
       = (streaming articleId st + completed articleId st)%nat
    /\ (in_flight articleId st + completed articleId st <= 1)%nat
    /\ (inherited articleId = false ->
        (disabled st articleId = true <-> in_flight articleId st = 1%nat)).

End VerificationCache.

(** ** The controls of the feed: date offset, sources, categories *)

Module FeedControls.

Local Open Scope Z_scope.

Definition FAITH_SOURCES : list jsstring :=
  map of_string
    ["christianpost.com"; "christianitytoday.com"; "relevantmagazine.com";
     "wng.org"; "cbn.com"; "churchleaders.com"; "washingtoninformer.com";
     "religionunplugged.com"; "premierchristian.news"; "news.ag.org";
     "baptistpress.com"]%string.

Definition CATEGORIES : list jsstring :=
  map of_string
    ["Politics"; "Tech"; "Finance"; "Business"; "Health"; "General"]%string.

(** [s !== source] and [prev.includes(source)] on strings. *)
Definition differs (source s : jsstring) : bool := negb (bool_decide (s = source)).

Definition includes (prev : list jsstring) (source : jsstring) : bool :=
  existsb (fun s => bool_decide (s = source)) prev.

(** The updater of [handleSourceToggle]:
    [prev.includes(source) ? prev.filter(s => s !== source) : [...prev, source]] *)
Definition handleSourceToggle (prev : list jsstring) (source : jsstring)
    : list jsstring :=
  if includes prev source then List.filter (differs source) prev
  else prev ++ [source].

(** The updater of [handleCategoryChange], of the same shape. *)
Definition handleCategoryChange (prev : list jsstring) (category : jsstring)
    : list jsstring :=
  if includes prev category then List.filter (differs category) prev
  else prev ++ [category].

(** [handleDateChange(direction)] on the offset: any other direction, and
    ['right'] at offset 0, change nothing. *)
Definition handleDateChange (dateOffset : Z) (direction : jsstring) : Z :=
  if bool_decide (direction = of_string "left") then dateOffset + 1
  else if bool_decide (direction = of_string "right") && (dateOffset >? 0)
       then dateOffset - 1
  else dateOffset.

(** The offset, the sources and the categories after a series of uses of
    the controls, from their initial values [0], [FAITH_SOURCES] and [[]]. *)
Definition offset_after (directions : list jsstring) : Z :=
  fold_left handleDateChange directions 0.

Definition sources_after (toggled : list jsstring) : list jsstring :=
  fold_left handleSourceToggle toggled FAITH_SOURCES.

Definition categories_after (toggled : list jsstring) : list jsstring :=
  fold_left handleCategoryChange toggled [].

End FeedControls.

(** ** The requests of the two feeds and the faith feed *)

Module FeedRequests.

(** [parts.join(sep)] *)
Fixpoint join (sep : jsstring) (parts : list jsstring) : jsstring :=
  match parts with
  | [] => []
  | [x] => x
  | x :: parts' => x ++ sep ++ join sep parts'
  end.

Definition amp : jsstring := [38].

Definition sourceParams (selectedSources : list jsstring) : jsstring :=
  join amp (map (fun source => of_string "source=" ++ source) selectedSources).

Definition categoryParams (selectedCategories : list jsstring) : jsstring :=
  join amp (map (fun category => of_string "category=" ++ category)
                selectedCategories).

(** The query of the [API_URL] of [fetchFaithNews], behind the [?]. *)
Definition faith_query (API_KEY from to : jsstring)
    (selectedSources selectedCategories : list jsstring) : jsstring :=
  of_string "apiKey=" ++ API_KEY ++ of_string "&from=" ++ from
  ++ of_string "&to=" ++ to
  ++ of_string "&showNumResults=true&size=18&sortBy=date&"
  ++ sourceParams selectedSources ++ of_string "&"
  ++ categoryParams selectedCategories.

Definition faith_API_URL (API_KEY from to : jsstring)
    (selectedSources selectedCategories : list jsstring) : jsstring :=
  of_string "https://api.goperigon.com/v1/all?"
  ++ faith_query API_KEY from to selectedSources selectedCategories.

(** The query of the [API_URL] of [fetchMainstreamNews]. *)
Definition mainstream_query (API_KEY from to : jsstring) : jsstring :=
  of_string "apiKey=" ++ API_KEY ++ of_string "&from=" ++ from
  ++ of_string "&to=" ++ to
  ++ of_string "&sourceGroup=top10&showNumResults=true&size=18&sortBy=date".

Definition mainstream_API_URL (API_KEY from to : jsstring) : jsstring :=
  of_string "https://api.goperigon.com/v1/headlines?"
  ++ mainstream_query API_KEY from to.

(** The parameters of a query, as a server reads them: the pieces between
    the [&]s. *)
Fixpoint split_amp (s : jsstring) : list jsstring :=
  match s with
  | [] => [[]]
  | c :: s' =>
      if c =? 38 then [] :: split_amp s'
      else match split_amp s' with
           | part :: parts => (c :: part) :: parts
           | [] => [[c]]
           end
  end.

Definition no_amp (s : jsstring) : Prop := Forall (fun c => c <> 38) s.

(** The parameters that a selection is sent as: one per selected value,
    in the order of the selection; an empty selection is sent as one empty
    parameter. *)
Definition sent_parameters (name : jsstring) (selected : list jsstring)
    : list jsstring :=
  match selected with
  | [] => [[]]
  | _ => map (fun x => name ++ x) selected
  end.

End FeedRequests.

(** ** The feed state under both fetches *)

Module NewsFeed.
Import FeedAggregator.

(** [news], [loading] and [error]; [news] is whatever the last successful
    fetch stored, which [fetchFaithNews] does not inspect. *)
Record State := {
  news : jsvalue;
  loading : bool;
  error : option jsstring
}.

Definition initial : State :=
  {| news := Some (JArray []); loading := true; error := None |}.

Definition failed_to_fetch : jsstring := of_string "Failed to fetch news".

(** The [try] block of [fetchFaithNews]: the value given to [setNews]. *)
Definition faith_try (r : fetch_outcome) : completion jsvalue :=
  match r with
  | FetchRejected => Throw NetworkError
  | FetchResponse false status _ => Throw (HttpError status)
  | FetchResponse true _ None => Throw SyntaxError
  | FetchResponse true _ (Some data) => get (Some data) (of_string "articles")
  end.

(** Both fetches begin with [setLoading(true)] ... *)
Definition fetch_started (st : State) : State :=
  {| news := news st; loading := true; error := error st |}.

(** ... and end, when the response is there, in the [try] or the [catch]. *)
Definition faith_completed (st : State) (r : fetch_outcome) : State :=
  match faith_try r with
  | Normal articles =>
      {| news := articles; loading := false; error := error st |}
  | Throw _ =>
      {| news := news st; loading := false; error := Some failed_to_fetch |}
  end.

Definition mainstream_completed (st : State) (r : fetch_outcome) : State :=
  match mainstream_try r with
  | Normal articles =>
      {| news := Some (JArray articles); loading := false; error := error st |}
  | Throw _ =>
      {| news := news st; loading := false; error := Some failed_to_fetch |}
  end.

Definition fetchFaithNews (st : State) (r : fetch_outcome) : State :=
  faith_completed (fetch_started st) r.

(** The state of [fetchMainstreamNews] seen in this one. *)
Definition of_feed (st : FeedState) : State :=
  {| news := Some (JArray (FeedAggregator.news st));
     loading := FeedAggregator.loading st;
     error := FeedAggregator.error st |}.

(** What happens to the feed state, in any order: a fetch starts, the
    response of a faith fetch or of a mainstream fetch arrives. *)
Inductive event :=
  | Started
  | FaithResponse (r : fetch_outcome)
  | MainstreamResponse (r : fetch_outcome).

Definition step (st : State) (e : event) : State :=
  match e with
  | Started => fetch_started st
  | FaithResponse r => faith_completed st r
  | MainstreamResponse r => mainstream_completed st r
  end.

Definition run (st : State) (events : list event) : State :=
  fold_left step events st.

(** A response that ends in the [catch]. *)
Definition fails (e : event) : Prop :=
  match e with
  | Started => False
  | FaithResponse r => exists x, faith_try r = Throw x
  | MainstreamResponse r => exists x, mainstream_try r = Throw x
  end.

(** The two early returns of the component: [if (loading)], [if (error)]. *)
Inductive view :=
  | LoadingView
  | ErrorView (message : jsstring)
  | FeedView (news : jsvalue).

Definition render (st : State) : view :=
  if loading st then LoadingView
  else match error st with
       | Some (c :: message) => ErrorView (c :: message)
       | _ => FeedView (news st)
       end.

End NewsFeed.

(** ** The frames of an answer, read as a whole *)

Module AnswerFrames.
Import StreamingAnswerClient.

(** The [type] of a parsed line that is not [null]: only an object holds
    one. *)
Definition frame_type (parsedLine : value) : jsvalue :=
  match parsedLine with
  | JObject props => assoc (of_string "type") props
  | _ => None
  end.

Definition is_chunk (parsedLine : value) : bool :=
  strict_eq_string (frame_type parsedLine) (of_string "RESPONSE_CHUNK").

Definition is_citation (parsedLine : value) : bool :=
  strict_eq_string (frame_type parsedLine) (of_string "CITATION").

(** The [content] of a frame is a string, or the frame has none. *)
Definition text_content (parsedLine : value) : bool :=
  match parsedLine with
  | JObject props =>
      match assoc (of_string "content") props with
      | Some (JString _) | None => true
      | Some _ => false
      end
  | _ => true
  end.

(** What a [RESPONSE_CHUNK] frame with such a [content] adds to the answer:
    the string, and the text ["undefined"] when there is none. *)
Definition chunk_text (parsedLine : value) : jsstring :=
  match parsedLine with
  | JObject props =>
      match assoc (of_string "content") props with
      | Some (JString s) => s
      | None => of_string "undefined"
      | Some _ => []
      end
  | _ => []
  end.

Definition answer_text (frames : list value) : jsstring :=
  concat (map chunk_text (List.filter is_chunk frames)).

Definition answer_citations (frames : list value) : list value :=
  List.filter is_citation frames.

(** A string without whitespace at either end. *)
Definition no_outer_whitespace (s : jsstring) : bool :=
  match s with
  | [] => true
  | c :: _ => negb (isWhiteSpace c) && negb (isWhiteSpace (List.last s c))
  end.

End AnswerFrames.

(** ** The card of an article: source name and rating *)

Module ArticleCard.
Import SourceMetadataResolver.

(** [sourceInfo.results.find(s => s.domain === domain)] *)
Definition find_source (results : list SourceRecord) (domain_ : jsstring)
    : option SourceRecord :=
  List.find (fun s => bool_decide (domain s = domain_)) results.

(** The rating shown on the card of an article of that domain. *)
Definition card_rating (results : list SourceRecord) (domain_ : jsstring)
    : option jsstring :=
  getBiasRating (find_source results domain_).

(** [article.source.name || article.source.domain || 'Unknown Source'] *)
Definition source_label (article : value) : completion jsvalue :=
  get (Some article) (of_string "source") >>= fun source =>
  get source (of_string "name") >>= fun name =>
  if truthy name then Normal name
  else
    get (Some article) (of_string "source") >>= fun source =>
    get source (of_string "domain") >>= fun domain_ =>
    if truthy domain_ then Normal domain_
    else Normal (Some (JString (of_string "Unknown Source"))).

End ArticleCard.

(** ** A completion response *)

Module CompletionResponse.

(** [{ choices: [ { message: { content } } ] }] *)
Definition completion_response (content : jsstring) : value :=
  JObject [(of_string "choices",
            JArray [JObject [(of_string "message",
                              JObject [(of_string "content", JString content)])]])].

End CompletionResponse.

(** ** Counting the uses of a toggle *)

Module ToggleCount.

(** How many times [x] occurs among the toggled sources or categories. *)
Definition times_toggled (x : jsstring) (toggled : list jsstring) : nat :=
  length (List.filter (fun t => bool_decide (t = x)) toggled).

End ToggleCount.

(** ** Facts about the string primitives *)

Section ReplaceGlobal.
Context {A : Type}.
Variable m : jsstring -> option (A * jsstring).
Variable f : A -> jsstring.

(** A match consumes at least one code unit. *)
Hypothesis m_consumes :
  forall s x rest, m s = Some (x, rest) -> (length rest < length s)%nat.

Lemma replace_fuel_enough (fuel : nat) (s : jsstring) :
  (length s <= fuel)%nat -> replace_fuel fuel m f s = replace_global m f s.
Proof.
  unfold replace_global.
  remember (length s) as n eqn:Hn.
  revert fuel s Hn.
  induction (lt_wf n) as [n _ IH]; intros fuel s Hn Hle.
  destruct s as [|c s'].
  - simpl in Hn. subst n. destruct fuel; reflexivity.
  - simpl in Hn. subst n. destruct fuel as [|fuel']; [lia|].
    simpl. destruct (m (c :: s')) as [[x rest]|] eqn:Hm.
    + apply m_consumes in Hm. simpl in Hm.
      f_equal.
      rewrite (IH (length rest)) by (try reflexivity; lia).
      rewrite (IH (length rest) ltac:(lia) (length s') rest) by (try reflexivity; lia).
      reflexivity.
    + f_equal.
      rewrite (IH (length s')) by (try reflexivity; lia).
      reflexivity.
Qed.

Lemma replace_global_nil : replace_global m f [] = [].
Proof. reflexivity. Qed.

Lemma replace_global_cons (c : char) (s : jsstring) :
  replace_global m f (c :: s) =
  match m (c :: s) with
  | Some (x, rest) => f x ++ replace_global m f rest
  | None => c :: replace_global m f s
  end.
Proof.
  unfold replace_global at 1. simpl.
  destruct (m (c :: s)) as [[x rest]|] eqn:Hm.
  - apply m_consumes in Hm. simpl in Hm.
    rewrite replace_fuel_enough by lia. reflexivity.
  - reflexivity.
Qed.

(** Where the expression matches at no position, the text is unchanged. *)
Lemma replace_global_no_match (s : jsstring) :
  (forall a t, s = a ++ t -> m t = None) -> replace_global m f s = s.
Proof.
  induction s as [|c s IH]; intros Hno; [reflexivity|].
  rewrite replace_global_cons.
  rewrite (Hno [] (c :: s) eq_refl).
  f_equal. apply IH. intros a t ->.
  apply (Hno (c :: a) t). reflexivity.
Qed.

(** A token [tok] that matches wherever it starts, behind a text [a] in
    which every match stays inside [a]: the replacement splits there. *)
Lemma replace_global_split (tok : jsstring) (x0 : A) (b : jsstring) :
  m (tok ++ b) = Some (x0, b) ->
  (forall c a, m (c :: a ++ tok ++ b) =
               match m (c :: a) with
               | Some (x, r) => Some (x, r ++ tok ++ b)
               | None => None
               end) ->
  forall a, replace_global m f (a ++ tok ++ b)
            = replace_global m f a ++ f x0 ++ replace_global m f b.
Proof.
  intros Htok Hlocal a.
  remember (length a) as n eqn:Hn. revert a Hn.
  induction (lt_wf n) as [n _ IH]; intros a Hn.
  destruct a as [|c a].
  - simpl. destruct (tok ++ b) as [|c0 t] eqn:Ht.
    + apply m_consumes in Htok. simpl in Htok. lia.
    + rewrite replace_global_cons, Htok. reflexivity.
  - simpl. rewrite !replace_global_cons, Hlocal.
    destruct (m (c :: a)) as [[x r]|] eqn:Hm.
    + apply m_consumes in Hm. simpl in Hm, Hn.
      rewrite (IH (length r)) by (try reflexivity; lia).
      rewrite <- app_assoc. reflexivity.
    + simpl in Hn. rewrite (IH (length a)) by (try reflexivity; lia).
      reflexivity.
Qed.
End ReplaceGlobal.

Lemma strip_prefix_Some (p s r : jsstring) :
  strip_prefix p s = Some r <-> s = p ++ r.
Proof.
  revert s. induction p as [|a p IH]; intros s; simpl.
  - split; congruence.
  - destruct s as [|c s].
    + split; discriminate.
    + destruct (N.eqb_spec a c) as [->|Hne].
      * rewrite IH. split; congruence.
      * split; [discriminate | congruence].
Qed.

Lemma span_app_stop (p : char -> bool) (a t : jsstring) (c0 : char) :
  p c0 = false ->
  span p (a ++ c0 :: t) = let '(d, r) := span p a in (d, r ++ c0 :: t).
Proof.
  intros Hc. induction a as [|c a IH]; simpl.
  - rewrite Hc. reflexivity.
  - destruct (p c); [|reflexivity].
    rewrite IH. destruct (span p a). reflexivity.
Qed.

Lemma span_all (p : char -> bool) (ds t : jsstring) (c0 : char) :
  Forall (fun c => p c = true) ds -> p c0 = false ->
  span p (ds ++ c0 :: t) = (ds, c0 :: t).
Proof.
  intros Hds Hc. induction Hds as [|c ds Hpc _ IH]; simpl.
  - rewrite Hc. reflexivity.
  - rewrite Hpc, IH. reflexivity.
Qed.

Lemma span_spec (p : char -> bool) (s d r : jsstring) :
  span p s = (d, r) -> s = d ++ r /\ Forall (fun c => p c = true) d.
Proof.
  revert d r. induction s as [|c s IH]; simpl; intros d r H.
  - inversion H. split; [reflexivity | constructor].
  - destruct (p c) eqn:Hp.
    + destruct (span p s) as [d' r'] eqn:Hs. inversion H; subst.
      destruct (IH d' r eq_refl) as [-> Hd].
      split; [reflexivity | constructor; assumption].
    + inversion H. split; [reflexivity | constructor].
Qed.

Example parseInt_examples :
  parseInt (of_string "007") = Finite 7
  /\ parseInt (of_string "9007199254740991") = Finite 9007199254740991
  /\ parseInt (of_string "9007199254740993") = Finite 9007199254740992
  /\ parseInt (of_string "9007199254740995") = Finite 9007199254740996
  /\ parseInt (of_string "18446744073709551615") = Finite 18446744073709551616
  /\ parseInt (of_string "1" ++ replicate 309 48) = Infinity.
Proof. vm_compute. repeat split. Qed.

Example number_to_string_examples :
  number_to_string 0 = of_string "0"
  /\ number_to_string 2026 = of_string "2026"
  /\ number_to_string 9007199254740992 = of_string "9007199254740992"
  /\ number_to_string (2 ^ 60) = of_string "1152921504606847000"
  /\ number_to_string (2 ^ 64) = of_string "18446744073709552000"
  /\ number_to_string (to_double (10 ^ 20)) = of_string "100000000000000000000"
  /\ number_to_string (to_double (10 ^ 21)) = of_string "1e+21"
  /\ number_to_string (2 ^ 70) = of_string "1.1805916207174113e+21"
  /\ number_to_string (to_double (10 ^ 23)) = of_string "1e+23"
  /\ number_to_string (to_double 123456789012345678901234567890)
     = of_string "1.2345678901234568e+29".
Proof. vm_compute. repeat split. Qed.

(** ** CitationFormatter: facts *)

Import CitationFormatter.

Example format_see_1_and_2 :
  formatPerigonResponse (TString (of_string "See [1] and [2]"))
    (CArray [{| sequenceIndex := 1; url := of_string "https://a" |}])
  = Normal (of_string "See " ++ anchor (of_string "https://a") 1
            ++ of_string " and [2]").
Proof. vm_compute. reflexivity. Qed.

Example format_prefix_strip :
  formatPerigonResponse (TString (of_string "perigon response:   Hi")) (CArray [])
  = Normal (of_string "Hi").
Proof. vm_compute. reflexivity. Qed.

Example format_bold :
  formatPerigonResponse (TString (of_string "a **b** c ***d** [07]"))
    (CArray [{| sequenceIndex := 7; url := of_string "u" |}])
  = Normal (of_string "a <strong>b</strong> c <strong>*d</strong> "
            ++ anchor (of_string "u") 7).
Proof. vm_compute. reflexivity. Qed.

(** *** The matchers: what a match looks like *)

Lemma bold_body_sound (s x rest : list N) :
  bold_body s = Some (x, rest) ->
  s = x ++ stars ++ rest /\ Forall (fun c => isLineTerminator c = false) x.
Proof.
  revert x rest. induction s as [|c s IH]; intros x rest.
  - simpl. discriminate.
  - cbn [bold_body].
    destruct (strip_prefix stars (c :: s)) as [r|] eqn:Hp.
    + intros [= <- <-]. apply strip_prefix_Some in Hp.
      split; [exact Hp | constructor].
    + destruct (isLineTerminator c) eqn:Hc; [discriminate|].
      destruct (bold_body s) as [[x' rest']|] eqn:Hb; [|discriminate].
      intros [= <- <-]. destruct (IH x' rest' eq_refl) as [-> Hx].
      split; [reflexivity | constructor; assumption].
Qed.

Lemma bold_body_complete (x b : list N) :
  Forall (fun c => isLineTerminator c = false) x ->
  is_Some (bold_body (x ++ stars ++ b)).
Proof.
  induction 1 as [|c x Hc _ IH].
  - simpl. eauto.
  - change ((c :: x) ++ stars ++ b) with (c :: (x ++ stars ++ b)).
    cbn [bold_body].
    destruct (strip_prefix stars (c :: x ++ stars ++ b)); [eauto|].
    rewrite Hc. destruct IH as [[x' r'] ->]. eauto.
Qed.

Lemma match_bold_sound (s x rest : list N) :
  match_bold s = Some (x, rest) ->
  s = stars ++ x ++ stars ++ rest
  /\ Forall (fun c => isLineTerminator c = false) x.
Proof.
  unfold match_bold.
  destruct (strip_prefix stars s) as [s1|] eqn:Hp; [|discriminate].
  intros Hb. apply strip_prefix_Some in Hp.
  apply bold_body_sound in Hb as [-> Hx]. split; assumption.
Qed.

Lemma match_bold_consumes (s x rest : list N) :
  match_bold s = Some (x, rest) -> (length rest < length s)%nat.
Proof.
  intros H. apply match_bold_sound in H as [-> _].
  rewrite !length_app. simpl. lia.
Qed.

Lemma match_citation_sound (s ds rest : list N) :
  match_citation s = Some (ds, rest) ->
  s = bracket ds ++ rest /\ ds <> []
  /\ Forall (fun c => isDigit c = true) ds.
Proof.
  unfold match_citation. destruct s as [|c s1]; [discriminate|].
  destruct (N.eqb_spec c 91) as [->|]; [|discriminate].
  destruct (span isDigit s1) as [d r] eqn:Hs.
  destruct d as [|d0 d]; [discriminate|].
  destruct r as [|c2 s3]; [discriminate|].
  destruct (N.eqb_spec c2 93) as [->|]; [|discriminate].
  intros [= <- <-]. apply span_spec in Hs as [-> Hd].
  split; [|split]; [|discriminate|assumption].
  unfold bracket. simpl. rewrite <- app_assoc. reflexivity.
Qed.

Lemma match_citation_consumes (s ds rest : list N) :
  match_citation s = Some (ds, rest) -> (length rest < length s)%nat.
Proof.
  intros H. apply match_citation_sound in H as (-> & _ & _).
  unfold bracket. rewrite !length_app. simpl. lia.
Qed.

Lemma match_citation_token (ds b : list N) :
  ds <> [] -> Forall (fun c => isDigit c = true) ds ->
  match_citation (bracket ds ++ b) = Some (ds, b).
Proof.
  intros Hne Hds. unfold bracket, match_citation. simpl.
  rewrite <- app_assoc. simpl.
  rewrite (span_all isDigit ds b 93 Hds eq_refl).
  destruct ds as [|d ds]; [congruence|]. reflexivity.
Qed.

(** A match that starts before a token ends before it. *)
Lemma match_citation_local (c : N) (a ds b : list N) :
  match_citation (c :: a ++ bracket ds ++ b) =
  match match_citation (c :: a) with
  | Some (x, r) => Some (x, r ++ bracket ds ++ b)
  | None => None
  end.
Proof.
  unfold match_citation.
  destruct (c =? 91); [|reflexivity].
  replace (bracket ds ++ b) with (91 :: (ds ++ 93 :: b))
    by (unfold bracket; simpl; rewrite <- app_assoc; reflexivity).
  rewrite (span_app_stop isDigit a (ds ++ 93 :: b) 91 eq_refl).
  destruct (span isDigit a) as [d r].
  destruct d as [|d0 d]; [destruct r; reflexivity|].
  destruct r as [|c2 s3]; simpl; [reflexivity|].
  destruct (c2 =? 93); reflexivity.
Qed.

(** *** The citation map: the last write for an index wins *)

Lemma citationMap_snoc (cs : list Citation) (c : Citation) :
  citationMap (cs ++ [c]) = <[sequenceIndex c := url c]> (citationMap cs).
Proof. unfold citationMap. rewrite fold_left_app. reflexivity. Qed.

Lemma citationMap_miss (cs : list Citation) (n : N) :
  Forall (fun c => sequenceIndex c <> n) cs -> citationMap cs !! n = None.
Proof.
  induction cs as [|c cs IH] using rev_ind; intros Hall.
  - apply lookup_empty.
  - apply Forall_app in Hall as [Hcs Hc]. inversion Hc; subst.
    rewrite citationMap_snoc, lookup_insert_ne by assumption.
    apply IH, Hcs.
Qed.

Lemma citationMap_last (l1 l2 : list Citation) (c : Citation) :
  Forall (fun c' => sequenceIndex c' <> sequenceIndex c) l2 ->
  citationMap (l1 ++ c :: l2) !! sequenceIndex c = Some (url c).
Proof.
  induction l2 as [|c' l2 IH] using rev_ind; intros Hall.
  - rewrite citationMap_snoc. apply lookup_insert_eq.
  - apply Forall_app in Hall as [Hl2 Hc']. inversion Hc'; subst.
    change (l1 ++ c :: l2 ++ [c']) with (l1 ++ (c :: l2) ++ [c']).
    rewrite app_assoc, citationMap_snoc, lookup_insert_ne by assumption.
    apply IH, Hl2.
Qed.

Lemma citationStep_token (cits : list Citation) (a ds b : list N) :
  ds <> [] -> Forall (fun c => isDigit c = true) ds ->
  citationStep cits (a ++ bracket ds ++ b)
  = citationStep cits a ++ citation_replacer (citationMap cits) ds
    ++ citationStep cits b.
Proof.
  intros Hne Hds. unfold citationStep.
  apply replace_global_split.
  - exact match_citation_consumes.
  - apply match_citation_token; assumption.
  - intros c a'. apply match_citation_local.
Qed.

Lemma formatPerigonResponse_steps (c : N) (text : list N) (cits : list Citation) :
  formatPerigonResponse (TString (c :: text)) (CArray cits)
  = Normal (labelStep (citationStep cits (boldStep (c :: text)))).
Proof. reflexivity. Qed.

(** *** Texts without markers, tokens or label *)

Lemma any_suffix_true (p : list N -> bool) (s : list N) :
  any_suffix p s = true <-> exists a t, s = a ++ t /\ p t = true.
Proof.
  induction s as [|c s IH]; simpl.
  - rewrite orb_false_r. split.
    + intros H. exists [], []. split; [reflexivity | exact H].
    + intros (a & t & Heq & H). symmetry in Heq.
      apply app_eq_nil in Heq as [_ ->]. exact H.
  - rewrite orb_true_iff, IH. split.
    + intros [H | (a & t & -> & H)].
      * exists [], (c :: s). split; [reflexivity | exact H].
      * exists (c :: a), t. split; [reflexivity | exact H].
    + intros (a & t & Heq & H). destruct a as [|c' a].
      * left. simpl in Heq. subst t. exact H.
      * right. simpl in Heq. injection Heq as _ ->. eauto.
Qed.

Lemma is_some_true {A} (o : option A) : is_some o = true <-> is_Some o.
Proof.
  destruct o; simpl; split; eauto; try discriminate.
  intros [x Hx]. discriminate.
Qed.

Lemma has_bold_marker_decide (s : list N) :
  has_bold_marker s <-> has_bold_marker_b s = true.
Proof.
  unfold has_bold_marker, has_bold_marker_b. rewrite any_suffix_true. split.
  - intros (a & x & b & -> & Hx). exists a, (stars ++ x ++ stars ++ b).
    split; [reflexivity|]. apply is_some_true.
    unfold match_bold.
    replace (strip_prefix stars (stars ++ x ++ stars ++ b))
      with (Some (x ++ stars ++ b)) by (symmetry; apply strip_prefix_Some; reflexivity).
    apply bold_body_complete, Hx.
  - intros (a & t & -> & Ht). apply is_some_true in Ht as [[x rest] Hm].
    apply match_bold_sound in Hm as [-> Hx]. eauto 6.
Qed.

Lemma has_bracket_token_decide (s : list N) :
  has_bracket_token s <-> has_bracket_token_b s = true.
Proof.
  unfold has_bracket_token, has_bracket_token_b. rewrite any_suffix_true. split.
  - intros (a & ds & b & -> & Hne & Hds). exists a, (bracket ds ++ b).
    split; [reflexivity|]. rewrite match_citation_token by assumption.
    reflexivity.
  - intros (a & t & -> & Ht). apply is_some_true in Ht as [[ds rest] Hm].
    apply match_citation_sound in Hm as (-> & Hne & Hds). eauto 7.
Qed.

Lemma strip_prefix_ci_Some (p s r : list N) :
  strip_prefix_ci p s = Some r
  <-> exists q, s = q ++ r /\ map canonicalize q = map canonicalize p.
Proof.
  revert s. induction p as [|a p IH]; intros s; simpl.
  - split.
    + intros [= ->]. exists []. split; reflexivity.
    + intros (q & -> & Hq). destruct q; [reflexivity | discriminate].
  - destruct s as [|c s].
    + split; [discriminate|]. intros (q & Heq & Hq).
      destruct q; discriminate.
    + destruct (N.eqb_spec (canonicalize a) (canonicalize c)) as [Hac|Hne].
      * rewrite IH. split.
        -- intros (q & -> & Hq). exists (c :: q). simpl.
           split; [reflexivity | congruence].
        -- intros (q & Heq & Hq). destruct q as [|c' q]; [discriminate|].
           simpl in Heq, Hq. injection Heq as <- ->. injection Hq as _ Hq.
           eauto.
      * split; [discriminate|]. intros (q & Heq & Hq).
        destruct q as [|c' q]; [discriminate|].
        simpl in Heq, Hq. injection Heq as <- ->. injection Hq as Hc _.
        congruence.
Qed.

Lemma has_label_decide (s : list N) : has_label s <-> has_label_b s = true.
Proof.
  unfold has_label, has_label_b. rewrite is_some_true. split.
  - intros (p & rest & -> & Hp). exists rest.
    apply strip_prefix_ci_Some. eauto.
  - intros [rest H]. apply strip_prefix_ci_Some in H as (q & -> & Hq). eauto.
Qed.

Lemma dropWhile_length (p : N -> bool) (s : list N) :
  (length (dropWhile p s) <= length s)%nat.
Proof.
  induction s as [|c s IH]; simpl; [lia|].
  destruct (p c); simpl; lia.
Qed.

Lemma labelStep_id_iff (s : list N) : labelStep s = s <-> ~ has_label s.
Proof.
  rewrite has_label_decide. unfold labelStep, has_label_b.
  destruct (strip_prefix_ci label s) as [rest|] eqn:Hs; simpl.
  - split; [|congruence]. intros Heq.
    apply strip_prefix_ci_Some in Hs as (q & -> & Hq).
    apply (f_equal (@length N)) in Heq, Hq.
    rewrite length_app in Heq. rewrite !length_map in Hq.
    pose proof (dropWhile_length isWhiteSpace rest).
    change (length label) with 17%nat in Hq. lia.
  - split; [discriminate | reflexivity].
Qed.

Lemma boldStep_no_marker (s : list N) : ~ has_bold_marker s -> boldStep s = s.
Proof.
  intros Hno. apply replace_global_no_match; [exact match_bold_consumes|].
  intros a t ->. destruct (match_bold t) as [[x rest]|] eqn:Hm; [|reflexivity].
  exfalso. apply Hno. apply match_bold_sound in Hm as [-> Hx].
  exists a, x, rest. split; [reflexivity | exact Hx].
Qed.

Lemma citationStep_no_token (cits : list Citation) (s : list N) :
  ~ has_bracket_token s -> citationStep cits s = s.
Proof.
  intros Hno. apply replace_global_no_match; [exact match_citation_consumes|].
  intros a t ->. destruct (match_citation t) as [[ds rest]|] eqn:Hm; [|reflexivity].
  exfalso. apply Hno. apply match_citation_sound in Hm as (-> & Hne & Hds).
  exists a, ds, rest. split; [reflexivity | split; assumption].
Qed.




(** *** Bracket tokens *)

(** The numbers of the tokens: digits and their value. *)
Lemma fold_uint_digits (d : Decimal.uint) (acc : N) :
  fold_left (fun acc c => acc * 10 + digit_value c) (uint_digits d) acc
  = DecimalPos.Unsigned.of_lu (Decimal.rev d)
    + acc * 10 ^ DecimalPos.Unsigned.usize d.
Proof.
  revert acc.
  induction d; intros acc;
    cbn [uint_digits fold_left DecimalPos.Unsigned.usize];
    [ simpl; lia | .. ];
    rewrite IHd;
    match goal with
    | |- context [Decimal.rev (?D d)] =>
        change (Decimal.rev (D d)) with (Decimal.revapp d (D Decimal.Nil));
        rewrite (DecimalPos.Unsigned.of_lu_revapp d (D Decimal.Nil))
    end;
    cbn [DecimalPos.Unsigned.of_lu DecimalPos.Unsigned.hd DecimalPos.Unsigned.tl];
    unfold digit_value; rewrite N.pow_succ_r'; lia.
Qed.

Lemma decimal_value_uint_digits (d : Decimal.uint) :
  decimal_value (uint_digits d) = N.of_uint d.
Proof.
  unfold decimal_value. rewrite fold_uint_digits.
  unfold N.of_uint. rewrite DecimalPos.Unsigned.of_uint_alt. lia.
Qed.

Lemma number_to_string_exact (n : N) :
  n < 2 ^ 53 -> number_to_string n = digits_of n.
Proof.
  intros H. unfold number_to_string. apply N.ltb_lt in H. rewrite H.
  reflexivity.
Qed.

Lemma decimal_value_digits_of (n : N) : decimal_value (digits_of n) = n.
Proof.
  unfold digits_of. rewrite decimal_value_uint_digits.
  apply DecimalN.Unsigned.of_to.
Qed.

Lemma digits_uint (ds : list N) :
  Forall (fun c => isDigit c = true) ds -> exists u, uint_digits u = ds.
Proof.
  induction 1 as [|c ds Hc _ [u <-]]; [exists Decimal.Nil; reflexivity|].
  unfold isDigit in Hc. apply andb_true_iff in Hc as [H1 H2].
  apply N.leb_le in H1, H2.
  assert (Hc : c = 48 \/ c = 49 \/ c = 50 \/ c = 51 \/ c = 52 \/ c = 53
               \/ c = 54 \/ c = 55 \/ c = 56 \/ c = 57) by lia.
  destruct Hc as [->|[->|[->|[->|[->|[->|[->|[->|[->| ->]]]]]]]]].
  - exists (Decimal.D0 u). reflexivity.
  - exists (Decimal.D1 u). reflexivity.
  - exists (Decimal.D2 u). reflexivity.
  - exists (Decimal.D3 u). reflexivity.
  - exists (Decimal.D4 u). reflexivity.
  - exists (Decimal.D5 u). reflexivity.
  - exists (Decimal.D6 u). reflexivity.
  - exists (Decimal.D7 u). reflexivity.
  - exists (Decimal.D8 u). reflexivity.
  - exists (Decimal.D9 u). reflexivity.
Qed.

Lemma uint_digits_nzhead (u : Decimal.uint) :
  uint_digits (Decimal.nzhead u)
  = dropWhile (fun c => c =? 48) (uint_digits u).
Proof. induction u; simpl; try reflexivity. exact IHu. Qed.

Lemma uint_digits_unorm (u : Decimal.uint) :
  uint_digits (Decimal.unorm u) = without_leading_zeros (uint_digits u).
Proof.
  unfold Decimal.unorm, without_leading_zeros.
  rewrite <- uint_digits_nzhead.
  destruct (Decimal.nzhead u); reflexivity.
Qed.

(** A number below 2^53 prints as its digits without the leading zeros. *)
Lemma number_to_string_decimal_value (ds : list N) :
  Forall (fun c => isDigit c = true) ds -> decimal_value ds < 2 ^ 53 ->
  number_to_string (decimal_value ds) = without_leading_zeros ds.
Proof.
  intros Hds Hsafe. rewrite number_to_string_exact by exact Hsafe.
  destruct (digits_uint ds Hds) as [u <-].
  rewrite decimal_value_uint_digits. unfold digits_of.
  rewrite DecimalN.Unsigned.to_of. apply uint_digits_unorm.
Qed.

Lemma to_double_exact (n : N) : n < 2 ^ 53 -> to_double n = n.
Proof.
  intros H. unfold to_double. apply N.ltb_lt in H. rewrite H. reflexivity.
Qed.

Lemma parseInt_exact (ds : list N) :
  decimal_value ds < 2 ^ 53 -> parseInt ds = Finite (decimal_value ds).
Proof.
  intros H. unfold parseInt. rewrite (to_double_exact _ H).
  assert (Hlt : decimal_value ds < 2 ^ 1024).
  { eapply N.lt_trans; [exact H|]. apply N.pow_lt_mono_r; lia. }
  apply N.ltb_lt in Hlt. rewrite Hlt. reflexivity.
Qed.

Lemma anchor_hyperlink (href : list N) (n : N) :
  anchor href n = hyperlink href (bracket (number_to_string n)).
Proof.
  unfold anchor, hyperlink, bracket.
  change (of_string ">[") with (of_string ">" ++ [91]).
  change (of_string "]</a>") with ([93] ++ of_string "</a>").
  repeat rewrite <- app_assoc. reflexivity.
Qed.

Lemma citationMap_lookup (cits : list Citation) (n : N) :
  citationMap cits !! n = url <$> last_citation cits n.
Proof.
  induction cits as [|c cits IH] using rev_ind; [apply lookup_empty|].
  rewrite citationMap_snoc. unfold last_citation in *.
  rewrite List.filter_app. cbn [List.filter].
  destruct (N.eqb_spec (sequenceIndex c) n) as [<-|Hne].
  - rewrite lookup_insert_eq, last_snoc. reflexivity.
  - rewrite lookup_insert_ne by assumption. rewrite app_nil_r. exact IH.
Qed.

(** The replacer on a run of digits whose number is below 2^53. *)
Lemma citation_replacer_rendered (cits : list Citation) (ds : list N) :
  Forall (fun c => isDigit c = true) ds -> decimal_value ds < 2 ^ 53 ->
  citation_replacer (citationMap cits) ds = rendered_token cits ds.
Proof.
  intros Hds Hsafe. unfold citation_replacer, rendered_token.
  rewrite (parseInt_exact _ Hsafe), citationMap_lookup.
  destruct (last_citation cits (decimal_value ds)) as [c|]; [|reflexivity].
  simpl. destruct (url c) as [|c0 href]; [reflexivity|].
  rewrite anchor_hyperlink, number_to_string_decimal_value by assumption.
  reflexivity.
Qed.

(** A token without [*] in a text cut at a [*]: it lies on one side. *)
Lemma star_splits (tok a b p q : list N) :
  tok <> [] -> Forall (fun c => c <> 42) tok ->
  a ++ tok ++ b = p ++ 42 :: q ->
  (exists b1, p = a ++ tok ++ b1 /\ b = b1 ++ 42 :: q)
  \/ (exists a1, q = a1 ++ tok ++ b /\ a = p ++ 42 :: a1).
Proof.
  intros Hne Htok Heq.
  apply List.app_eq_app in Heq as [l [[-> Hl] | [-> Hl]]].
  - destruct l as [|c l].
    + destruct tok as [|t tok]; [congruence|].
      simpl in Hl. injection Hl as <- _. inversion Htok; congruence.
    + simpl in Hl. injection Hl as <- ->. right. eauto.
  - apply List.app_eq_app in Hl as [l2 [[-> Hl2] | [-> ->]]].
    + destruct l2 as [|c l2].
      * simpl in Hl2. subst b. rewrite app_nil_r. left. exists [].
        rewrite app_nil_r. split; reflexivity.
      * simpl in Hl2. injection Hl2 as <- ->.
        apply Forall_app in Htok as [_ Htok]. inversion Htok; congruence.
    + left. exists l2. split; reflexivity.
Qed.

Lemma match_bold_no_star (c : N) (s : list N) :
  c <> 42 -> match_bold (c :: s) = None.
Proof.
  intros Hc. unfold match_bold, stars. cbn [strip_prefix].
  destruct (N.eqb_spec 42 c); [congruence | reflexivity].
Qed.

Lemma boldStep_star_free (tok b : list N) :
  Forall (fun c => c <> 42) tok -> boldStep (tok ++ b) = tok ++ boldStep b.
Proof.
  induction 1 as [|c tok Hc _ IH]; [reflexivity|].
  unfold boldStep in *. cbn [app].
  rewrite (replace_global_cons _ _ match_bold_consumes).
  rewrite match_bold_no_star by exact Hc.
  rewrite IH. reflexivity.
Qed.

(** A bold marker that is found in a text is found in every longer text,
    and in the shorter text that still holds it. *)
Lemma strip_prefix_app (p s r t : list N) :
  strip_prefix p s = Some r -> strip_prefix p (s ++ t) = Some (r ++ t).
Proof.
  rewrite !strip_prefix_Some. intros ->. rewrite <- app_assoc. reflexivity.
Qed.

Lemma bold_body_app (s x r t : list N) :
  bold_body s = Some (x, r) -> bold_body (s ++ t) = Some (x, r ++ t).
Proof.
  revert x r. induction s as [|c s IH]; intros x r; [discriminate|].
  change ((c :: s) ++ t) with (c :: (s ++ t)). cbn [bold_body].
  destruct (strip_prefix stars (c :: s)) as [rest|] eqn:Hp.
  - intros [= <- <-].
    apply (strip_prefix_app _ _ _ t) in Hp.
    change ((c :: s) ++ t) with (c :: (s ++ t)) in Hp. rewrite Hp.
    reflexivity.
  - destruct (isLineTerminator c); [discriminate|].
    destruct (bold_body s) as [[x' r']|] eqn:Hb; [|discriminate].
    intros [= <- <-].
    assert (Hnone : strip_prefix stars (c :: (s ++ t)) = None).
    { destruct s as [|c2 s]; [discriminate|].
      unfold stars in *. cbn [strip_prefix app] in *.
      destruct (42 =? c); [|reflexivity].
      destruct (42 =? c2); [discriminate | reflexivity]. }
    rewrite Hnone, (IH x' r' eq_refl). reflexivity.
Qed.

Lemma match_bold_app (s x r t : list N) :
  match_bold s = Some (x, r) -> match_bold (s ++ t) = Some (x, r ++ t).
Proof.
  unfold match_bold.
  destruct (strip_prefix stars s) as [s1|] eqn:Hp; [|discriminate].
  intros Hb. rewrite (strip_prefix_app _ _ _ t Hp).
  apply bold_body_app, Hb.
Qed.

Lemma match_bold_restrict (x r t : list N) :
  match_bold (stars ++ x ++ stars ++ r ++ t) = Some (x, r ++ t) ->
  match_bold (stars ++ x ++ stars ++ r) = Some (x, r).
Proof.
  intros Hm. pose proof (match_bold_sound _ _ _ Hm) as [_ Hx].
  destruct (bold_body_complete x r Hx) as [[x' r'] Hb].
  assert (Hs : match_bold (stars ++ x ++ stars ++ r) = Some (x', r')).
  { unfold match_bold.
    replace (strip_prefix stars (stars ++ x ++ stars ++ r))
      with (Some (x ++ stars ++ r))
      by (symmetry; apply strip_prefix_Some; reflexivity).
    exact Hb. }
  pose proof (match_bold_app _ _ _ t Hs) as Hs'.
  replace ((stars ++ x ++ stars ++ r) ++ t)
    with (stars ++ x ++ stars ++ r ++ t) in Hs'
    by (repeat rewrite <- app_assoc; reflexivity).
  rewrite Hm in Hs'. injection Hs' as <- Hr.
  apply app_inv_tail in Hr. subst r'. exact Hs.
Qed.

Lemma match_bold_prefix_None (s t : list N) :
  match_bold (s ++ t) = None -> match_bold s = None.
Proof.
  intros Hn. destruct (match_bold s) as [[x r]|] eqn:Hm; [|reflexivity].
  rewrite (match_bold_app _ _ _ t Hm) in Hn. discriminate.
Qed.

(** The bold step and a token without [*]: either the token lies outside
    every bold marker, and the texts before and behind it are rewritten on
    their own, or it lies in the body of one marker, which opens before it
    and closes behind it. *)
Lemma boldStep_token (tok : list N) :
  tok <> [] -> Forall (fun c => c <> 42) tok ->
  forall a b,
    boldStep (a ++ tok ++ b) = boldStep a ++ tok ++ boldStep b
    \/ exists a1 x1 x2 b2,
         a = a1 ++ stars ++ x1 /\ b = x2 ++ stars ++ b2
         /\ boldStep (a ++ tok ++ b)
            = (boldStep a1 ++ of_string "<strong>" ++ x1) ++ tok
              ++ (x2 ++ of_string "</strong>" ++ boldStep b2).
Proof.
  intros Hne Htok a.
  remember (length a) as n eqn:Hn. revert a Hn.
  induction (lt_wf n) as [n _ IH]; intros a Hn b.
  destruct a as [|c a].
  - left. cbn [app]. apply boldStep_star_free, Htok.
  - unfold boldStep. cbn [app].
    rewrite !(replace_global_cons _ _ match_bold_consumes).
    destruct (match_bold (c :: a ++ tok ++ b)) as [[x rest]|] eqn:Hm.
    + pose proof (match_bold_sound _ _ _ Hm) as [Heq _].
      change (c :: a ++ tok ++ b) with ((c :: a) ++ tok ++ b) in Heq.
      change (stars ++ x ++ stars ++ rest)
        with ([] ++ 42 :: 42 :: x ++ 42 :: 42 :: rest) in Heq.
      apply (star_splits tok _ _ _ _ Hne Htok) in Heq
        as [(b1 & Hb1 & _) | (a1 & Heq & Ha)].
      { destruct tok; [congruence | discriminate]. }
      change (42 :: x ++ 42 :: 42 :: rest)
        with ([] ++ 42 :: x ++ 42 :: 42 :: rest) in Heq.
      symmetry in Heq.
      apply (star_splits tok _ _ _ _ Hne Htok) in Heq
        as [(b1 & Hb1 & _) | (a2 & Heq & Ha1)].
      { destruct a1, tok; try congruence; discriminate. }
      symmetry in Heq.
      apply (star_splits tok _ _ _ _ Hne Htok) in Heq
        as [(b1 & -> & Hb) | (a3 & Heq & Ha2)].
      { right. subst a1. simpl in Ha.
        exists [], a2, b1, rest. split; [exact Ha|]. split; [exact Hb|].
        unfold strong. repeat rewrite <- app_assoc. reflexivity. }
      change (42 :: rest) with ([] ++ 42 :: rest) in Heq. symmetry in Heq.
      apply (star_splits tok _ _ _ _ Hne Htok) in Heq
        as [(b1 & Hb1 & _) | (a4 & -> & Ha3)].
      { destruct a3, tok; try congruence; discriminate. }
      subst a3 a2 a1. simpl in Ha.
      assert (Hma : forall t, match_bold (stars ++ x ++ stars ++ a4 ++ t)
                              = Some (x, a4 ++ t) ->
                              match_bold (c :: a) = Some (x, a4)).
      { intros t Ht. rewrite Ha. apply (match_bold_restrict x a4 t), Ht. }
      assert (Hwhole : match_bold (stars ++ x ++ stars ++ a4 ++ tok ++ b)
                       = Some (x, a4 ++ tok ++ b)).
      { rewrite <- Hm. f_equal.
        change (c :: a ++ tok ++ b) with ((c :: a) ++ tok ++ b).
        rewrite Ha. simpl. repeat rewrite <- app_assoc. reflexivity. }
      rewrite (Hma _ Hwhole).
      destruct (IH (length a4)) with (a := a4) (b := b)
        as [Hrec | (a1 & x1 & x2 & b2 & -> & -> & Hrec)].
      { subst n. apply (f_equal (@length N)) in Ha. simpl in Ha.
        rewrite !length_app in Ha. simpl in Ha. simpl. lia. }
      { reflexivity. }
      * left. unfold boldStep in Hrec. rewrite Hrec.
        rewrite <- app_assoc. reflexivity.
      * right. exists (stars ++ x ++ stars ++ a1), x1, x2, b2.
        split; [rewrite Ha; repeat rewrite <- app_assoc; reflexivity|].
        split; [reflexivity|].
        unfold boldStep in Hrec. rewrite Hrec.
        change (stars ++ x ++ stars ++ a1)
          with (42 :: (42 :: x ++ stars ++ a1)).
        rewrite (replace_global_cons _ _ match_bold_consumes).
        assert (Hm1 : match_bold (42 :: 42 :: x ++ stars ++ a1) = Some (x, a1)).
        { apply (match_bold_restrict x a1 (stars ++ x1 ++ tok ++ x2 ++ stars ++ b2)).
          repeat rewrite <- app_assoc in Hwhole. exact Hwhole. }
        rewrite Hm1. repeat rewrite <- app_assoc. reflexivity.
    + rewrite (match_bold_prefix_None (c :: a) (tok ++ b) Hm).
      destruct (IH (length a)) with (a := a) (b := b)
        as [Hrec | (a1 & x1 & x2 & b2 & -> & -> & Hrec)].
      { subst n. simpl. lia. }
      { reflexivity. }
      * left. unfold boldStep in Hrec. rewrite Hrec. reflexivity.
      * right. exists (c :: a1), x1, x2, b2.
        split; [reflexivity|]. split; [reflexivity|].
        unfold boldStep in Hrec. rewrite Hrec. cbn [app].
        rewrite (replace_global_cons _ _ match_bold_consumes).
        rewrite (match_bold_prefix_None (c :: a1)
                   (stars ++ x1 ++ tok ++ x2 ++ stars ++ b2)).
        { reflexivity. }
        rewrite <- Hm. f_equal. cbn [app].
        repeat rewrite <- app_assoc. reflexivity.
Qed.

Lemma bracket_star_free (ds : list N) :
  Forall (fun c => isDigit c = true) ds ->
  bracket ds <> [] /\ Forall (fun c => c <> 42) (bracket ds).
Proof.
  intros Hds. split; [discriminate|].
  unfold bracket. apply Forall_app. split; [repeat constructor; discriminate|].
  apply Forall_app. split; [|repeat constructor; discriminate].
  eapply Forall_impl; [exact Hds|]. intros c Hc ->. discriminate.
Qed.

(** The label step keeps what starts with a code unit that is neither
    whitespace nor one of the label. *)
Lemma dropWhile_keeps (p : N -> bool) (l r : list N) (t : N) :
  p t = false -> exists l', dropWhile p (l ++ t :: r) = l' ++ t :: r.
Proof.
  intros Ht. induction l as [|c l [l' IH]]; simpl.
  - rewrite Ht. exists []. reflexivity.
  - destruct (p c); [eauto|]. exists (c :: l). reflexivity.
Qed.

Lemma labelStep_keeps (x r : list N) (t : N) :
  isWhiteSpace t = false ->
  ~ In (canonicalize t) (map canonicalize label) ->
  exists pre, labelStep (x ++ t :: r) = pre ++ t :: r.
Proof.
  intros Hws Ht. unfold labelStep.
  destruct (strip_prefix_ci label (x ++ t :: r)) as [rest|] eqn:Hs;
    [|exists x; reflexivity].
  apply strip_prefix_ci_Some in Hs as (q & Heq & Hq).
  apply List.app_eq_app in Heq as [l [[-> Hl] | [-> Hl]]].
  - subst rest. apply dropWhile_keeps, Hws.
  - destruct l as [|c l].
    + simpl in Hl. subst rest. simpl. rewrite Hws. exists []. reflexivity.
    + simpl in Hl. injection Hl as <- _. exfalso. apply Ht.
      rewrite <- Hq, map_app. apply in_or_app. right. left. reflexivity.
Qed.

Lemma rendered_token_head (cits : list Citation) (ds : list N) :
  exists t r, rendered_token cits ds = t :: r
              /\ isWhiteSpace t = false
              /\ ~ In (canonicalize t) (map canonicalize label).
Proof.
  unfold rendered_token.
  destruct (last_citation cits (decimal_value ds)) as [c|].
  - destruct (url c) as [|c0 href].
    + exists 91, (ds ++ [93]). split; [reflexivity|].
      split; [reflexivity|]. vm_compute. intuition discriminate.
    + eexists 60, _. split; [reflexivity|].
      split; [reflexivity|]. vm_compute. intuition discriminate.
  - exists 91, (ds ++ [93]). split; [reflexivity|].
    split; [reflexivity|]. vm_compute. intuition discriminate.
Qed.

(** C3 (as amended): every bracket token [[n]] of the answer text whose
    number [n] is below 2^53 is replaced on its own: it becomes a
    hyperlink, labelled with the number [n] in brackets, to the URL of the
    last citation of the list whose [sequenceIndex] is [n], when that URL
    is not empty, and it stays as it is when that URL is empty and when no
    citation has that index.  The text before it and the text behind it
    are formatted on their own when the token lies outside every bold
    marker; when it lies in the body of a bold marker, the body is
    formatted in its [<strong>] element.  In both cases the token as
    rendered is part of the output, and without a bold marker in the text
    only the label step follows the citation step.  On ["See [1] and [2]"]
    with the one citation 1 to ["https://a"], [[1]] becomes a link and
    [[2]] stays; the label of ["[007]"] is ["[7]"]. *)
Theorem formatPerigonResponse_citation_tokens
    (cits : list Citation) (a ds b : list N) :
  ds <> [] -> Forall (fun c => isDigit c = true) ds ->
  decimal_value ds < 2 ^ 53 ->
  (formatPerigonResponse (TString (a ++ bracket ds ++ b)) (CArray cits)
   = Normal (labelStep (citationStep cits (boldStep a)
                        ++ rendered_token cits ds
                        ++ citationStep cits (boldStep b)))
   \/ exists a1 x1 x2 b2,
        a = a1 ++ stars ++ x1 /\ b = x2 ++ stars ++ b2
        /\ formatPerigonResponse (TString (a ++ bracket ds ++ b)) (CArray cits)
           = Normal (labelStep
               (citationStep cits (boldStep a1 ++ of_string "<strong>" ++ x1)
                ++ rendered_token cits ds
                ++ citationStep cits
                     (x2 ++ of_string "</strong>" ++ boldStep b2))))
  /\ (exists pre post,
        formatPerigonResponse (TString (a ++ bracket ds ++ b)) (CArray cits)
        = Normal (pre ++ rendered_token cits ds ++ post))
  /\ (~ has_bold_marker (a ++ bracket ds ++ b) ->
      formatPerigonResponse (TString (a ++ bracket ds ++ b)) (CArray cits)
      = Normal (labelStep (citationStep cits a ++ rendered_token cits ds
                           ++ citationStep cits b)))
  /\ formatPerigonResponse (TString (of_string "See [1] and [2]"))
       (CArray [{| sequenceIndex := 1; url := of_string "https://a" |}])
     = Normal (of_string "See <a href=" ++ dquote ++ of_string "https://a"
               ++ dquote ++ of_string " target=" ++ dquote
               ++ of_string "_blank" ++ dquote ++ of_string " rel=" ++ dquote
               ++ of_string "noopener noreferrer" ++ dquote
               ++ of_string ">[1]</a> and [2]")
  /\ formatPerigonResponse (TString (of_string "**in [007]**"))
       (CArray [{| sequenceIndex := 7; url := of_string "u" |};
                {| sequenceIndex := 7; url := of_string "v" |}])
     = Normal (of_string "<strong>in <a href=" ++ dquote ++ of_string "v"
               ++ dquote ++ of_string " target=" ++ dquote
               ++ of_string "_blank" ++ dquote ++ of_string " rel=" ++ dquote
               ++ of_string "noopener noreferrer" ++ dquote
               ++ of_string ">[7]</a></strong>").
Proof.
  intros Hne Hds Hsafe.
  assert (Hstep : forall a' b',
             citationStep cits (a' ++ bracket ds ++ b')
             = citationStep cits a' ++ rendered_token cits ds
               ++ citationStep cits b').
  { intros a' b'. rewrite citationStep_token by assumption.
    rewrite citation_replacer_rendered by assumption. reflexivity. }
  assert (Hsteps : formatPerigonResponse (TString (a ++ bracket ds ++ b))
                     (CArray cits)
                   = Normal (labelStep (citationStep cits
                                          (boldStep (a ++ bracket ds ++ b))))).
  { destruct (a ++ bracket ds ++ b) as [|c text] eqn:Htext.
    - destruct a; discriminate.
    - apply formatPerigonResponse_steps. }
  destruct (bracket_star_free ds Hds) as [Hb1 Hb2].
  assert (Hcases :
    formatPerigonResponse (TString (a ++ bracket ds ++ b)) (CArray cits)
    = Normal (labelStep (citationStep cits (boldStep a)
                         ++ rendered_token cits ds
                         ++ citationStep cits (boldStep b)))
    \/ exists a1 x1 x2 b2,
         a = a1 ++ stars ++ x1 /\ b = x2 ++ stars ++ b2
         /\ formatPerigonResponse (TString (a ++ bracket ds ++ b)) (CArray cits)
            = Normal (labelStep
                (citationStep cits (boldStep a1 ++ of_string "<strong>" ++ x1)
                 ++ rendered_token cits ds
                 ++ citationStep cits
                      (x2 ++ of_string "</strong>" ++ boldStep b2)))).
  { destruct (boldStep_token (bracket ds) Hb1 Hb2 a b)
      as [Hbold | (a1 & x1 & x2 & b2 & Ha & Hb & Hbold)].
    - left. rewrite Hsteps, Hbold, Hstep. reflexivity.
    - right. exists a1, x1, x2, b2. split; [exact Ha|]. split; [exact Hb|].
      rewrite Hsteps, Hbold, Hstep. reflexivity. }
  split; [exact Hcases|]. split; [|split; [|split]].
  - destruct (rendered_token_head cits ds) as (t & r & Hr & Hws & Ht).
    destruct Hcases as [Hout | (a1 & x1 & x2 & b2 & _ & _ & Hout)];
      rewrite Hout, Hr.
    + destruct (labelStep_keeps (citationStep cits (boldStep a))
                  (r ++ citationStep cits (boldStep b)) t Hws Ht)
        as [pre Hpre].
      exists pre, (citationStep cits (boldStep b)).
      simpl. simpl in Hpre. rewrite Hpre. reflexivity.
    + destruct (labelStep_keeps
                  (citationStep cits (boldStep a1 ++ of_string "<strong>" ++ x1))
                  (r ++ citationStep cits
                          (x2 ++ of_string "</strong>" ++ boldStep b2))
                  t Hws Ht) as [pre Hpre].
      exists pre, (citationStep cits
                     (x2 ++ of_string "</strong>" ++ boldStep b2)).
      simpl. simpl in Hpre. rewrite Hpre. reflexivity.
  - intros Hb. rewrite Hsteps, boldStep_no_marker, Hstep by assumption.
    reflexivity.
  - vm_compute. reflexivity.
  - vm_compute. reflexivity.
Qed.

Lemma formatPerigonResponse_citation_tokens_witness :
  formatPerigonResponse (TString (of_string "See [1] and [2]"))
    (CArray [{| sequenceIndex := 1; url := of_string "https://a" |}])
  = Normal (labelStep
      (citationStep [{| sequenceIndex := 1; url := of_string "https://a" |}]
         (of_string "See ")
       ++ rendered_token [{| sequenceIndex := 1; url := of_string "https://a" |}]
            (of_string "1")
       ++ citationStep [{| sequenceIndex := 1; url := of_string "https://a" |}]
            (of_string " and [2]"))).
Proof.
  refine (proj1 (proj2 (proj2 (formatPerigonResponse_citation_tokens
    [{| sequenceIndex := 1; url := of_string "https://a" |}]
    (of_string "See ") (of_string "1") (of_string " and [2]") _ _ _))) _).
  - discriminate.
  - repeat constructor.
  - vm_compute. reflexivity.
  - rewrite has_bold_marker_decide. vm_compute. discriminate.
Defined.

(** C3 (as stated) fails in two ways.  Where the citation that wins the
    lookup has an empty URL, the token is left as text although a citation
    has its index, also when an earlier citation of the same index has a
    URL.  And a number from 2^53 on is rounded to a double before the
    lookup: the token [[9007199254740993]] becomes a link to the citation
    of index 9007199254740992, labelled with that other number, although
    no citation has the index of the token. *)
Lemma formatPerigonResponse_empty_url_counterexample :
  formatPerigonResponse (TString (of_string "[1]"))
    (CArray [{| sequenceIndex := 1; url := [] |}])
  = Normal (of_string "[1]")
  /\ formatPerigonResponse (TString (of_string "[1]"))
       (CArray [{| sequenceIndex := 1; url := of_string "https://a" |};
                {| sequenceIndex := 1; url := [] |}])
     = Normal (of_string "[1]")
  /\ formatPerigonResponse (TString (of_string "[9007199254740993]"))
       (CArray [{| sequenceIndex := 9007199254740992;
                   url := of_string "https://a" |}])
     = Normal (of_string "<a href=" ++ dquote ++ of_string "https://a"
               ++ dquote ++ of_string " target=" ++ dquote
               ++ of_string "_blank" ++ dquote ++ of_string " rel=" ++ dquote
               ++ of_string "noopener noreferrer" ++ dquote
               ++ of_string ">[9007199254740992]</a>")
  /\ last_citation [{| sequenceIndex := 9007199254740992;
                       url := of_string "https://a" |}]
       (decimal_value (of_string "9007199254740993")) = None.
Proof. vm_compute. repeat split. Qed.

(** C10: on an absent or empty answer text ([undefined], [null] or the empty
    string) the formatter returns the empty string, whatever the citations
    argument is, also when it is not an array and any use of it would
    throw. *)
Theorem formatPerigonResponse_absent (citations : JsCitations) :
  formatPerigonResponse TUndefined citations = Normal []
  /\ formatPerigonResponse TNull citations = Normal []
  /\ formatPerigonResponse (TString []) citations = Normal [].
Proof. repeat split. Qed.

(** ** SourceMetadataResolver: facts *)

Import SourceMetadataResolver.

(** C9: on a record whose populated rating fields hold a rating name (a
    non-empty string, as the five names of the scale are), [getBiasRating]
    returns the first populated field in the order mbfc, allSides,
    adFontes, and [null] when none is populated or there is no record; with
    the first and the second field populated it returns the first. *)
Theorem getBiasRating_first_present (s : SourceRecord) :
  Forall (fun field => field <> Some []) (provider_fields s) ->
  getBiasRating (Some s) = head (omap id (provider_fields s))
  /\ (provider_fields s = [None; None; None] -> getBiasRating (Some s) = None)
  /\ (forall primary secondary,
        mbfcBiasRating s = Some primary ->
        allSidesBiasRating s = Some secondary ->
        getBiasRating (Some s) = Some primary)
  /\ getBiasRating None = None.
Proof.
  destruct s as [d m a f]. unfold provider_fields, getBiasRating. simpl.
  intros Hall.
  apply Forall_cons in Hall as [Hm Hall].
  apply Forall_cons in Hall as [Ha Hall].
  apply Forall_cons in Hall as [Hf _].
  split; [|split; [|split]].
  - destruct m as [[|? ?]|], a as [[|? ?]|], f as [[|? ?]|];
      try congruence; reflexivity.
  - intros [= -> -> ->]. reflexivity.
  - intros primary secondary -> ->.
    destruct primary; [congruence | reflexivity].
  - reflexivity.
Qed.

Lemma getBiasRating_first_present_witness :
  getBiasRating
    (Some {| domain := of_string "cbn.com";
             mbfcBiasRating := Some (rating_name LeanRight);
             allSidesBiasRating := Some (rating_name Right);
             adFontesBiasRating := None |})
  = Some (rating_name LeanRight).
Proof.
  refine (proj1 (proj2 (proj2 (getBiasRating_first_present
    {| domain := of_string "cbn.com";
       mbfcBiasRating := Some (rating_name LeanRight);
       allSidesBiasRating := Some (rating_name Right);
       adFontesBiasRating := None |} _))) _ _ eq_refl eq_refl).
  repeat constructor; discriminate.
Defined.

(** ** FeedAggregator: facts *)

Import FeedAggregator.

Lemma mapM_first_hits (cs : list value) (hitss : list (list value)) :
  Forall2 cluster_with_hits cs hitss ->
  mapM (fun cluster =>
          get (Some cluster) (of_string "hits") >>= fun hits => index0 hits) cs
  = Normal (map head hitss).
Proof.
  induction 1 as [|cluster hits cs hitss (_ & Hget & _) _ IH]; [reflexivity|].
  cbn [mapM]. rewrite Hget, IH. reflexivity.
Qed.

Lemma filter_truthy_first_hits (hitss : list (list value)) :
  Forall (Forall is_object) hitss ->
  filter_truthy (map head hitss) = omap head hitss.
Proof.
  induction 1 as [|hits hitss Hobj _ IH]; [reflexivity|].
  destruct hits as [|h hits]; simpl; [exact IH|].
  inversion Hobj as [|? ? Hh _]; subst.
  destruct h; try contradiction. simpl. rewrite IH. reflexivity.
Qed.

Lemma normalize_clusters_well_formed
    (props : list (jsstring * value)) (cs : list value)
    (hitss : list (list value)) :
  assoc (of_string "clusters") props = Some (JArray cs) ->
  Forall2 cluster_with_hits cs hitss ->
  normalize_clusters (JObject props) = Normal (take 18 (omap head hitss)).
Proof.
  intros Hc Hcs. unfold normalize_clusters.
  change (get (Some (JObject props)) (of_string "clusters"))
    with (Normal (assoc (of_string "clusters") props)).
  rewrite Hc. unfold bind at 1. cbn [truthy isArray andb].
  rewrite (mapM_first_hits cs hitss Hcs). unfold bind at 1.
  rewrite filter_truthy_first_hits; [reflexivity|].
  clear Hc. induction Hcs as [|? ? ? ? (_ & _ & Ho) _ IH]; constructor; assumption.
Qed.

Lemma normalize_clusters_at_most_18 (data : value) (articles : list value) :
  normalize_clusters data = Normal articles -> (length articles <= 18)%nat.
Proof.
  unfold normalize_clusters.
  destruct (get (Some data) (of_string "clusters")) as [clusters|e];
    [|discriminate].
  cbn [bind].
  destruct (truthy clusters && isArray clusters);
    [|intros [= <-]; simpl; lia].
  destruct clusters as [[| | | |cs|]|]; try (intros [= <-]; simpl; lia).
  destruct (mapM _ cs) as [firsts|e]; [|discriminate].
  cbn [bind]. intros [= <-]. rewrite length_take. lia.
Qed.

(** C2: on a response whose [clusters] is an array of clusters, each an
    object with an array [hits] of article objects, the mainstream fetch
    sets the news to the first hit of every cluster that has one, in
    cluster order, cut to the first 18; no error is set.  So the news has
    at most 18 articles, and exactly 18 when there are 25 candidates;
    clusters [[{hits:[A,B]}, {hits:[]}, {hits:[C]}]] give [[A, C]].
    Whatever the response, the list given to [setNews] has at most 18
    articles. *)
Theorem fetchMainstreamNews_first_hits
    (st : FeedState) (status : N) (props : list (list N * value))
    (cs : list value) (hitss : list (list value)) :
  assoc (of_string "clusters") props = Some (JArray cs) ->
  Forall2 cluster_with_hits cs hitss ->
  let st' := fetchMainstreamNews st
               (FetchResponse true status (Some (JObject props))) in
  news st' = take 18 (omap head hitss)
  /\ length (news st') = Nat.min 18 (length (omap head hitss))
  /\ (length (omap head hitss) = 25%nat -> length (news st') = 18%nat)
  /\ error st' = error st
  /\ loading st' = false
  /\ (forall a b c : list (list N * value),
       news (fetchMainstreamNews st
               (FetchResponse true status
                  (Some (clusters_response
                           [cluster_of [JObject a; JObject b];
                            cluster_of [];
                            cluster_of [JObject c]]))))
       = [JObject a; JObject c])
  /\ (forall data articles,
       normalize_clusters data = Normal articles ->
       (length articles <= 18)%nat).
Proof.
  intros Hc Hcs st'.
  assert (Hst : st' = {| news := take 18 (omap head hitss); loading := false;
                         error := error st |}).
  { subst st'. unfold fetchMainstreamNews, mainstream_try.
    rewrite (normalize_clusters_well_formed props cs hitss Hc Hcs).
    reflexivity. }
  rewrite Hst. cbn [news error loading].
  split; [reflexivity|]. split; [apply length_take|].
  split; [rewrite length_take; lia|].
  split; [reflexivity|]. split; [reflexivity|].
  split; [intros a b c; reflexivity|].
  exact normalize_clusters_at_most_18.
Qed.

Lemma fetchMainstreamNews_first_hits_witness :
  news (fetchMainstreamNews initial_feed
          (FetchResponse true 200
             (Some (clusters_response
                      [cluster_of [JObject []; JObject []];
                       cluster_of [];
                       cluster_of [JObject [(of_string "title", JNull)]]]))))
  = take 18 (omap head [[JObject []; JObject []]; [];
                        [JObject [(of_string "title", JNull)]]]).
Proof.
  refine (proj1 (fetchMainstreamNews_first_hits initial_feed 200
    [(of_string "clusters",
      JArray [cluster_of [JObject []; JObject []];
              cluster_of [];
              cluster_of [JObject [(of_string "title", JNull)]]])]
    _ [[JObject []; JObject []]; []; [JObject [(of_string "title", JNull)]]]
    eq_refl _)).
  repeat constructor.
Defined.

(** C8 (as amended): when the decoded response is not [null] and its
    [clusters] property is not an array (absent, or any other value), the
    mainstream fetch sets the news to the empty list and sets no error. *)
Theorem fetchMainstreamNews_no_cluster_array
    (st : FeedState) (status : N) (data : value) :
  data <> JNull ->
  (forall cs, get (Some data) (of_string "clusters") <> Normal (Some (JArray cs))) ->
  fetchMainstreamNews st (FetchResponse true status (Some data))
  = {| news := []; loading := false; error := error st |}.
Proof.
  intros Hnull Hno.
  assert (Hn : normalize_clusters data = Normal []).
  { unfold normalize_clusters.
    destruct data as [| b | lit | s | elems | props]; try reflexivity;
      [congruence|].
    change (get (Some (JObject props)) (of_string "clusters"))
      with (Normal (assoc (of_string "clusters") props)) in *.
    destruct (assoc (of_string "clusters") props) as [v|]; [|reflexivity].
    unfold bind.
    destruct v; try reflexivity;
      try (destruct (truthy _ && isArray _); reflexivity).
    exfalso. eapply Hno. reflexivity. }
  unfold fetchMainstreamNews, mainstream_try. rewrite Hn. reflexivity.
Qed.

Lemma fetchMainstreamNews_no_cluster_array_witness :
  fetchMainstreamNews initial_feed
    (FetchResponse true 200
       (Some (JObject [(of_string "status", JNumber (of_string "200"));
                       (of_string "clusters", JString (of_string "none"))])))
  = {| news := []; loading := false; error := None |}.
Proof.
  apply (fetchMainstreamNews_no_cluster_array initial_feed 200).
  - discriminate.
  - intros cs. vm_compute. discriminate.
Defined.

(** C8 (as stated) fails on a cluster list that is an array with a
    malformed cluster, and on a [null] body: the property read throws
    inside the [try], and the [catch] sets the feed-level error. *)
Lemma fetchMainstreamNews_malformed_counterexample :
  fetchMainstreamNews initial_feed
    (FetchResponse true 200 (Some (clusters_response [JObject []])))
  = {| news := []; loading := false;
       error := Some (of_string "Failed to fetch news") |}
  /\ fetchMainstreamNews initial_feed (FetchResponse true 200 (Some JNull))
     = {| news := []; loading := false;
          error := Some (of_string "Failed to fetch news") |}.
Proof. split; vm_compute; reflexivity. Qed.

(** ** FeedQueryBuilder: facts *)

Import FeedQueryBuilder.

Example format_date_examples :
  format_yyyy_MM_dd 0 = of_string "1970-01-01"
  /\ format_yyyy_MM_dd 19782 = of_string "2024-02-29"
  /\ format_yyyy_MM_dd (subDays 19783 1) = of_string "2024-02-29"
  /\ format_yyyy_MM_dd (-1) = of_string "1969-12-31"
  /\ fetchFaithNews_window 20759 0 = (of_string "2026-11-01", of_string "2026-11-02").
Proof. vm_compute. repeat split. Qed.

Section Calendar.
Local Open Scope Z_scope.

Lemma all_from_spec (fuel : nat) (z : Z) (p : Z -> bool) :
  all_from fuel z p = true ->
  forall k, z <= k < z + Z.of_nat fuel -> p k = true.
Proof.
  revert z. induction fuel as [|fuel IH]; intros z H k Hk; [lia|].
  cbn [all_from] in H. apply andb_true_iff in H as [Hz Hrest].
  destruct (Z.eq_dec k z) as [->|Hne]; [exact Hz|].
  apply (IH (z + 1) Hrest). lia.
Qed.

Lemma era_checked : all_from (Z.to_nat 146097) 0 doe_ok = true.
Proof. vm_compute. reflexivity. Qed.

Lemma doe_ok_all (doe : Z) : 0 <= doe < 146097 -> doe_ok doe = true.
Proof.
  intros H. apply (all_from_spec _ _ _ era_checked).
  rewrite Z2Nat.id; lia.
Qed.

(** The parts of a date are in range, and [days_from_civil] inverts
    [civil_from_days]. *)
Lemma civil_from_days_spec (date : Z) :
  let '(y, m, d) := civil_from_days date in
  1 <= m <= 12 /\ 1 <= d <= 31 /\ days_from_civil y m d = date.
Proof.
  unfold civil_from_days.
  pose proof (Z.mod_pos_bound (date + 719468) 146097 ltac:(lia)) as Hdoe.
  pose proof (doe_ok_all _ Hdoe) as Hok. unfold doe_ok in Hok.
  destruct (civil_of_doe ((date + 719468) mod 146097)) as [[yoe m] d].
  repeat (apply andb_true_iff in Hok as [Hok ?]).
  repeat match goal with
         | H : (_ <=? _) = true |- _ => apply Z.leb_le in H
         | H : (_ <? _) = true |- _ => apply Z.ltb_lt in H
         | H : (_ =? _) = true |- _ => apply Z.eqb_eq in H
         end.
  split; [lia|]. split; [lia|].
  unfold days_from_civil.
  set (era := (date + 719468) / 146097) in *.
  assert (Hy : (if m <=? 2
                then (if m <=? 2 then yoe + era * 400 + 1 else yoe + era * 400) - 1
                else (if m <=? 2 then yoe + era * 400 + 1 else yoe + era * 400))
               = yoe + era * 400) by (destruct (m <=? 2); lia).
  rewrite Hy.
  assert (He : (yoe + era * 400) / 400 = era).
  { rewrite Z.div_add by lia. rewrite Z.div_small by lia. lia. }
  rewrite He.
  replace (yoe + era * 400 - era * 400) with yoe by lia.
  match goal with H : doe_of_civil _ _ _ = _ |- _ => rewrite H end.
  pose proof (Z.div_mod (date + 719468) 146097 ltac:(lia)). subst era. lia.
Qed.

Lemma days_from_civil_day (y m d : Z) :
  days_from_civil y m d = days_from_civil y m 1 + d - 1.
Proof. unfold days_from_civil, doe_of_civil. lia. Qed.

Lemma setDate_spec (date dt : Z) : setDate date dt = date - getDate date + dt.
Proof.
  unfold setDate, getFullYear, getMonth, getDate.
  pose proof (civil_from_days_spec date) as H.
  destruct (civil_from_days date) as [[y m] d]. cbn [fst snd].
  destruct H as (_ & _ & H).
  replace (m - 1 + 1) with m by lia.
  rewrite days_from_civil_day in H. lia.
Qed.

Lemma addDays_spec (date amount : Z) : addDays date amount = date + amount.
Proof.
  unfold addDays. destruct (Z.eqb_spec amount 0) as [->|_]; [lia|].
  rewrite setDate_spec. lia.
Qed.

Lemma subDays_spec (date amount : Z) : subDays date amount = date - amount.
Proof. unfold subDays. rewrite addDays_spec. lia. Qed.

End Calendar.

Section DateFormat.
Local Open Scope Z_scope.

Lemma year_digits_checked :
  all_from (Z.to_nat 10000) 0
    (fun n => digits_of_length 4 (addLeadingZeros n 4)) = true.
Proof. vm_compute. reflexivity. Qed.

Lemma field_digits_checked :
  all_from (Z.to_nat 32) 0
    (fun n => digits_of_length 2 (addLeadingZeros n 2)) = true.
Proof. vm_compute. reflexivity. Qed.

Lemma is_YYYY_MM_DD_parts (y m d : list N) :
  digits_of_length 4 y = true -> digits_of_length 2 m = true ->
  digits_of_length 2 d = true ->
  is_YYYY_MM_DD (y ++ [45%N] ++ m ++ [45%N] ++ d) = true.
Proof.
  unfold digits_of_length. intros Hy Hm Hd.
  apply andb_true_iff in Hy as [Ly Hy].
  apply andb_true_iff in Hm as [Lm Hm].
  apply andb_true_iff in Hd as [Ld Hd].
  apply Nat.eqb_eq in Ly, Lm, Ld.
  destruct y as [|y1 [|y2 [|y3 [|y4 [|]]]]]; try discriminate.
  destruct m as [|m1 [|m2 [|]]]; try discriminate.
  destruct d as [|d1 [|d2 [|]]]; try discriminate.
  cbn [forallb] in *. cbn [app is_YYYY_MM_DD forallb].
  repeat match goal with
         | H : _ && _ = true |- _ => apply andb_true_iff in H as [? ?]
         end.
  repeat match goal with
         | H : isDigit _ = true |- _ => rewrite H; clear H
         end.
  reflexivity.
Qed.

Lemma format_yyyy_MM_dd_shape (date : Z) :
  1 <= getFullYear date <= 9999 ->
  is_YYYY_MM_DD (format_yyyy_MM_dd date) = true.
Proof.
  intros Hy. unfold format_yyyy_MM_dd.
  pose proof (civil_from_days_spec date) as H.
  unfold getFullYear, getMonth, getDate in *.
  destruct (civil_from_days date) as [[y m] d]. cbn [fst snd] in *.
  destruct H as (Hm & Hd & _).
  replace (m - 1 + 1) with m by lia.
  destruct (Z.gtb_spec y 0) as [_|]; [|lia].
  apply is_YYYY_MM_DD_parts.
  - apply (all_from_spec _ _ _ year_digits_checked). rewrite Z2Nat.id; lia.
  - apply (all_from_spec _ _ _ field_digits_checked). rewrite Z2Nat.id; lia.
  - apply (all_from_spec _ _ _ field_digits_checked). rewrite Z2Nat.id; lia.
Qed.

(** *** The calendar: the day after a day *)

Lemma days_checked : all_from (Z.to_nat 146097) (-719468) day_ok = true.
Proof. vm_compute. reflexivity. Qed.

Lemma civil_from_days_era (date k : Z) :
  civil_from_days (date + 146097 * k)
  = let '(y, m, d) := civil_from_days date in (y + 400 * k, m, d).
Proof.
  unfold civil_from_days.
  replace (date + 146097 * k + 719468) with (date + 719468 + k * 146097) by lia.
  rewrite Z.div_add, Z.mod_add by lia.
  destruct (civil_of_doe ((date + 719468) mod 146097)) as [[yoe m] d].
  destruct (m <=? 2); f_equal; f_equal; lia.
Qed.

Lemma isLeapYear_era (y k : Z) : isLeapYear (y + 400 * k) = isLeapYear y.
Proof.
  unfold isLeapYear.
  replace ((y + 400 * k) mod 4) with (y mod 4).
  2: { replace (y + 400 * k) with (y + (100 * k) * 4) by lia.
       symmetry. apply Z.mod_add. lia. }
  replace ((y + 400 * k) mod 100) with (y mod 100).
  2: { replace (y + 400 * k) with (y + (4 * k) * 100) by lia.
       symmetry. apply Z.mod_add. lia. }
  replace ((y + 400 * k) mod 400) with (y mod 400).
  2: { replace (y + 400 * k) with (y + k * 400) by lia.
       symmetry. apply Z.mod_add. lia. }
  reflexivity.
Qed.

Lemma next_day_era (y m d k : Z) :
  next_day (y + 400 * k, m, d)
  = let '(y', m', d') := next_day (y, m, d) in (y' + 400 * k, m', d').
Proof.
  unfold next_day, daysInMonth. rewrite isLeapYear_era.
  destruct (d <? _); [reflexivity|].
  destruct (m <? 12); [reflexivity|]. f_equal. f_equal. lia.
Qed.

Lemma same_date_eq (x y : Z * Z * Z) : same_date x y = true -> x = y.
Proof.
  destruct x as [[y1 m1] d1], y as [[y2 m2] d2]. unfold same_date.
  rewrite !andb_true_iff, !Z.eqb_eq. intros [[-> ->] ->]. reflexivity.
Qed.

Lemma day_ok_all (date : Z) : day_ok date = true.
Proof.
  pose proof (Z.div_mod (date + 719468) 146097 ltac:(lia)) as Hdm.
  pose proof (Z.mod_pos_bound (date + 719468) 146097 ltac:(lia)) as Hr.
  set (k := (date + 719468) / 146097) in *.
  set (date0 := (date + 719468) mod 146097 - 719468).
  assert (Hd : date = date0 + 146097 * k) by (subst date0; lia).
  assert (H0 : day_ok date0 = true).
  { apply (all_from_spec _ _ _ days_checked).
    rewrite Z2Nat.id by lia. subst date0. lia. }
  unfold day_ok in *. apply andb_true_iff in H0 as [Hv Hn].
  apply same_date_eq in Hn. rewrite Hd.
  replace (date0 + 146097 * k + 1) with (date0 + 1 + 146097 * k) by lia.
  rewrite !civil_from_days_era, Hn.
  destruct (civil_from_days date0) as [[y m] d].
  rewrite next_day_era. destruct (next_day (y, m, d)) as [[y' m'] d'].
  apply andb_true_iff. split.
  - unfold valid_date, daysInMonth in *. rewrite isLeapYear_era. exact Hv.
  - unfold same_date. rewrite !Z.eqb_refl. reflexivity.
Qed.

Lemma civil_from_days_next (date : Z) :
  civil_from_days (date + 1) = next_day (civil_from_days date).
Proof.
  pose proof (day_ok_all date) as H. unfold day_ok in H.
  apply andb_true_iff in H as [_ H]. apply same_date_eq, H.
Qed.

Lemma civil_from_days_valid (date : Z) : valid_date (civil_from_days date) = true.
Proof.
  pose proof (day_ok_all date) as H. unfold day_ok in H.
  apply andb_true_iff in H as [H _]. exact H.
Qed.

Lemma civil_from_days_iter (date : Z) (n : nat) :
  Nat.iter n next_day (civil_from_days date) = civil_from_days (date + Z.of_nat n).
Proof.
  induction n as [|n IH].
  - simpl. f_equal. lia.
  - change (Nat.iter (S n) next_day (civil_from_days date))
      with (next_day (Nat.iter n next_day (civil_from_days date))).
    rewrite IH, <- civil_from_days_next. f_equal. lia.
Qed.

Lemma getFullYear_next (date : Z) :
  getFullYear date <= getFullYear (date + 1) <= getFullYear date + 1.
Proof.
  unfold getFullYear. rewrite civil_from_days_next.
  destruct (civil_from_days date) as [[y m] d]. unfold next_day.
  destruct (d <? _); [simpl; lia|]. destruct (m <? 12); simpl; lia.
Qed.

(** *** The printed fields read back *)

Lemma uint_digits_isDigit (u : Decimal.uint) :
  Forall (fun c => isDigit c = true) (uint_digits u).
Proof. induction u; simpl; constructor; try reflexivity; assumption. Qed.

Lemma decimal_value_zeros (k : nat) (s : list N) :
  decimal_value (replicate k 48%N ++ s) = decimal_value s.
Proof.
  unfold decimal_value. rewrite fold_left_app. f_equal.
  induction k as [|k IH]; [reflexivity | exact IH].
Qed.

Lemma addLeadingZeros_year (y : Z) :
  1 <= y < 2 ^ 53 ->
  Forall (fun c => isDigit c = true) (addLeadingZeros y 4)
  /\ (4 <= length (addLeadingZeros y 4))%nat
  /\ Z.of_N (decimal_value (addLeadingZeros y 4)) = y.
Proof.
  intros Hy. unfold addLeadingZeros.
  destruct (Z.ltb_spec y 0) as [|_]; [lia|]. cbn [app].
  rewrite number_to_string_exact by lia.
  split; [|split].
  - apply Forall_app. split; [|apply uint_digits_isDigit].
    apply Forall_replicate. reflexivity.
  - rewrite length_app, length_replicate. lia.
  - rewrite decimal_value_zeros, decimal_value_digits_of. lia.
Qed.

Lemma fields_checked : all_from (Z.to_nat 32) 0 field_ok = true.
Proof. vm_compute. reflexivity. Qed.

(** The years of the days that a [Date] holds are far below 2^53. *)
Lemma getFullYear_bound (date : Z) :
  date <= 100000000 -> getFullYear date < 2 ^ 53.
Proof.
  intros Hdate. unfold getFullYear.
  pose proof (civil_from_days_spec date) as H.
  destruct (civil_from_days date) as [[y m] d]. cbn [fst snd].
  destruct H as (Hm & Hd & H).
  unfold days_from_civil, doe_of_civil in H.
  change (2 ^ 53) with 9007199254740992.
  destruct (m <=? 2); destruct (m >? 2);
    Z.to_euclidean_division_equations; lia.
Qed.

(** From year 1 on, the printed date reads back as the date of the day. *)
Lemma read_date_format (date : Z) :
  date <= 100000000 -> 1 <= getFullYear date ->
  read_date (format_yyyy_MM_dd date) = Some (civil_from_days date).
Proof.
  intros Hdate Hy. pose proof (getFullYear_bound date Hdate) as Hy2.
  unfold format_yyyy_MM_dd.
  pose proof (civil_from_days_spec date) as H.
  unfold getFullYear, getMonth, getDate in *.
  destruct (civil_from_days date) as [[y m] d]. cbn [fst snd] in *.
  destruct H as (Hm & Hd & _).
  replace (m - 1 + 1) with m by lia.
  destruct (Z.gtb_spec y 0) as [_|]; [|lia].
  destruct (addLeadingZeros_year y (conj Hy Hy2)) as (Hdig & Hlen & Hval).
  assert (Hfm : field_ok m = true).
  { apply (all_from_spec _ _ _ fields_checked). rewrite Z2Nat.id; lia. }
  assert (Hfd : field_ok d = true).
  { apply (all_from_spec _ _ _ fields_checked). rewrite Z2Nat.id; lia. }
  unfold field_ok in Hfm, Hfd.
  destruct (addLeadingZeros m 2) as [|m1 [|m2 [|]]]; try discriminate.
  destruct (addLeadingZeros d 2) as [|d1 [|d2 [|]]]; try discriminate.
  apply andb_true_iff in Hfm as [Hfm Hmv].
  apply andb_true_iff in Hfm as [Hm1 Hm2].
  apply andb_true_iff in Hfd as [Hfd Hdv].
  apply andb_true_iff in Hfd as [Hd1 Hd2].
  apply Z.eqb_eq in Hmv, Hdv.
  unfold read_date. cbn [app].
  rewrite (span_all isDigit (addLeadingZeros y 4) _ 45%N Hdig eq_refl).
  apply Nat.leb_le in Hlen. rewrite Hlen.
  cbn [forallb]. rewrite Hm1, Hm2, Hd1, Hd2. cbn [andb N.eqb Pos.eqb].
  rewrite Hval, Hmv, Hdv. reflexivity.
Qed.




End DateFormat.

(** ** [JSON.parse]: examples *)

Import JsonParse.

Example truthy_numbers :
  map (fun literal => truthy (Some (JNumber (of_string literal))))
      ["0"; "-0"; "0.000"; "0e5"; "1"; "-2.5e3"; "0.001"; "1e-400"; "5e-324";
       "2e-324"; "1E+2"]%string
  = [false; false; false; false; true; true; true; false; true; false; true].
Proof. vm_compute. reflexivity. Qed.

Example JSON_parse_frame :
  JSON_parse (of_string "{" ++ dquote ++ of_string "type" ++ dquote
              ++ of_string ": " ++ dquote ++ of_string "CITATION" ++ dquote
              ++ of_string ", " ++ dquote ++ of_string "sequenceIndex" ++ dquote
              ++ of_string ":1, " ++ dquote ++ of_string "tags" ++ dquote
              ++ of_string ":[true, null, -2.5e3, {}] } ")
  = Normal (JObject [(of_string "tags",
                      JArray [JBool true; JNull; JNumber (of_string "-2.5e3");
                              JObject []]);
                     (of_string "sequenceIndex", JNumber (of_string "1"));
                     (of_string "type", JString (of_string "CITATION"))]).
Proof. vm_compute. reflexivity. Qed.

Example JSON_parse_rejects :
  parse_text (of_string "{" ++ dquote ++ of_string "type" ++ dquote
              ++ of_string ":" ++ dquote ++ of_string "RESPO") = PSyntax
  /\ parse_text (of_string "[1,2") = PSyntax
  /\ parse_text (of_string "01") = PSyntax
  /\ parse_text (of_string "{} x") = PSyntax
  /\ parse_text [] = PSyntax.
Proof. vm_compute. repeat split. Qed.

(** *** The fuel of [JSON_parse] is enough *)

Lemma span_length (p : N -> bool) (s d r : list N) :
  span p s = (d, r) -> (length r <= length s)%nat.
Proof.
  intros H. apply span_spec in H as [-> _]. rewrite length_app. lia.
Qed.

Lemma skip_ws_length (s : list N) : (length (skip_ws s) <= length s)%nat.
Proof. apply dropWhile_length. Qed.

Local Ltac len := cbn [length] in *; lia.

Lemma parse_string_body_length (s str rest : list N) :
  parse_string_body s = POk str rest -> (length rest < length s)%nat.
Proof.
  remember (length s) as n eqn:Hn. rewrite Hn. revert s str rest Hn.
  induction (lt_wf n) as [n _ IH]; intros s str rest Hn.
  destruct s as [|c s1]; [discriminate|]. cbn [parse_string_body].
  destruct (c =? 34); [intros [= <- <-]; len|].
  destruct (c =? 92).
  - destruct s1 as [|e s2]; [discriminate|].
    destruct (e =? 117).
    + destruct s2 as [|h1 [|h2 [|h3 [|h4 s3]]]]; try discriminate.
      destruct (hex4 h1 h2 h3 h4); [|discriminate].
      destruct (parse_string_body s3) as [str' rest'| |] eqn:Hp; try discriminate.
      intros [= <- <-].
      apply (IH (length s3)) in Hp; [len | len | reflexivity].
    + destruct (simple_escape e); [|discriminate].
      destruct (parse_string_body s2) as [str' rest'| |] eqn:Hp; try discriminate.
      intros [= <- <-].
      apply (IH (length s2)) in Hp; [len | len | reflexivity].
  - destruct (c <? 32); [discriminate|].
    destruct (parse_string_body s1) as [str' rest'| |] eqn:Hp; try discriminate.
    intros [= <- <-].
    apply (IH (length s1)) in Hp; [len | len | reflexivity].
Qed.

Lemma parse_string_body_fuel (s : list N) : parse_string_body s <> PFuel.
Proof.
  remember (length s) as n eqn:Hn. revert s Hn.
  induction (lt_wf n) as [n _ IH]; intros s Hn.
  destruct s as [|c s1]; [discriminate|]. cbn [parse_string_body].
  destruct (c =? 34); [discriminate|].
  destruct (c =? 92).
  - destruct s1 as [|e s2]; [discriminate|].
    destruct (e =? 117).
    + destruct s2 as [|h1 [|h2 [|h3 [|h4 s3]]]]; try discriminate.
      destruct (hex4 h1 h2 h3 h4); [|discriminate].
      pose proof (IH (length s3) ltac:(len) s3 eq_refl).
      destruct (parse_string_body s3); congruence.
    + destruct (simple_escape e); [|discriminate].
      pose proof (IH (length s2) ltac:(len) s2 eq_refl).
      destruct (parse_string_body s2); congruence.
  - destruct (c <? 32); [discriminate|].
    pose proof (IH (length s1) ltac:(len) s1 eq_refl).
    destruct (parse_string_body s1); congruence.
Qed.

Lemma parse_digits1_length (s ds rest : list N) :
  parse_digits1 s = Some (ds, rest) -> (length rest <= length s)%nat.
Proof.
  unfold parse_digits1. destruct (span isDigit s) as [d r] eqn:Hs.
  destruct d; [discriminate|]. intros [= <- <-].
  eapply span_length, Hs.
Qed.

Lemma parse_number_length (s lit rest : list N) :
  parse_number s = POk lit rest -> (length rest < length s)%nat.
Proof.
  unfold parse_number.
  set (ms := match s with
             | c :: s' => if c =? 45 then ([c], s') else ([], s)
             | [] => ([], s)
             end).
  assert (Hms : (length (snd ms) <= length s)%nat).
  { subst ms. destruct s as [|c s']; [simpl; lia|].
    destruct (c =? 45); simpl; lia. }
  destruct ms as [minus s1]. cbn [snd] in Hms.
  destruct (parse_int_part s1) as [[int s2]|] eqn:Hi; [|discriminate].
  assert (H2 : (length s2 < length s1)%nat).
  { unfold parse_int_part in Hi. destruct s1 as [|c s1']; [discriminate|].
    destruct (c =? 48); [injection Hi as <- <-; simpl; lia|].
    destruct (isDigit c); [|discriminate].
    destruct (span isDigit s1') as [ds r] eqn:Hs. injection Hi as <- <-.
    apply span_length in Hs. simpl. lia. }
  destruct (parse_frac s2) as [[frac s3]|] eqn:Hf; [|discriminate].
  assert (H3 : (length s3 <= length s2)%nat).
  { unfold parse_frac in Hf. destruct s2 as [|c s2']; [injection Hf as <- <-; lia|].
    destruct (c =? 46); [|injection Hf as <- <-; lia].
    destruct (parse_digits1 s2') as [[ds r]|] eqn:Hd; [|discriminate].
    injection Hf as <- <-. apply parse_digits1_length in Hd. simpl. lia. }
  destruct (parse_exp s3) as [[exp s4]|] eqn:He; [|discriminate].
  assert (H4 : (length s4 <= length s3)%nat).
  { unfold parse_exp in He. destruct s3 as [|c s3']; [injection He as <- <-; lia|].
    destruct ((c =? 101) || (c =? 69)); [|injection He as <- <-; lia].
    set (ss := match s3' with
               | g :: s2 => if (g =? 43) || (g =? 45) then ([g], s2) else ([], s3')
               | [] => ([], s3')
               end) in He.
    assert (Hss : (length (snd ss) <= length s3')%nat).
    { subst ss. destruct s3' as [|g t]; [simpl; lia|].
      destruct ((g =? 43) || (g =? 45)); simpl; lia. }
    destruct ss as [sign t]. cbn [snd] in Hss.
    destruct (parse_digits1 t) as [[ds r]|] eqn:Hd; [|discriminate].
    injection He as <- <-. apply parse_digits1_length in Hd. simpl. lia. }
  intros [= <- <-]. lia.
Qed.

Lemma parse_number_fuel (s : list N) : parse_number s <> PFuel.
Proof.
  unfold parse_number.
  destruct (match s with
            | c :: s' => if c =? 45 then ([c], s') else ([], s)
            | [] => ([], s)
            end) as [minus s1].
  destruct (parse_int_part s1) as [[int s2]|]; [|discriminate].
  destruct (parse_frac s2) as [[frac s3]|]; [|discriminate].
  destruct (parse_exp s3) as [[exp s4]|]; discriminate.
Qed.

Lemma parse_literal_length (word : list N) (v : value) (s : list N)
    (v' : value) (rest : list N) :
  word <> [] -> parse_literal word v s = POk v' rest ->
  (length rest < length s)%nat.
Proof.
  intros Hw. unfold parse_literal.
  destruct (strip_prefix word s) as [r|] eqn:Hs; [|discriminate].
  intros [= <- <-]. apply strip_prefix_Some in Hs as ->.
  rewrite length_app. destruct word; [congruence | simpl; lia].
Qed.

Lemma parse_literal_fuel (word : list N) (v : value) (s : list N) :
  parse_literal word v s <> PFuel.
Proof. unfold parse_literal. destruct (strip_prefix word s); discriminate. Qed.

Local Ltac ws t :=
  let H := fresh "Hws" in
  pose proof (skip_ws_length t) as H;
  destruct (skip_ws t); cbn [length] in H; [try discriminate|].

Lemma parse_consumes (fuel : nat) :
  (forall s v r, parse_value fuel s = POk v r -> (length r < length s)%nat)
  /\ (forall s acc v r,
        parse_elements fuel s acc = POk v r -> (length r < length s)%nat)
  /\ (forall s acc v r,
        parse_members fuel s acc = POk v r -> (length r < length s)%nat).
Proof.
  induction fuel as [|f (IHv & IHe & IHm)].
  { repeat split; intros; discriminate. }
  split; [|split].
  - intros s v r. cbn [parse_value]. ws s.
    destruct (n =? 123).
    { ws l. destruct (n0 =? 125); [intros [= <- <-]; lia|].
      intros H. apply IHm in H. lia. }
    destruct (n =? 91).
    { ws l. destruct (n0 =? 93); [intros [= <- <-]; lia|].
      intros H. apply IHe in H. lia. }
    destruct (n =? 34).
    { destruct (parse_string_body l) as [str rest| |] eqn:Hp; try discriminate.
      intros [= <- <-]. apply parse_string_body_length in Hp. lia. }
    destruct (n =? 116).
    { intros H. apply parse_literal_length in H; [len | discriminate]. }
    destruct (n =? 102).
    { intros H. apply parse_literal_length in H; [len | discriminate]. }
    destruct (n =? 110).
    { intros H. apply parse_literal_length in H; [len | discriminate]. }
    destruct (parse_number (n :: l)) as [lit rest| |] eqn:Hp; try discriminate.
    intros [= <- <-]. apply parse_number_length in Hp. len.
  - intros s acc v r. cbn [parse_elements].
    destruct (parse_value f s) as [v1 s1| |] eqn:Hv; try discriminate.
    apply IHv in Hv. ws s1.
    destruct (n =? 44); [intros H; apply IHe in H; lia|].
    destruct (n =? 93); [|discriminate]. intros [= <- <-]. lia.
  - intros s acc v r. cbn [parse_members]. ws s.
    destruct (n =? 34); [|discriminate].
    destruct (parse_string_body l) as [name s2| |] eqn:Hp; try discriminate.
    apply parse_string_body_length in Hp. ws s2.
    destruct (n0 =? 58); [|discriminate].
    destruct (parse_value f l0) as [v1 s4| |] eqn:Hv; try discriminate.
    apply IHv in Hv. ws s4.
    destruct (n1 =? 44); [intros H; apply IHm in H; lia|].
    destruct (n1 =? 125); [|discriminate]. intros [= <- <-]. lia.
Qed.

Lemma parse_fuel_enough (fuel : nat) :
  (forall s, (2 * length s + 1 <= fuel)%nat -> parse_value fuel s <> PFuel)
  /\ (forall s acc, (2 * length s + 2 <= fuel)%nat ->
                    parse_elements fuel s acc <> PFuel)
  /\ (forall s acc, (2 * length s + 2 <= fuel)%nat ->
                    parse_members fuel s acc <> PFuel).
Proof.
  induction fuel as [|f (IHv & IHe & IHm)].
  { repeat split; intros; lia. }
  split; [|split].
  - intros s Hf. cbn [parse_value]. ws s.
    destruct (n =? 123).
    { ws l. destruct (n0 =? 125); [discriminate|]. apply IHm. lia. }
    destruct (n =? 91).
    { ws l. destruct (n0 =? 93); [discriminate|]. apply IHe. lia. }
    destruct (n =? 34).
    { pose proof (parse_string_body_fuel l).
      destruct (parse_string_body l); congruence. }
    destruct (n =? 116); [apply parse_literal_fuel|].
    destruct (n =? 102); [apply parse_literal_fuel|].
    destruct (n =? 110); [apply parse_literal_fuel|].
    pose proof (parse_number_fuel (n :: l)).
    destruct (parse_number (n :: l)); congruence.
  - intros s acc Hf. cbn [parse_elements].
    pose proof (IHv s ltac:(lia)) as Hv.
    destruct (parse_value f s) as [v1 s1| |] eqn:Hp; [|discriminate|congruence].
    apply (proj1 (parse_consumes f)) in Hp. ws s1.
    destruct (n =? 44); [apply IHe; lia|].
    destruct (n =? 93); discriminate.
  - intros s acc Hf. cbn [parse_members]. ws s.
    destruct (n =? 34); [|discriminate].
    pose proof (parse_string_body_fuel l) as Hs.
    destruct (parse_string_body l) as [name s2| |] eqn:Hp;
      [|discriminate|congruence].
    apply parse_string_body_length in Hp. ws s2.
    destruct (n0 =? 58); [|discriminate].
    pose proof (IHv l0 ltac:(lia)) as Hv.
    destruct (parse_value f l0) as [v1 s4| |] eqn:Hp4; [|discriminate|congruence].
    apply (proj1 (parse_consumes f)) in Hp4. ws s4.
    destruct (n1 =? 44); [apply IHm; lia|].
    destruct (n1 =? 125); discriminate.
Qed.

(** [JSON_parse] never runs out of fuel: it throws only on a text that is
    not JSON. *)
Lemma JSON_parse_fuel (text : list N) : parse_text text <> PFuel.
Proof.
  unfold parse_text.
  pose proof (proj1 (parse_fuel_enough (2 * length text + 2)) text ltac:(lia)).
  destruct (parse_value (2 * length text + 2) text); try congruence.
  destruct (skip_ws rest); discriminate.
Qed.

(** ** StreamingAnswerClient: facts *)

Import StreamingAnswerClient.

Lemma split_newline_not_nil (s : list N) : split_newline s <> [].
Proof.
  destruct s as [|c s]; simpl; [discriminate|].
  destruct (c =? 10); [discriminate|].
  destruct (split_newline s); discriminate.
Qed.

Lemma split_newline_trailing (s : list N) :
  split_newline (s ++ [10]) = split_newline s ++ [[]].
Proof.
  induction s as [|c s IH]; [reflexivity|].
  cbn [app split_newline]. rewrite IH.
  destruct (c =? 10); [reflexivity|].
  pose proof (split_newline_not_nil s).
  destruct (split_newline s); [congruence | reflexivity].
Qed.

Lemma split_newline_single (s : list N) :
  Forall (fun c => c <> 10) s -> split_newline s = [s].
Proof.
  induction 1 as [|c s Hc _ IH]; [reflexivity|].
  cbn [split_newline]. rewrite IH.
  destruct (N.eqb_spec c 10); [contradiction | reflexivity].
Qed.

(** A trailing line feed makes no difference to the lines of a chunk. *)
Lemma lines_of_trailing (chunk : list N) :
  lines_of (chunk ++ [10]) = lines_of chunk.
Proof.
  unfold lines_of. rewrite split_newline_trailing, filter_app.
  replace (filter (fun line : list N => not_blank line = true) [[]])
    with (@nil (list N)) by (vm_compute; reflexivity).
  apply app_nil_r.
Qed.

Lemma handle_lines_throws (acc : accumulator) (lines : list (list N))
    (line : list N) (e : exception) :
  line ∈ lines -> JSON_parse line = Throw e ->
  exists e', handle_lines acc lines = Throw e'.
Proof.
  intros Hin Hp. revert acc.
  induction Hin as [line lines | line l0 lines _ IH]; intros acc.
  - cbn [handle_lines]. unfold handle_line. rewrite Hp. simpl. eauto.
  - cbn [handle_lines].
    destruct (handle_line acc l0) as [acc'|e0]; simpl; eauto.
Qed.

Lemma read_loop_throws (acc : accumulator) (chunks : list (list N))
    (ends : bool) (chunk line : list N) (e : exception) :
  chunk ∈ chunks -> line ∈ lines_of chunk -> JSON_parse line = Throw e ->
  exists e', read_loop acc chunks ends = Throw e'.
Proof.
  intros Hin Hl Hp. revert acc.
  induction Hin as [chunk chunks | chunk c0 chunks _ IH]; intros acc.
  - cbn [read_loop].
    destruct (handle_lines_throws acc _ _ _ Hl Hp) as [e' ->]. simpl. eauto.
  - cbn [read_loop].
    destruct (handle_lines acc (lines_of c0)) as [acc'|e0]; simpl; eauto.
Qed.

Lemma read_loop_app (acc : accumulator) (chunks1 chunks2 : list (list N))
    (ends : bool) :
  read_loop acc (chunks1 ++ chunks2) ends
  = match read_loop acc chunks1 true with
    | Normal acc' => read_loop acc' chunks2 ends
    | Throw e => Throw e
    end.
Proof.
  revert acc. induction chunks1 as [|chunk chunks1 IH]; intros acc; [reflexivity|].
  cbn [app read_loop].
  destruct (handle_lines acc (lines_of chunk)) as [acc'|e]; simpl; [apply IH | reflexivity].
Qed.

(** C4 (as amended): a final frame without a trailing newline is handled
    like one with it, so it is parsed when it is complete JSON; a frame
    whose [type] is neither [RESPONSE_CHUNK] nor [CITATION] leaves the
    answer and the citations as they are; but a line that is not JSON, such
    as an incomplete trailing fragment, makes [JSON.parse] throw, and the
    call then returns the failure result, with the fixed failure message as
    content and no citations. *)
Theorem callPerigonAPI_frames :
  (forall status chunks chunk ends,
      callPerigonAPI (StreamResponse true status (chunks ++ [chunk]) ends)
      = callPerigonAPI (StreamResponse true status (chunks ++ [chunk ++ [10]]) ends))
  /\ (forall acc frame parsedLine,
        Forall (fun c => c <> 10) frame -> not_blank frame = true ->
        JSON_parse frame = Normal parsedLine ->
        read_loop acc [frame] true = handle_parsed acc parsedLine)
  /\ (forall acc line parsedLine type,
        JSON_parse line = Normal parsedLine ->
        get (Some parsedLine) (of_string "type") = Normal type ->
        strict_eq_string type (of_string "RESPONSE_CHUNK") = false ->
        strict_eq_string type (of_string "CITATION") = false ->
        handle_line acc line = Normal acc)
  /\ (forall status chunks ends chunk line e,
        chunk ∈ chunks -> line ∈ lines_of chunk -> JSON_parse line = Throw e ->
        callPerigonAPI (StreamResponse true status chunks ends)
        = Normal failed_answer).
Proof.
  split; [|split; [|split]].
  - intros status chunks chunk ends. unfold callPerigonAPI, callPerigonAPI_try.
    rewrite !read_loop_app. cbn [read_loop]. rewrite lines_of_trailing.
    reflexivity.
  - intros [result cits] frame parsedLine Hnl Hnb Hp.
    cbn [read_loop]. unfold lines_of. rewrite split_newline_single by assumption.
    rewrite filter_cons_True by assumption.
    rewrite filter_nil. cbn [handle_lines]. unfold handle_line. rewrite Hp.
    cbn [bind]. destruct (handle_parsed (result, cits) parsedLine); reflexivity.
  - intros [result cits] line parsedLine type Hp Hget Hr Hc.
    unfold handle_line. rewrite Hp. cbn [bind]. unfold handle_parsed.
    rewrite Hget. cbn [bind]. rewrite Hr, Hc. reflexivity.
  - intros status chunks ends chunk line e Hin Hl Hp.
    unfold callPerigonAPI, callPerigonAPI_try.
    destruct (read_loop_throws ([], []) chunks ends chunk line e Hin Hl Hp)
      as [e' ->].
    reflexivity.
Qed.

Lemma callPerigonAPI_frames_witness :
  read_loop (of_string "Hel", []) [chunk_frame (of_string "lo")] true
  = Normal (of_string "Hello", [])
  /\ handle_line (of_string "Hello", []) (typed_frame (of_string "STATUS"))
     = Normal (of_string "Hello", [])
  /\ callPerigonAPI
       (StreamResponse true 200
          [chunk_frame (of_string "Hello") ++ [10]
           ++ take 30 (chunk_frame (of_string " world"))] true)
     = Normal failed_answer.
Proof.
  destruct callPerigonAPI_frames as (_ & Hframe & Hother & Hbad).
  split; [|split].
  - rewrite (Hframe (of_string "Hel", []) (chunk_frame (of_string "lo"))
               (JObject [(of_string "content", JString (of_string "lo"));
                         (of_string "type", JString (of_string "RESPONSE_CHUNK"))])).
    + vm_compute. reflexivity.
    + vm_compute. repeat constructor; discriminate.
    + vm_compute. reflexivity.
    + vm_compute. reflexivity.
  - apply (Hother _ _ (JObject [(of_string "type", JString (of_string "STATUS"))])
                  (Some (JString (of_string "STATUS"))));
      vm_compute; reflexivity.
  - apply (Hbad 200 _ true
             (chunk_frame (of_string "Hello") ++ [10]
              ++ take 30 (chunk_frame (of_string " world")))
             (take 30 (chunk_frame (of_string " world"))) SyntaxError).
    + apply list_elem_of_here.
    + vm_compute. apply list_elem_of_further, list_elem_of_here.
    + vm_compute. reflexivity.
Defined.

(** C4 (as stated) fails on an incomplete trailing fragment: the answer
    received so far is not kept with the fragment dropped; the call returns
    the failure result. *)
Lemma callPerigonAPI_fragment_counterexample :
  parse_text (take 30 (chunk_frame (of_string " world"))) = PSyntax
  /\ callPerigonAPI
       (StreamResponse true 200
          [chunk_frame (of_string "Hello") ++ [10]
           ++ take 30 (chunk_frame (of_string " world"))] true)
     = Normal {| content := of_string "Failed to get response from Perigon API";
                 citations := [] |}
  /\ callPerigonAPI
       (StreamResponse true 200 [chunk_frame (of_string "Hello") ++ [10]] true)
     = Normal {| content := of_string "Hello"; citations := [] |}.
Proof. vm_compute. repeat split. Qed.

(** ** QuestionGenerator: facts *)

Import QuestionGenerator.

(** [generateQuestion] never throws. *)
Lemma generateQuestion_returns (r : fetch_outcome) :
  exists question, generateQuestion r = Normal question.
Proof.
  unfold generateQuestion, try_catch.
  destruct (generateQuestion_try r); eauto.
Qed.

Lemma generateQuestion_failure (r : fetch_outcome) (e : exception) :
  generateQuestion_try r = Throw e -> generateQuestion r = Normal failed_question.
Proof. unfold generateQuestion. intros ->. reflexivity. Qed.

Lemma callPerigonAPI_returns (r : stream_outcome) :
  exists answer, callPerigonAPI r = Normal answer.
Proof.
  unfold callPerigonAPI, try_catch.
  destruct (callPerigonAPI_try r); eauto.
Qed.

Example generateQuestion_examples :
  generateQuestion
    (FetchResponse true 200
       (Some (JObject
          [(of_string "choices",
            JArray [JObject
              [(of_string "message",
                JObject [(of_string "content",
                          JString (of_string "  Who won?  "))])]])])))
  = Normal (of_string "Who won?")
  /\ generateQuestion (FetchResponse true 200 (Some (JObject [])))
     = Normal failed_question
  /\ generateQuestion (FetchResponse true 200 (Some (JObject [(of_string "choices", JArray [])])))
     = Normal failed_question.
Proof. vm_compute. repeat split. Qed.

(** ** VerificationCache: facts *)

Import VerificationCache.

Section Counting.
Context {A : Type}.
Variable p : A -> bool.

Local Abbreviation count l := (length (List.filter p l)).

Lemma count_app (l1 l2 : list A) : count (l1 ++ l2) = (count l1 + count l2)%nat.
Proof. rewrite List.filter_app, length_app. reflexivity. Qed.

Lemma count_cons (x : A) (l : list A) :
  count (x :: l) = ((if p x then 1 else 0) + count l)%nat.
Proof. simpl. destruct (p x); reflexivity. Qed.

Lemma count_insert (l : list A) (i : nat) (x y : A) :
  l !! i = Some x ->
  (count (<[i := y]> l) + (if p x then 1 else 0)
   = count l + (if p y then 1 else 0))%nat.
Proof.
  intros Hi. rewrite insert_take_drop by (eapply lookup_lt_Some, Hi).
  rewrite <- (take_drop_middle l i x Hi) at 3.
  rewrite !count_app, !count_cons. lia.
Qed.

Lemma count_delete (l : list A) (i : nat) (x : A) :
  l !! i = Some x ->
  (count (delete i l) + (if p x then 1 else 0) = count l)%nat.
Proof.
  intros Hi. rewrite delete_take_drop.
  rewrite <- (take_drop_middle l i x Hi) at 3.
  rewrite !count_app, !count_cons. lia.
Qed.
End Counting.

Lemma streaming_le_in_flight (articleId : list N) (st : AppState) :
  (streaming articleId st <= in_flight articleId st)%nat.
Proof.
  unfold streaming, in_flight.
  induction (pending st) as [|t l IH]; [reflexivity|].
  rewrite !count_cons. destruct t as [a|a]; simpl; destruct (bool_decide _); lia.
Qed.

Lemma inherited_proto (articleId : list N) :
  inherited articleId = false ->
  bool_decide (articleId = of_string "__proto__") = false.
Proof.
  intros Hinh. apply bool_decide_eq_false. intros ->.
  vm_compute in Hinh. discriminate.
Qed.

Lemma invariant_initial : invariant initial.
Proof.
  intros articleId.
  unfold question_calls, stream_calls, in_flight, streaming, completed, disabled.
  cbn [initial calls pending perigonResponses loadingResponses].
  rewrite !lookup_empty.
  split; [reflexivity|]. split; [reflexivity|]. split; [simpl; lia|].
  intros Hinh. rewrite (inherited_proto _ Hinh). split; discriminate.
Qed.

Lemma invariant_handleCheckMainstream (st : AppState) (a title content : list N) :
  invariant st -> disabled st a = false ->
  invariant (handleCheckMainstream st a title content).
Proof.
  intros Hinv Hdis. unfold handleCheckMainstream.
  destruct (perigonResponses st !! a) as [resp|] eqn:Hresp; [exact Hinv|].
  destruct (inherited a) eqn:Hinh; [exact Hinv|].
  intros id. specialize (Hinv id) as (Hq & Hs & Hle & Hd).
  unfold question_calls, stream_calls, in_flight, streaming, completed, disabled in *.
  cbn [calls pending perigonResponses loadingResponses].
  rewrite !count_app, !count_cons. cbn [List.filter length].
  cbn [is_question_call is_stream_call task_of awaits_answer].
  destruct (decide (a = id)) as [->|Hne].
  - rewrite bool_decide_eq_true_2 by reflexivity.
    rewrite lookup_insert_eq. rewrite Hresp in *.
    specialize (Hd Hinh).
    assert (length (List.filter (task_of id) (pending st)) = 0%nat) as H0.
    { destruct (length (List.filter (task_of id) (pending st))) as [|[|n]];
        [reflexivity | | lia].
      destruct Hd as [_ Hd]. rewrite Hd in Hdis by reflexivity. discriminate. }
    rewrite H0 in *.
    split; [lia|]. split; [lia|]. split; [lia|].
    intros _. split; intros _; [lia | reflexivity].
  - rewrite bool_decide_eq_false_2 by assumption.
    rewrite lookup_insert_ne by assumption.
    split; [lia|]. split; [lia|]. split; [lia|].
    intros Hi. rewrite (Hd Hi). lia.
Qed.

Lemma invariant_resume_question (st : AppState) (i : nat) (r : fetch_outcome) :
  invariant st -> invariant (resume_question st i r).
Proof.
  intros Hinv. unfold resume_question.
  destruct (pending st !! i) as [[a|a]|] eqn:Hi; try exact Hinv.
  destruct (generateQuestion_returns r) as [question ->].
  intros id. specialize (Hinv id) as (Hq & Hs & Hle & Hd).
  unfold question_calls, stream_calls, in_flight, streaming, completed, disabled in *.
  cbn [calls pending perigonResponses loadingResponses].
  pose proof (count_insert (task_of id) _ i _ (AwaitAnswer a) Hi) as Ht.
  pose proof (count_insert (awaits_answer id) _ i _ (AwaitAnswer a) Hi) as Ha.
  rewrite !count_app, !count_cons. cbn [List.filter length].
  cbn [is_question_call is_stream_call task_of awaits_answer] in *.
  assert (Hd' : inherited id = false ->
                (match loadingResponses st !! id with
                 | Some b => b
                 | None => bool_decide (id = of_string "__proto__")
                 end = true
                 <-> length (List.filter (task_of id)
                               (<[i:=AwaitAnswer a]> (pending st))) = 1%nat)).
  { intros Hinh. rewrite (Hd Hinh). destruct (bool_decide (a = id)); lia. }
  destruct (bool_decide (a = id));
    (split; [lia|]; split; [lia|]; split; [lia | exact Hd']).
Qed.

Lemma invariant_resume_answer (st : AppState) (i : nat) (r : stream_outcome) :
  invariant st -> invariant (resume_answer st i r).
Proof.
  intros Hinv. unfold resume_answer.
  destruct (pending st !! i) as [[a|a]|] eqn:Hi; try exact Hinv.
  destruct (callPerigonAPI_returns r) as [answer ->].
  intros id. specialize (Hinv id) as (Hq & Hs & Hle & Hd).
  pose proof (streaming_le_in_flight id st) as Hsl.
  unfold question_calls, stream_calls, in_flight, streaming, completed, disabled in *.
  cbn [calls pending perigonResponses loadingResponses].
  pose proof (count_delete (task_of id) _ i _ Hi) as Ht.
  pose proof (count_delete (awaits_answer id) _ i _ Hi) as Ha.
  cbn [task_of awaits_answer] in *.
  destruct (decide (a = id)) as [->|Hne].
  - rewrite bool_decide_eq_true_2 in Ht, Ha by reflexivity.
    rewrite !lookup_insert_eq.
    destruct (perigonResponses st !! id);
      (split; [lia|]; split; [lia|]; split; [lia|]);
      intros _; split; intros H; try discriminate; lia.
  - rewrite bool_decide_eq_false_2 in Ht, Ha by assumption.
    rewrite !lookup_insert_ne by assumption.
    split; [lia|]. split; [lia|]. split; [lia|].
    intros Hinh. rewrite (Hd Hinh). lia.
Qed.

Lemma invariant_click (st : AppState) (a title content : list N) :
  invariant st -> invariant (click st a title content).
Proof.
  intros Hinv. unfold click.
  destruct (disabled st a) eqn:Hdis; [exact Hinv|].
  apply invariant_handleCheckMainstream; assumption.
Qed.

Lemma run_snoc (st : AppState) (events : list event) (e : event) :
  run st (events ++ [e]) = step (run st events) e.
Proof. unfold run. rewrite fold_left_app. reflexivity. Qed.

Lemma invariant_run (events : list event) :
  Forall from_page events -> invariant (run initial events).
Proof.
  induction events as [|e events IH] using rev_ind; intros Hall.
  - exact invariant_initial.
  - apply Forall_app in Hall as [Hall He]. inversion He as [|? ? Hp _]; subst.
    rewrite run_snoc. specialize (IH Hall).
    destruct e as [a t c | a t c | i r | i r]; cbn [step].
    + contradiction.
    + apply invariant_click, IH.
    + apply invariant_resume_question, IH.
    + apply invariant_resume_answer, IH.
Qed.

Lemma question_calls_step (st : AppState) (e : event) (articleId : list N) :
  (question_calls articleId st <= question_calls articleId (step st e))%nat.
Proof.
  unfold question_calls.
  destruct e as [a t c | a t c | i r | i r]; cbn [step].
  - unfold handleCheckMainstream.
    destruct (perigonResponses st !! a); [lia|].
    destruct (inherited a); [lia|].
    cbn [calls]. rewrite count_app. lia.
  - unfold click, handleCheckMainstream.
    destruct (disabled st a); [lia|].
    destruct (perigonResponses st !! a); [lia|].
    destruct (inherited a); [lia|].
    cbn [calls]. rewrite count_app. lia.
  - unfold resume_question.
    destruct (pending st !! i) as [[a|a]|]; try lia.
    destruct (generateQuestion r); cbn [calls]; [rewrite count_app|]; lia.
  - unfold resume_answer.
    destruct (pending st !! i) as [[a|a]|]; try lia.
    destruct (callPerigonAPI r); cbn [calls]; lia.
Qed.

Lemma click_question_call (st : AppState) (articleId title content : list N) :
  invariant st -> inherited articleId = false ->
  (1 <= question_calls articleId (click st articleId title content))%nat.
Proof.
  intros Hinv Hinh. destruct (Hinv articleId) as (Hq & _ & _ & Hd).
  specialize (Hd Hinh).
  unfold click. destruct (disabled st articleId) eqn:Hdis.
  - rewrite Hq. destruct Hd as [Hd _]. rewrite Hd by reflexivity. lia.
  - unfold handleCheckMainstream, completed in *.
    destruct (perigonResponses st !! articleId); [lia|].
    rewrite Hinh.
    unfold question_calls. cbn [calls]. rewrite count_app, count_cons.
    cbn [is_question_call]. rewrite bool_decide_eq_true_2 by reflexivity. lia.
Qed.

Lemma triggered_question_call (events : list event) (articleId : list N) :
  Forall from_page events -> inherited articleId = false ->
  Exists (fun e => triggers articleId e = true) events ->
  (1 <= question_calls articleId (run initial events))%nat.
Proof.
  intros Hall Hinh.
  induction events as [|e events IH] using rev_ind; intros Hex.
  - inversion Hex.
  - apply Forall_app in Hall as [Hall He]. inversion He as [|? ? Hp _]; subst.
    rewrite run_snoc. apply Exists_app in Hex as [Hex|Hex].
    + specialize (IH Hall Hex).
      pose proof (question_calls_step (run initial events) e articleId). lia.
    + inversion Hex as [? ? Ht|? ? Ht]; subst; [|inversion Ht].
      destruct e as [a t c | a t c | i r | i r]; try contradiction;
        try discriminate.
      cbn [triggers] in Ht. apply bool_decide_eq_true in Ht as ->.
      cbn [step]. apply click_question_call; [|exact Hinh].
      apply invariant_run, Hall.
Qed.

(** A state in which nothing was sent and nothing is stored or pending for
    an inherited name stays so under every event of the page. *)
Lemma inherited_name_step (st : AppState) (e : event) (articleId : list N) :
  inherited articleId = true -> from_page e ->
  question_calls articleId st = 0%nat -> in_flight articleId st = 0%nat ->
  question_calls articleId (step st e) = 0%nat
  /\ in_flight articleId (step st e) = 0%nat.
Proof.
  intros Hinh He Hq Hf. unfold question_calls, in_flight in *.
  destruct e as [a t c | a t c | i r | i r]; cbn [step]; [contradiction| | |].
  - unfold click, handleCheckMainstream.
    destruct (disabled st a); [split; assumption|].
    destruct (perigonResponses st !! a); [split; assumption|].
    destruct (inherited a) eqn:Ha; [split; assumption|].
    cbn [calls pending]. rewrite !count_app, !count_cons. cbn [List.filter length].
    cbn [is_question_call task_of].
    rewrite bool_decide_eq_false_2 by (intros ->; congruence). lia.
  - unfold resume_question.
    destruct (pending st !! i) as [[a|a]|] eqn:Hi; try (split; assumption).
    pose proof (count_insert (task_of articleId) _ i _ (AwaitAnswer a) Hi) as Ht.
    cbn [task_of] in Ht.
    destruct (generateQuestion r); cbn [calls pending].
    + rewrite count_app, count_cons. cbn [List.filter length is_question_call].
      destruct (bool_decide (a = articleId)); lia.
    + pose proof (count_delete (task_of articleId) _ i _ Hi). lia.
  - unfold resume_answer.
    destruct (pending st !! i) as [[a|a]|] eqn:Hi; try (split; assumption).
    pose proof (count_delete (task_of articleId) _ i _ Hi) as Ht.
    destruct (callPerigonAPI r); cbn [calls pending]; lia.
Qed.

Lemma inherited_name_run (events : list event) (articleId : list N) :
  inherited articleId = true -> Forall from_page events ->
  question_calls articleId (run initial events) = 0%nat
  /\ in_flight articleId (run initial events) = 0%nat.
Proof.
  intros Hinh Hall.
  induction events as [|e events IH] using rev_ind; [split; reflexivity|].
  apply Forall_app in Hall as [Hall He]. inversion He; subst.
  rewrite run_snoc. destruct (IH Hall) as [Hq Hf].
  apply inherited_name_step; assumption.
Qed.




(** C5 (as amended): when the request fails or the response is not a
    success, [generateQuestion] returns the string ["Failed to generate
    question"] and does not throw; [handleCheckMainstream] does not look
    at it: it appends [" in less than 200 words"] and sends the result to
    the streaming answer client as the question. *)
Theorem generateQuestion_failure_passed_on :
  (forall status body,
      generateQuestion FetchRejected = Normal failed_question
      /\ generateQuestion (FetchResponse false status body) = Normal failed_question)
  /\ (forall r, exists question, generateQuestion r = Normal question)
  /\ (forall st i articleId r,
        pending st !! i = Some (AwaitQuestion articleId) ->
        generateQuestion r = Normal failed_question ->
        calls (resume_question st i r)
        = calls st ++ [StreamCall articleId (failed_question ++ less_than_200_words)]
        /\ pending (resume_question st i r) !! i = Some (AwaitAnswer articleId)).
Proof.
  split; [|split].
  - intros status body. split; reflexivity.
  - exact generateQuestion_returns.
  - intros st i articleId r Hi Hq. unfold resume_question. rewrite Hi, Hq.
    cbn [calls pending]. split; [reflexivity|].
    apply list_lookup_insert_eq. eapply lookup_lt_Some, Hi.
Qed.

Lemma generateQuestion_failure_passed_on_witness :
  calls (resume_question
           (handleCheckMainstream initial (of_string "a1") (of_string "Title")
              (of_string "Body"))
           0%nat (FetchResponse false 500 None))
  = calls (handleCheckMainstream initial (of_string "a1") (of_string "Title")
             (of_string "Body"))
    ++ [StreamCall (of_string "a1") (failed_question ++ less_than_200_words)].
Proof.
  refine (proj1 (proj2 (proj2 generateQuestion_failure_passed_on) _ 0%nat (of_string "a1")
                   (FetchResponse false 500 None) _ _)).
  - reflexivity.
  - reflexivity.
Defined.

(** C5 (as stated) fails in its second part: after a failed question
    request the stream request is sent all the same, with the failure
    string as its question. *)
Lemma generateQuestion_sentinel_counterexample :
  calls (run initial
           [Invoke (of_string "a1") (of_string "Title") (of_string "Body");
            QuestionResponse 0%nat FetchRejected])
  = [QuestionCall (of_string "a1") (of_string "Title") (of_string "Body");
     StreamCall (of_string "a1")
       (of_string "Failed to generate question in less than 200 words")].
Proof. vm_compute. reflexivity. Qed.

(** ** The controls of the feed: facts *)

Import FeedControls.

Section DateOffset.
Local Open Scope Z_scope.

Lemma handleDateChange_range (dateOffset : Z) (direction : list N) :
  0 <= dateOffset ->
  0 <= handleDateChange dateOffset direction <= dateOffset + 1.
Proof.
  intros H. unfold handleDateChange.
  destruct (bool_decide _); [lia|].
  destruct (bool_decide _); simpl; [|lia].
  destruct (Z.gtb_spec dateOffset 0); lia.
Qed.

Lemma offset_after_snoc (directions : list (list N)) (direction : list N) :
  offset_after (directions ++ [direction])
  = handleDateChange (offset_after directions) direction.
Proof. unfold offset_after. rewrite fold_left_app. reflexivity. Qed.

Lemma offset_after_range (directions : list (list N)) :
  0 <= offset_after directions <= Z.of_nat (length directions).
Proof.
  induction directions as [|d directions IH] using rev_ind.
  - unfold offset_after. simpl. lia.
  - rewrite offset_after_snoc, length_app. simpl.
    pose proof (handleDateChange_range (offset_after directions) d). lia.
Qed.


End DateOffset.

(** *** Toggling a source or a category *)

Lemma includes_elem_of (prev : list (list N)) (source : list N) :
  includes prev source = true <-> source ∈ prev.
Proof.
  unfold includes. rewrite existsb_exists. split.
  - intros (s & Hin & Hs). apply bool_decide_eq_true in Hs as ->.
    apply list_elem_of_In, Hin.
  - intros Hin. exists source. split; [apply list_elem_of_In, Hin|].
    apply bool_decide_eq_true. reflexivity.
Qed.

Lemma elem_of_filter_differs (prev : list (list N)) (source s : list N) :
  s ∈ List.filter (differs source) prev <-> s ∈ prev /\ s <> source.
Proof.
  rewrite !list_elem_of_In, List.filter_In. unfold differs.
  rewrite negb_true_iff, bool_decide_eq_false. reflexivity.
Qed.

Lemma handleCategoryChange_same :
  handleCategoryChange = handleSourceToggle.
Proof. reflexivity. Qed.

Lemma handleSourceToggle_NoDup (prev : list (list N)) (source : list N) :
  NoDup prev -> NoDup (handleSourceToggle prev source).
Proof.
  intros Hnd. unfold handleSourceToggle.
  destruct (includes prev source) eqn:Hinc.
  - apply NoDup_ListNoDup, List.NoDup_filter, NoDup_ListNoDup, Hnd.
  - apply NoDup_app. split; [exact Hnd|]. split; [|apply NoDup_singleton].
    intros x Hx Hs. apply list_elem_of_singleton in Hs as ->.
    apply includes_elem_of in Hx. congruence.
Qed.

Lemma sources_after_snoc (toggled : list (list N)) (source : list N) :
  sources_after (toggled ++ [source])
  = handleSourceToggle (sources_after toggled) source.
Proof. unfold sources_after. rewrite fold_left_app. reflexivity. Qed.

Lemma categories_after_snoc (toggled : list (list N)) (category : list N) :
  categories_after (toggled ++ [category])
  = handleCategoryChange (categories_after toggled) category.
Proof. unfold categories_after. rewrite fold_left_app. reflexivity. Qed.

Lemma FAITH_SOURCES_NoDup : NoDup FAITH_SOURCES.
Proof. apply (bool_decide_unpack (NoDup FAITH_SOURCES)). vm_compute. exact I. Qed.

(** The selection of [s] after a toggle of [source]. *)
Lemma includes_toggle (prev : list (list N)) (source s : list N) :
  includes (handleSourceToggle prev source) s
  = xorb (includes prev s) (bool_decide (source = s)).
Proof.
  apply eq_true_iff_eq. rewrite includes_elem_of. unfold handleSourceToggle.
  destruct (includes prev source) eqn:Hinc.
  - rewrite elem_of_filter_differs, <- includes_elem_of.
    destruct (decide (source = s)) as [->|Hne].
    + rewrite bool_decide_eq_true_2 by reflexivity. rewrite Hinc. simpl.
      split; [intros [_ H]; congruence | discriminate].
    + rewrite bool_decide_eq_false_2 by assumption. rewrite xorb_false_r.
      split; [intros [H _]; exact H | intros H; split; [exact H | congruence]].
  - rewrite elem_of_app, list_elem_of_singleton, <- includes_elem_of.
    destruct (decide (source = s)) as [->|Hne].
    + rewrite bool_decide_eq_true_2 by reflexivity. rewrite Hinc. simpl.
      split; [reflexivity | intros _; right; reflexivity].
    + rewrite bool_decide_eq_false_2 by assumption. rewrite xorb_false_r.
      split; [intros [H|H]; [exact H | congruence] | intros H; left; exact H].
Qed.

(** X2: toggling a source changes the selection of that source and of no
    other: afterwards the source is selected exactly when it was not
    before, and every other source is selected exactly when it was. *)
Theorem handleSourceToggle_membership (prev : list (list N)) (source : list N) :
  (source ∈ handleSourceToggle prev source <-> source ∉ prev)
  /\ (forall s, s <> source ->
        (s ∈ handleSourceToggle prev source <-> s ∈ prev)).
Proof.
  split.
  - rewrite <- !includes_elem_of, includes_toggle.
    rewrite bool_decide_eq_true_2 by reflexivity.
    destruct (includes prev source); simpl; split; intros H;
      try discriminate; try reflexivity; try (exfalso; apply H; reflexivity).
  - intros s Hs. rewrite <- !includes_elem_of, includes_toggle.
    rewrite bool_decide_eq_false_2 by congruence.
    rewrite xorb_false_r. reflexivity.
Qed.

Import ToggleCount.

Lemma toggles_selection (init toggled : list (list N)) (s : list N) :
  includes (fold_left handleSourceToggle toggled init) s
  = xorb (includes init s) (Nat.odd (times_toggled s toggled)).
Proof.
  induction toggled as [|t toggled IH] using rev_ind.
  - simpl. rewrite xorb_false_r. reflexivity.
  - rewrite fold_left_app. cbn [fold_left].
    rewrite includes_toggle, IH. unfold times_toggled.
    rewrite List.filter_app, length_app. cbn [List.filter].
    destruct (bool_decide (t = s)); cbn [length].
    + rewrite Nat.add_1_r, Nat.odd_succ, <- Nat.negb_odd.
      destruct (includes init s), (Nat.odd _); reflexivity.
    + rewrite Nat.add_0_r, xorb_false_r. reflexivity.
Qed.

Lemma toggles_NoDup (init toggled : list (list N)) :
  NoDup init -> NoDup (fold_left handleSourceToggle toggled init).
Proof.
  intros Hnd. induction toggled as [|t toggled IH] using rev_ind; [exact Hnd|].
  rewrite fold_left_app. apply handleSourceToggle_NoDup, IH.
Qed.

Lemma toggles_subseteq (all init toggled : list (list N)) :
  init ⊆ all -> Forall (fun t => t ∈ all) toggled ->
  fold_left handleSourceToggle toggled init ⊆ all.
Proof.
  intros Hinit Hall.
  induction toggled as [|t toggled IH] using rev_ind; [exact Hinit|].
  apply Forall_app in Hall as [Hall Ht]. inversion Ht; subst.
  rewrite fold_left_app. cbn [fold_left]. intros x Hx.
  destruct (decide (x = t)) as [->|Hne]; [assumption|].
  apply (IH Hall). apply includes_elem_of. apply includes_elem_of in Hx.
  rewrite includes_toggle, bool_decide_eq_false_2, xorb_false_r in Hx
    by congruence.
  exact Hx.
Qed.

(** X3: after any series of toggles the selected sources hold no source
    twice, and a source is selected exactly when it is one of
    [FAITH_SOURCES] and was toggled an even number of times, or is none of
    them and was toggled an odd number of times.  When only faith sources
    are toggled, as the buttons do, the selection stays within
    [FAITH_SOURCES], hence has at most 11 sources. *)
Theorem handleSourceToggle_selection (toggled : list (list N)) (s : list N) :
  NoDup (sources_after toggled)
  /\ includes (sources_after toggled) s
     = xorb (includes FAITH_SOURCES s) (Nat.odd (times_toggled s toggled))
  /\ (Forall (fun t => t ∈ FAITH_SOURCES) toggled ->
      sources_after toggled ⊆ FAITH_SOURCES
      /\ (length (sources_after toggled) <= 11)%nat).
Proof.
  split; [apply toggles_NoDup, FAITH_SOURCES_NoDup|].
  split; [apply toggles_selection|].
  intros Hall.
  assert (Hsub : sources_after toggled ⊆ FAITH_SOURCES)
    by (apply toggles_subseteq; [reflexivity | exact Hall]).
  split; [exact Hsub|].
  change 11%nat with (length FAITH_SOURCES).
  apply submseteq_length, NoDup_submseteq; [|exact Hsub].
  apply toggles_NoDup, FAITH_SOURCES_NoDup.
Qed.

Lemma handleSourceToggle_selection_witness :
  sources_after [of_string "cbn.com"; of_string "wng.org"; of_string "cbn.com"]
  ⊆ FAITH_SOURCES.
Proof.
  refine (proj1 (proj2 (proj2 (handleSourceToggle_selection
    [of_string "cbn.com"; of_string "wng.org"; of_string "cbn.com"] []) ) _)).
  repeat constructor;
    (apply (bool_decide_unpack (_ ∈ FAITH_SOURCES)); vm_compute; exact I).
Defined.

(** X4: after any series of toggles the selected categories hold no
    category twice, and a category is selected exactly when it was toggled
    an odd number of times; toggling a category twice in a row leaves the
    selection as it was when the category was not selected. *)
Theorem handleCategoryChange_selection (toggled : list (list N)) (c : list N) :
  NoDup (categories_after toggled)
  /\ includes (categories_after toggled) c = Nat.odd (times_toggled c toggled)
  /\ (includes (categories_after toggled) c = false ->
      categories_after (toggled ++ [c; c]) = categories_after toggled).
Proof.
  unfold categories_after. rewrite handleCategoryChange_same.
  split; [apply toggles_NoDup, NoDup_nil_2|].
  split; [apply toggles_selection|].
  intros Hout. change (toggled ++ [c; c]) with (toggled ++ [c] ++ [c]).
  rewrite app_assoc, !fold_left_app. cbn [fold_left].
  set (prev := fold_left handleSourceToggle toggled []) in *.
  unfold handleSourceToggle at 2. rewrite Hout.
  unfold handleSourceToggle.
  assert (Hin : includes (prev ++ [c]) c = true).
  { apply includes_elem_of, elem_of_app. right. apply list_elem_of_singleton.
    reflexivity. }
  rewrite Hin, List.filter_app. cbn [List.filter]. unfold differs at 2.
  rewrite bool_decide_eq_true_2 by reflexivity. cbn [negb].
  rewrite app_nil_r.
  assert (Hnot : c ∉ prev).
  { intros H. apply includes_elem_of in H. congruence. }
  clear Hin Hout. induction prev as [|x prev IH]; [reflexivity|].
  cbn [List.filter]. unfold differs at 1.
  rewrite bool_decide_eq_false_2
    by (intros ->; apply Hnot, list_elem_of_here).
  cbn [negb]. f_equal. apply IH. intros H. apply Hnot, list_elem_of_further, H.
Qed.

Lemma handleCategoryChange_selection_witness :
  categories_after ([of_string "Tech"] ++ [of_string "Health"; of_string "Health"])
  = categories_after [of_string "Tech"].
Proof.
  refine (proj2 (proj2 (handleCategoryChange_selection
            [of_string "Tech"] (of_string "Health"))) _).
  vm_compute. reflexivity.
Defined.

(** ** The requests of the feeds: facts *)

Import FeedRequests.

Lemma split_amp_not_nil (s : list N) : split_amp s <> [].
Proof.
  destruct s as [|c s]; simpl; [discriminate|].
  destruct (c =? 38); [discriminate|].
  destruct (split_amp s); discriminate.
Qed.

Lemma split_amp_part (a b : list N) :
  no_amp a -> split_amp (a ++ 38 :: b) = a :: split_amp b.
Proof.
  induction 1 as [|c a Hc _ IH]; [reflexivity|].
  cbn [app split_amp]. rewrite IH.
  destruct (N.eqb_spec c 38); [contradiction | reflexivity].
Qed.

Lemma split_amp_last (a : list N) : no_amp a -> split_amp a = [a].
Proof.
  induction 1 as [|c a Hc _ IH]; [reflexivity|].
  cbn [split_amp]. rewrite IH.
  destruct (N.eqb_spec c 38); [contradiction | reflexivity].
Qed.

Lemma split_amp_join (name : list N) (selected : list (list N)) (rest : list N) :
  no_amp name -> Forall no_amp selected ->
  split_amp (join amp (map (fun x => name ++ x) selected) ++ 38 :: rest)
  = sent_parameters name selected ++ split_amp rest.
Proof.
  intros Hname Hsel. induction Hsel as [|x selected Hx Hsel IH]; [reflexivity|].
  assert (Hnx : no_amp (name ++ x)) by (apply Forall_app; split; assumption).
  destruct selected as [|y selected].
  - cbn [map join sent_parameters app]. apply split_amp_part, Hnx.
  - change (join amp (map (fun x => name ++ x) (x :: y :: selected)))
      with ((name ++ x) ++ amp
            ++ join amp (map (fun x => name ++ x) (y :: selected))).
    set (J := join amp (map (fun x => name ++ x) (y :: selected))) in *.
    replace (((name ++ x) ++ amp ++ J) ++ 38 :: rest)
      with ((name ++ x) ++ 38 :: (J ++ 38 :: rest))
      by (rewrite <- !app_assoc; reflexivity).
    rewrite split_amp_part by exact Hnx.
    rewrite IH. reflexivity.
Qed.

Lemma split_amp_join_last (name : list N) (selected : list (list N)) :
  no_amp name -> Forall no_amp selected ->
  split_amp (join amp (map (fun x => name ++ x) selected))
  = sent_parameters name selected.
Proof.
  intros Hname Hsel. induction Hsel as [|x selected Hx Hsel IH]; [reflexivity|].
  assert (Hnx : no_amp (name ++ x)) by (apply Forall_app; split; assumption).
  destruct selected as [|y selected].
  - cbn [map join sent_parameters]. apply split_amp_last, Hnx.
  - change (join amp (map (fun x => name ++ x) (x :: y :: selected)))
      with ((name ++ x) ++ amp
            ++ join amp (map (fun x => name ++ x) (y :: selected))).
    set (J := join amp (map (fun x => name ++ x) (y :: selected))) in *.
    change ((name ++ x) ++ amp ++ J) with ((name ++ x) ++ 38 :: J).
    rewrite split_amp_part by exact Hnx.
    rewrite IH. reflexivity.
Qed.

Lemma no_amp_literal (name value : list N) :
  bool_decide (no_amp name) = true -> no_amp value -> no_amp (name ++ value).
Proof.
  intros Hn Hv. apply Forall_app. split; [|exact Hv].
  apply bool_decide_eq_true in Hn. exact Hn.
Qed.

(** X5: when the key, the two dates and the selected values hold no [&],
    the query of the faith feed is read back as the six fixed parameters,
    then one [source=] parameter for each selected source and one
    [category=] parameter for each selected category, in the order of the
    selection; an empty selection of either is sent as an empty
    parameter. *)
Theorem faith_query_parameters
    (API_KEY from to : list N) (selectedSources selectedCategories : list (list N)) :
  no_amp API_KEY -> no_amp from -> no_amp to ->
  Forall no_amp selectedSources -> Forall no_amp selectedCategories ->
  split_amp (faith_query API_KEY from to selectedSources selectedCategories)
  = [of_string "apiKey=" ++ API_KEY; of_string "from=" ++ from;
     of_string "to=" ++ to; of_string "showNumResults=true";
     of_string "size=18"; of_string "sortBy=date"]
    ++ sent_parameters (of_string "source=") selectedSources
    ++ sent_parameters (of_string "category=") selectedCategories.
Proof.
  intros Hk Hf Ht Hs Hc.
  assert (Heq : faith_query API_KEY from to selectedSources selectedCategories
    = (of_string "apiKey=" ++ API_KEY) ++ 38 ::
      (of_string "from=" ++ from) ++ 38 ::
      (of_string "to=" ++ to) ++ 38 ::
      of_string "showNumResults=true" ++ 38 ::
      of_string "size=18" ++ 38 ::
      of_string "sortBy=date" ++ 38 ::
      sourceParams selectedSources ++ 38 :: categoryParams selectedCategories).
  { unfold faith_query. rewrite <- !app_assoc. reflexivity. }
  rewrite Heq.
  rewrite split_amp_part by (apply no_amp_literal; [reflexivity | assumption]).
  rewrite split_amp_part by (apply no_amp_literal; [reflexivity | assumption]).
  rewrite split_amp_part by (apply no_amp_literal; [reflexivity | assumption]).
  rewrite (split_amp_part (of_string "showNumResults=true"))
    by (apply (bool_decide_unpack (no_amp _)); vm_compute; exact I).
  rewrite (split_amp_part (of_string "size=18"))
    by (apply (bool_decide_unpack (no_amp _)); vm_compute; exact I).
  rewrite (split_amp_part (of_string "sortBy=date"))
    by (apply (bool_decide_unpack (no_amp _)); vm_compute; exact I).
  unfold sourceParams, categoryParams.
  rewrite split_amp_join
    by (try assumption; apply (bool_decide_unpack (no_amp _)); vm_compute; exact I).
  rewrite split_amp_join_last
    by (try assumption; apply (bool_decide_unpack (no_amp _)); vm_compute; exact I).
  reflexivity.
Qed.

Lemma faith_query_parameters_witness :
  split_amp (faith_query (of_string "k") (of_string "2026-11-01")
               (of_string "2026-11-02") [of_string "cbn.com"; of_string "wng.org"] [])
  = [of_string "apiKey=" ++ of_string "k";
     of_string "from=" ++ of_string "2026-11-01";
     of_string "to=" ++ of_string "2026-11-02"; of_string "showNumResults=true";
     of_string "size=18"; of_string "sortBy=date"]
    ++ sent_parameters (of_string "source=") [of_string "cbn.com"; of_string "wng.org"]
    ++ sent_parameters (of_string "category=") [].
Proof.
  apply faith_query_parameters;
    apply (bool_decide_unpack _); vm_compute; exact I.
Defined.

(** ** The feed state: facts *)

Section NewsFeedFacts.
Import NewsFeed.

Lemma feed_step_error (st : State) (e : event) :
  error (step st e) = error st
  \/ (fails e /\ error (step st e) = Some failed_to_fetch).
Proof.
  destruct e as [|r|r]; cbn [step].
  - left. reflexivity.
  - unfold faith_completed. destruct (faith_try r) as [articles|x] eqn:Hr.
    + left. reflexivity.
    + right. split; [exists x; exact Hr | reflexivity].
  - unfold mainstream_completed.
    destruct (mainstream_try r) as [articles|x] eqn:Hr.
    + left. reflexivity.
    + right. split; [exists x; exact Hr | reflexivity].
Qed.

Lemma feed_step_fails (st : State) (e : event) :
  fails e -> error (step st e) = Some failed_to_fetch.
Proof.
  destruct e as [|r|r]; cbn [step fails]; [contradiction| |]; intros [x Hx].
  - unfold faith_completed. rewrite Hx. reflexivity.
  - unfold mainstream_completed. rewrite Hx. reflexivity.
Qed.

Lemma feed_run_snoc (st : State) (events : list event) (e : event) :
  run st (events ++ [e]) = step (run st events) e.
Proof. unfold run. rewrite fold_left_app. reflexivity. Qed.

Lemma feed_run_error_kept (st : State) (events : list event) :
  error st = Some failed_to_fetch ->
  error (run st events) = Some failed_to_fetch.
Proof.
  intros Hst. induction events as [|e events IH] using rev_ind; [exact Hst|].
  rewrite feed_run_snoc.
  destruct (feed_step_error (run st events) e) as [-> | [_ ->]];
    [exact IH | reflexivity].
Qed.

(** X6: a feed fetch that fails, because the request is rejected, the
    status is not a success or the body does not decode (and, for the faith
    feed, the body is [null]), sets the error ["Failed to fetch news"],
    ends loading and keeps the news of before; this is the same for both
    feeds, and the mainstream fetch on the wider state agrees with
    [fetchMainstreamNews]. *)
Theorem feed_fetch_failure (st : State) (status : N) (body : option value) :
  let failed := {| news := news st; loading := false;
                   error := Some failed_to_fetch |} in
  fetchFaithNews st FetchRejected = failed
  /\ fetchFaithNews st (FetchResponse false status body) = failed
  /\ fetchFaithNews st (FetchResponse true status None) = failed
  /\ fetchFaithNews st (FetchResponse true status (Some JNull)) = failed
  /\ mainstream_completed st FetchRejected = failed
  /\ mainstream_completed st (FetchResponse false status body) = failed
  /\ mainstream_completed st (FetchResponse true status None) = failed
  /\ (forall (fst_ : FeedState) r,
        of_feed (fetchMainstreamNews fst_ r)
        = mainstream_completed (fetch_started (of_feed fst_)) r).
Proof.
  cbv zeta. repeat split.
  intros fst_ r. unfold fetchMainstreamNews, mainstream_completed.
  destruct (mainstream_try r); reflexivity.
Qed.

(** X7: nothing resets the error of the feed.  Once a fetch of either feed
    has failed, whatever fetches start and whatever responses arrive
    afterwards, in any order, the error stays ["Failed to fetch news"], and
    whenever the page is not loading it shows that error and not the
    news. *)
Theorem feed_error_is_permanent (st : State) (events : list event) :
  Exists fails events ->
  error (run st events) = Some failed_to_fetch
  /\ (loading (run st events) = false ->
      render (run st events) = ErrorView failed_to_fetch).
Proof.
  intros Hex.
  assert (Herr : error (run st events) = Some failed_to_fetch).
  { apply Exists_exists in Hex as (e & Hin & He).
    apply list_elem_of_split in Hin as (l1 & l2 & ->).
    change (l1 ++ e :: l2) with (l1 ++ [e] ++ l2).
    rewrite app_assoc. unfold run. rewrite fold_left_app.
    apply feed_run_error_kept. fold (run st (l1 ++ [e])).
    rewrite feed_run_snoc. apply feed_step_fails, He. }
  split; [exact Herr|].
  intros Hl. unfold render. rewrite Hl, Herr. reflexivity.
Qed.

Lemma feed_error_is_permanent_witness :
  error (run initial
           [FaithResponse (FetchResponse false 500 None); Started;
            MainstreamResponse
              (FetchResponse true 200 (Some (clusters_response [])))])
  = Some failed_to_fetch.
Proof.
  refine (proj1 (feed_error_is_permanent initial _ _)).
  apply List.Exists_cons_hd. exists (HttpError 500). reflexivity.
Defined.

End NewsFeedFacts.

(** ** FeedAggregator: more facts *)

Lemma mapM_Forall2 {A B} (f : A -> completion B) (l : list A) (ys : list B) :
  mapM f l = Normal ys -> Forall2 (fun x y => f x = Normal y) l ys.
Proof.
  revert ys. induction l as [|x l IH]; intros ys; cbn [mapM].
  - intros [= <-]. constructor.
  - destruct (f x) as [y|e] eqn:Hx; [|discriminate]. cbn [bind].
    destruct (mapM f l) as [ys'|e]; [|discriminate]. cbn [bind].
    intros [= <-]. constructor; [exact Hx | apply IH; reflexivity].
Qed.

Lemma elem_of_filter_truthy (l : list (option value)) (v : value) :
  v ∈ filter_truthy l <-> Some v ∈ l /\ truthy (Some v) = true.
Proof.
  induction l as [|x l IH]; cbn [filter_truthy].
  - split; [intros H; inversion H | intros [H _]; inversion H].
  - destruct x as [w|].
    + destruct (truthy (Some w)) eqn:Hw.
      * rewrite !elem_of_cons, IH. split.
        -- intros [->|[H1 H2]]; [split; [left; reflexivity | exact Hw]|].
           split; [right; exact H1 | exact H2].
        -- intros [[[= ->]|H1] H2]; [left; reflexivity | right; split; assumption].
      * rewrite IH, elem_of_cons. split.
        -- intros [H1 H2]. split; [right; exact H1 | exact H2].
        -- intros [[[= ->]|H1] H2]; [congruence | split; assumption].
    + rewrite IH, elem_of_cons. split.
      * intros [H1 H2]. split; [right; exact H1 | exact H2].
      * intros [[H|H1] H2]; [discriminate | split; assumption].
Qed.

(** X8: whatever the response, every article that the mainstream fetch
    stores is the first hit of one of the clusters of the response, and is
    a truthy value: no cluster without a first hit leaves a hole in the
    news. *)
Theorem normalize_clusters_articles (data : value) (articles : list value) :
  normalize_clusters data = Normal articles ->
  articles = []
  \/ exists cs,
       get (Some data) (of_string "clusters") = Normal (Some (JArray cs))
       /\ Forall (fun article =>
                    truthy (Some article) = true
                    /\ exists cluster hits,
                         cluster ∈ cs
                         /\ get (Some cluster) (of_string "hits") = Normal hits
                         /\ index0 hits = Normal (Some article))
                 articles.
Proof.
  unfold normalize_clusters.
  destruct (get (Some data) (of_string "clusters")) as [clusters|e];
    [|discriminate].
  cbn [bind].
  destruct (truthy clusters && isArray clusters);
    [|intros [= <-]; left; reflexivity].
  destruct clusters as [[| | | |cs|]|]; try (intros [= <-]; left; reflexivity).
  destruct (mapM _ cs) as [firsts|e] eqn:Hm; [|discriminate].
  cbn [bind]. intros [= <-]. right. exists cs. split; [reflexivity|].
  apply mapM_Forall2 in Hm.
  apply Forall_forall. intros article Hin.
  apply (subseteq_take 18) in Hin.
  apply elem_of_filter_truthy in Hin as [Hin Ht]. split; [exact Ht|].
  apply list_elem_of_lookup in Hin as [i Hi].
  destruct (Forall2_lookup_r _ _ _ _ _ Hm Hi) as (cluster & Hc & Hf).
  destruct (get (Some cluster) (of_string "hits")) as [hits|e] eqn:Hh;
    [|discriminate].
  cbn [bind] in Hf. exists cluster, hits.
  split; [eapply list_elem_of_lookup_2, Hc|]. split; [exact Hh | exact Hf].
Qed.

Lemma normalize_clusters_articles_witness :
  [JObject []] = []
  \/ exists cs,
       get (Some (clusters_response [cluster_of []; cluster_of [JObject []; JNull]]))
           (of_string "clusters") = Normal (Some (JArray cs))
       /\ Forall (fun article =>
                    truthy (Some article) = true
                    /\ exists cluster hits,
                         cluster ∈ cs
                         /\ get (Some cluster) (of_string "hits") = Normal hits
                         /\ index0 hits = Normal (Some article))
                 [JObject []].
Proof.
  apply (normalize_clusters_articles
           (clusters_response [cluster_of []; cluster_of [JObject []; JNull]])).
  vm_compute. reflexivity.
Defined.

(** ** StreamingAnswerClient: more facts *)

Import AnswerFrames.

Lemma split_newline_app (a b : list N) :
  split_newline (a ++ 10 :: b) = split_newline a ++ split_newline b.
Proof.
  induction a as [|c a IH]; [reflexivity|].
  cbn [app split_newline]. rewrite IH.
  destruct (c =? 10); [reflexivity|].
  pose proof (split_newline_not_nil a).
  destruct (split_newline a); [congruence | reflexivity].
Qed.

Lemma lines_of_app (a b : list N) :
  lines_of (a ++ 10 :: b) = lines_of a ++ lines_of b.
Proof. unfold lines_of. rewrite split_newline_app. apply filter_app. Qed.

Lemma handle_lines_app (acc : accumulator) (l1 l2 : list (list N)) :
  handle_lines acc (l1 ++ l2)
  = handle_lines acc l1 >>= fun acc' => handle_lines acc' l2.
Proof.
  revert acc. induction l1 as [|line l1 IH]; intros acc; [reflexivity|].
  cbn [app handle_lines].
  destruct (handle_line acc line) as [acc'|e]; cbn [bind]; [apply IH | reflexivity].
Qed.

(** The loop reads the lines of all chunks, one after the other. *)
Lemma read_loop_lines (acc : accumulator) (chunks : list (list N)) (ends : bool) :
  read_loop acc chunks ends
  = handle_lines acc (concat (map lines_of chunks)) >>= fun acc' =>
    if ends then Normal acc' else Throw NetworkError.
Proof.
  revert acc. induction chunks as [|chunk chunks IH]; intros acc.
  - reflexivity.
  - cbn [read_loop map concat]. rewrite handle_lines_app.
    destruct (handle_lines acc (lines_of chunk)) as [acc'|e]; cbn [bind];
      [apply IH | reflexivity].
Qed.

Lemma callPerigonAPI_lines (status : N) (chunks1 chunks2 : list (list N))
    (ends : bool) :
  concat (map lines_of chunks1) = concat (map lines_of chunks2) ->
  callPerigonAPI (StreamResponse true status chunks1 ends)
  = callPerigonAPI (StreamResponse true status chunks2 ends).
Proof.
  intros H. unfold callPerigonAPI, callPerigonAPI_try.
  rewrite !read_loop_lines, H. reflexivity.
Qed.

(** X9: the answer depends on the lines received and not on how they come
    in chunks: two streams with the same lines, in the same order, give the
    same result; in particular a chunk may be cut in two at a line feed,
    with the line feed left out or kept. *)
Theorem callPerigonAPI_chunk_boundaries
    (status : N) (before after : list (list N)) (a b : list N) (ends : bool) :
  (forall chunks1 chunks2,
      concat (map lines_of chunks1) = concat (map lines_of chunks2) ->
      callPerigonAPI (StreamResponse true status chunks1 ends)
      = callPerigonAPI (StreamResponse true status chunks2 ends))
  /\ callPerigonAPI
       (StreamResponse true status (before ++ [a ++ 10 :: b] ++ after) ends)
     = callPerigonAPI
         (StreamResponse true status (before ++ [a; b] ++ after) ends)
  /\ callPerigonAPI
       (StreamResponse true status (before ++ [a ++ 10 :: b] ++ after) ends)
     = callPerigonAPI
         (StreamResponse true status (before ++ [a ++ [10]; b] ++ after) ends).
Proof.
  split; [intros chunks1 chunks2; apply callPerigonAPI_lines|].
  split; apply callPerigonAPI_lines;
    rewrite !map_app, !concat_app; cbn [map concat];
    rewrite ?lines_of_trailing, lines_of_app, app_nil_r, <- ?app_assoc;
    reflexivity.
Qed.

Lemma callPerigonAPI_chunk_boundaries_witness :
  callPerigonAPI
    (StreamResponse true 200
       [chunk_frame (of_string "Hel") ++ [10] ++ chunk_frame (of_string "lo")]
       true)
  = callPerigonAPI
      (StreamResponse true 200
         [chunk_frame (of_string "Hel") ++ [10]; chunk_frame (of_string "lo")]
         true).
Proof.
  refine (proj1 (callPerigonAPI_chunk_boundaries 200 [] [] [] [] true) _ _ _).
  vm_compute. reflexivity.
Defined.

Lemma handle_parsed_frame (result : list N) (cits : list value) (frame : value) :
  frame <> JNull ->
  (is_chunk frame = true -> text_content frame = true) ->
  handle_parsed (result, cits) frame
  = Normal (result ++ (if is_chunk frame then chunk_text frame else []),
            cits ++ (if is_citation frame then [frame] else [])).
Proof.
  intros Hnull Htext.
  unfold handle_parsed, is_chunk, is_citation, chunk_text, text_content in *.
  destruct frame as [| b | lit | s | elems | props]; try congruence;
    cbn [get bind frame_type strict_eq_string] in *;
    rewrite ?app_nil_r; try reflexivity.
  destruct (strict_eq_string (assoc (of_string "type") props)
              (of_string "RESPONSE_CHUNK")) eqn:Hc.
  - destruct (assoc (of_string "type") props) as [[| | |t| |]|];
      try discriminate.
    cbn [strict_eq_string] in *. apply bool_decide_eq_true in Hc as ->.
    rewrite bool_decide_eq_false_2 by discriminate.
    rewrite app_nil_r. specialize (Htext eq_refl).
    destruct (assoc (of_string "content") props) as [[| | |s| |]|];
      try discriminate; reflexivity.
  - rewrite app_nil_r.
    destruct (strict_eq_string _ (of_string "CITATION"));
      rewrite ?app_nil_r; reflexivity.
Qed.

Lemma answer_text_cons (frame : value) (frames : list value) :
  answer_text (frame :: frames)
  = (if is_chunk frame then chunk_text frame else []) ++ answer_text frames.
Proof.
  unfold answer_text. cbn [List.filter].
  destruct (is_chunk frame); reflexivity.
Qed.

Lemma answer_citations_cons (frame : value) (frames : list value) :
  answer_citations (frame :: frames)
  = (if is_citation frame then [frame] else []) ++ answer_citations frames.
Proof.
  unfold answer_citations. cbn [List.filter].
  destruct (is_citation frame); reflexivity.
Qed.

Lemma handle_lines_frames (result : list N) (cits : list value)
    (lines : list (list N)) (frames : list value) :
  Forall2 (fun line frame => JSON_parse line = Normal frame) lines frames ->
  Forall (fun frame => frame <> JNull) frames ->
  Forall (fun frame => is_chunk frame = true -> text_content frame = true)
         frames ->
  handle_lines (result, cits) lines
  = Normal (result ++ answer_text frames, cits ++ answer_citations frames).
Proof.
  intros Hp. revert result cits.
  induction Hp as [|line frame lines frames Hline _ IH];
    intros result cits Hn Ht.
  - unfold answer_text, answer_citations. simpl. rewrite !app_nil_r. reflexivity.
  - apply Forall_cons in Hn as [Hf Hn]. apply Forall_cons in Ht as [Hft Ht].
    cbn [handle_lines]. unfold handle_line. rewrite Hline. cbn [bind].
    rewrite handle_parsed_frame by assumption. cbn [bind].
    rewrite IH by assumption.
    rewrite answer_text_cons, answer_citations_cons, <- !app_assoc.
    reflexivity.
Qed.

(** X10: when every non-blank line of a stream that ends is JSON other
    than [null], and the [content] of every [RESPONSE_CHUNK] frame is a
    string or missing, the answer is the text of the [RESPONSE_CHUNK]
    frames, in the order received and trimmed at both ends, and the
    citations are the [CITATION] frames in the order received; every other
    frame adds nothing.  A [RESPONSE_CHUNK] frame adds its [content], and
    the text ["undefined"] when it has none. *)
Theorem callPerigonAPI_answer
    (status : N) (chunks : list (list N)) (frames : list value) :
  Forall2 (fun line frame => JSON_parse line = Normal frame)
          (concat (map lines_of chunks)) frames ->
  Forall (fun frame => frame <> JNull) frames ->
  Forall (fun frame => is_chunk frame = true -> text_content frame = true)
         frames ->
  callPerigonAPI (StreamResponse true status chunks true)
  = Normal {| content := trim (answer_text frames);
              citations := answer_citations frames |}
  /\ (forall props,
        assoc (of_string "type") props = Some (JString (of_string "RESPONSE_CHUNK")) ->
        assoc (of_string "content") props = None ->
        answer_text [JObject props] = of_string "undefined")
  /\ (forall props s,
        assoc (of_string "type") props = Some (JString (of_string "RESPONSE_CHUNK")) ->
        assoc (of_string "content") props = Some (JString s) ->
        answer_text [JObject props] = s).
Proof.
  intros Hp Hn Ht. split; [|split].
  - unfold callPerigonAPI, callPerigonAPI_try.
    rewrite read_loop_lines, (handle_lines_frames [] [] _ frames Hp Hn Ht).
    reflexivity.
  - intros props Htype Hc. unfold answer_text, is_chunk, chunk_text.
    cbn [List.filter frame_type]. rewrite Htype. cbn [strict_eq_string].
    rewrite bool_decide_eq_true_2 by reflexivity.
    cbn [map concat]. rewrite Hc, app_nil_r. reflexivity.
  - intros props s Htype Hc. unfold answer_text, is_chunk, chunk_text.
    cbn [List.filter frame_type]. rewrite Htype. cbn [strict_eq_string].
    rewrite bool_decide_eq_true_2 by reflexivity.
    cbn [map concat]. rewrite Hc, app_nil_r. reflexivity.
Qed.

Lemma callPerigonAPI_answer_witness :
  callPerigonAPI
    (StreamResponse true 200
       [chunk_frame (of_string " Hel") ++ [10] ++ typed_frame (of_string "CITATION");
        typed_frame (of_string "PING") ++ [10] ++ chunk_frame (of_string "lo ")]
       true)
  = Normal
      {| content := of_string "Hello";
         citations := [JObject [(of_string "type", JString (of_string "CITATION"))]] |}.
Proof.
  refine (proj1 (callPerigonAPI_answer 200 _
    [JObject [(of_string "content", JString (of_string " Hel"));
              (of_string "type", JString (of_string "RESPONSE_CHUNK"))];
     JObject [(of_string "type", JString (of_string "CITATION"))];
     JObject [(of_string "type", JString (of_string "PING"))];
     JObject [(of_string "content", JString (of_string "lo "));
              (of_string "type", JString (of_string "RESPONSE_CHUNK"))]] _ _ _)).
  - vm_compute. repeat constructor.
  - repeat constructor; discriminate.
  - repeat constructor; intros _; reflexivity.
Defined.

Lemma handle_lines_throws_at (acc : accumulator) (lines : list (list N))
    (line : list N) :
  line ∈ lines -> (forall acc', exists e, handle_line acc' line = Throw e) ->
  exists e', handle_lines acc lines = Throw e'.
Proof.
  intros Hin Hp. revert acc.
  induction Hin as [line lines | line l0 lines _ IH]; intros acc.
  - cbn [handle_lines]. destruct (Hp acc) as [e ->]. simpl. eauto.
  - cbn [handle_lines].
    destruct (handle_line acc l0) as [acc'|e0]; simpl; eauto.
Qed.

(** X11: the call never throws, and it returns the failure result, with
    nothing of what was received, when the request is rejected, when the
    status is not a success, when a read of the stream fails, however many
    frames came before, when the response has no body, and when a line of
    the stream is the JSON [null]. *)
Theorem callPerigonAPI_failure
    (status : N) (chunks : list (list N)) (ends : bool) :
  (forall r, exists answer, callPerigonAPI r = Normal answer)
  /\ callPerigonAPI StreamRejected = Normal failed_answer
  /\ callPerigonAPI (StreamResponse false status chunks ends) = Normal failed_answer
  /\ callPerigonAPI (StreamResponse true status chunks false) = Normal failed_answer
  /\ (forall ok, callPerigonAPI (StreamNoBody ok status) = Normal failed_answer)
  /\ (forall line,
        line ∈ concat (map lines_of chunks) ->
        JSON_parse line = Normal JNull ->
        callPerigonAPI (StreamResponse true status chunks ends)
        = Normal failed_answer).
Proof.
  split; [exact callPerigonAPI_returns|].
  split; [reflexivity|]. split; [reflexivity|]. split; [|split].
  - unfold callPerigonAPI, callPerigonAPI_try. rewrite read_loop_lines.
    destruct (handle_lines _ _); reflexivity.
  - intros [|]; reflexivity.
  - intros line Hin Hnull.
    unfold callPerigonAPI, callPerigonAPI_try. rewrite read_loop_lines.
    destruct (handle_lines_throws_at ([], []) _ line Hin) as [e ->];
      [|reflexivity].
    intros [result cits]. unfold handle_line. rewrite Hnull.
    exists TypeError. reflexivity.
Qed.

Lemma callPerigonAPI_failure_witness :
  callPerigonAPI
    (StreamResponse true 200
       [chunk_frame (of_string "Hello") ++ [10] ++ of_string "null"] true)
  = Normal failed_answer.
Proof.
  refine (proj2 (proj2 (proj2 (proj2 (proj2
    (callPerigonAPI_failure 200
       [chunk_frame (of_string "Hello") ++ [10] ++ of_string "null"] true)))))
    (of_string "null") _ _).
  - vm_compute. apply list_elem_of_further, list_elem_of_here.
  - vm_compute. reflexivity.
Defined.

(** *** [trim] *)

Lemma dropWhile_head (p : N -> bool) (s : list N) (c : N) (s' : list N) :
  dropWhile p s = c :: s' -> p c = false.
Proof.
  induction s as [|x s IH]; simpl; [discriminate|].
  destruct (p x) eqn:Hx; [exact IH|]. intros [= <- <-]. exact Hx.
Qed.

Lemma dropWhile_suffix (p : N -> bool) (s : list N) :
  exists dropped, s = dropped ++ dropWhile p s.
Proof.
  induction s as [|x s [dropped IH]]; simpl; [exists []; reflexivity|].
  destruct (p x).
  - exists (x :: dropped). simpl. f_equal. exact IH.
  - exists []. reflexivity.
Qed.

Lemma trim_no_outer_whitespace (s : list N) :
  no_outer_whitespace (trim s) = true.
Proof.
  unfold trim.
  destruct (dropWhile isWhiteSpace (rev (dropWhile isWhiteSpace s)))
    as [|c u] eqn:Hu; [reflexivity|].
  pose proof (dropWhile_head _ _ _ _ Hu) as Hc.
  destruct (dropWhile_suffix isWhiteSpace (rev (dropWhile isWhiteSpace s)))
    as [dropped Hd].
  rewrite Hu in Hd. apply (f_equal (@rev N)) in Hd.
  rewrite rev_involutive, rev_app_distr in Hd.
  cbn [rev] in *.
  destruct (rev u ++ [c]) as [|h r] eqn:Hr; [destruct (rev u); discriminate|].
  unfold no_outer_whitespace.
  assert (Hlast : List.last (h :: r) h = c).
  { rewrite <- Hr. apply List.last_last. }
  rewrite Hlast, Hc.
  destruct (dropWhile isWhiteSpace s) as [|h' t] eqn:Ht; [discriminate|].
  injection Hd as -> _.
  rewrite (dropWhile_head _ _ _ _ Ht). reflexivity.
Qed.

(** X12: the question that [generateQuestion] returns and the content that
    [callPerigonAPI] returns never begin or end with whitespace, whatever
    the response: they are trimmed, or the fixed failure text. *)
Theorem results_are_trimmed :
  (forall r, exists question,
      generateQuestion r = Normal question
      /\ no_outer_whitespace question = true)
  /\ (forall r, exists answer,
        callPerigonAPI r = Normal answer
        /\ no_outer_whitespace (content answer) = true).
Proof.
  split.
  - intros r. unfold generateQuestion, try_catch.
    destruct (generateQuestion_try r) as [question|e] eqn:Hq.
    + exists question. split; [reflexivity|].
      unfold generateQuestion_try in Hq.
      destruct r as [|[|] status [data|]]; try discriminate.
      destruct (get (Some data) (of_string "choices")) as [choices|];
        [|discriminate]. cbn [bind] in Hq.
      destruct (index0 choices) as [choice|]; [|discriminate]. cbn [bind] in Hq.
      destruct (get choice (of_string "message")) as [message|];
        [|discriminate]. cbn [bind] in Hq.
      destruct (get message (of_string "content")) as [c|];
        [|discriminate]. cbn [bind] in Hq.
      destruct c as [[| | |s| |]|]; try discriminate.
      injection Hq as <-. apply trim_no_outer_whitespace.
    + exists failed_question. split; reflexivity.
  - intros r. unfold callPerigonAPI, try_catch.
    destruct (callPerigonAPI_try r) as [answer|e] eqn:Ha.
    + exists answer. split; [reflexivity|].
      unfold callPerigonAPI_try in Ha.
      destruct r as [|[|] status chunks ends|[|] status]; try discriminate.
      destruct (read_loop ([], []) chunks ends) as [[result cits]|];
        [|discriminate].
      injection Ha as <-. apply trim_no_outer_whitespace.
    + exists failed_answer. split; reflexivity.
Qed.

(** ** QuestionGenerator: more facts *)

Import CompletionResponse.

(** X13: [generateQuestion] returns the trimmed [content] of
    [choices[0].message] when the response is a success whose body has a
    string there, whatever else the body holds, and in every other case
    the failure text; with the question of a success, the invocation of the
    handler that waits for it sends the stream request for that question
    followed by [" in less than 200 words"]. *)
Theorem generateQuestion_outcomes (r : fetch_outcome) (question : list N) :
  generateQuestion r = Normal question ->
  (question = failed_question
   \/ exists status data choices choice message s,
        r = FetchResponse true status (Some data)
        /\ get (Some data) (of_string "choices") = Normal choices
        /\ index0 choices = Normal choice
        /\ get choice (of_string "message") = Normal message
        /\ get message (of_string "content") = Normal (Some (JString s))
        /\ question = trim s)
  /\ (forall status data choices choice message s,
        r = FetchResponse true status (Some data) ->
        get (Some data) (of_string "choices") = Normal choices ->
        index0 choices = Normal choice ->
        get choice (of_string "message") = Normal message ->
        get message (of_string "content") = Normal (Some (JString s)) ->
        question = trim s)
  /\ (forall status data choices choice message s,
        get (Some data) (of_string "choices") = Normal choices ->
        index0 choices = Normal choice ->
        get choice (of_string "message") = Normal message ->
        get message (of_string "content") = Normal (Some (JString s)) ->
        generateQuestion (FetchResponse true status (Some data))
        = Normal (trim s))
  /\ (forall status s,
        generateQuestion (FetchResponse true status (Some (completion_response s)))
        = Normal (trim s))
  /\ (forall st i articleId,
        pending st !! i = Some (AwaitQuestion articleId) ->
        calls (resume_question st i r)
        = calls st ++ [StreamCall articleId (question ++ less_than_200_words)]).
Proof.
  intros Hq.
  assert (Hpath : forall status data choices choice message s,
             get (Some data) (of_string "choices") = Normal choices ->
             index0 choices = Normal choice ->
             get choice (of_string "message") = Normal message ->
             get message (of_string "content") = Normal (Some (JString s)) ->
             generateQuestion (FetchResponse true status (Some data))
             = Normal (trim s)).
  { intros status data choices choice message s H1 H2 H3 H4.
    unfold generateQuestion, generateQuestion_try.
    rewrite H1. cbn [bind]. rewrite H2. cbn [bind]. rewrite H3. cbn [bind].
    rewrite H4. reflexivity. }
  split; [|split; [|split; [|split]]].
  - unfold generateQuestion, try_catch in Hq.
    destruct (generateQuestion_try r) as [q|e] eqn:Ht;
      [|left; congruence].
    injection Hq as ->. right.
    unfold generateQuestion_try in Ht.
    destruct r as [|[|] status [data|]]; try discriminate.
    destruct (get (Some data) (of_string "choices")) as [choices|] eqn:H1;
      [|discriminate]. cbn [bind] in Ht.
    destruct (index0 choices) as [choice|] eqn:H2; [|discriminate].
    cbn [bind] in Ht.
    destruct (get choice (of_string "message")) as [message|] eqn:H3;
      [|discriminate]. cbn [bind] in Ht.
    destruct (get message (of_string "content")) as [c|] eqn:H4;
      [|discriminate]. cbn [bind] in Ht.
    destruct c as [[| | |s| |]|]; try discriminate.
    injection Ht as <-.
    exists status, data, choices, choice, message, s. repeat split; assumption.
  - intros status data choices choice message s -> H1 H2 H3 H4.
    rewrite (Hpath status data choices choice message s H1 H2 H3 H4) in Hq.
    congruence.
  - exact Hpath.
  - intros status s. reflexivity.
  - intros st i articleId Hi. unfold resume_question. rewrite Hi, Hq.
    reflexivity.
Qed.

Lemma generateQuestion_outcomes_witness :
  calls (resume_question
           (handleCheckMainstream VerificationCache.initial (of_string "a1")
              (of_string "Title") (of_string "Body"))
           0%nat
           (FetchResponse true 200
              (Some (completion_response (of_string " Who won? ")))))
  = calls (handleCheckMainstream VerificationCache.initial (of_string "a1")
             (of_string "Title") (of_string "Body"))
    ++ [StreamCall (of_string "a1") (of_string "Who won?" ++ less_than_200_words)].
Proof.
  refine (proj2 (proj2 (proj2 (proj2 (generateQuestion_outcomes
    (FetchResponse true 200 (Some (completion_response (of_string " Who won? "))))
    (of_string "Who won?") _)))) _ 0%nat (of_string "a1") _).
  - vm_compute. reflexivity.
  - reflexivity.
Defined.

(** ** CitationFormatter: more facts *)

Lemma bold_body_plain (x b : list N) :
  Forall (fun c => c <> 42) x ->
  Forall (fun c => isLineTerminator c = false) x ->
  bold_body (x ++ stars ++ b) = Some (x, b).
Proof.
  intros Hs Hl. induction Hs as [|c x Hc _ IH]; [reflexivity|].
  apply Forall_cons in Hl as [Hlc Hl].
  change ((c :: x) ++ stars ++ b) with (c :: (x ++ stars ++ b)).
  cbn [bold_body].
  replace (strip_prefix stars (c :: x ++ stars ++ b)) with (@None (list N)).
  - rewrite Hlc, (IH Hl). reflexivity.
  - unfold stars. cbn [strip_prefix].
    destruct (N.eqb_spec 42 c); [congruence | reflexivity].
Qed.



(** X15: the label is stripped with the whitespace behind it, whatever its
    letter case, and only at the very start: of a text that is the label, a
    run of whitespace and a rest that does not begin with whitespace, the
    rest is left; a text that does not begin with [P] or [p] is left as it
    is, also when the label comes later in it. *)
Theorem labelStep_strips_leading_label (p ws rest : list N) :
  map canonicalize p = map canonicalize label ->
  Forall (fun c => isWhiteSpace c = true) ws ->
  dropWhile isWhiteSpace rest = rest ->
  labelStep (p ++ ws ++ rest) = rest
  /\ (forall c s, canonicalize c <> 80 -> labelStep (c :: s) = c :: s).
Proof.
  intros Hp Hws Hrest. split.
  - unfold labelStep.
    replace (strip_prefix_ci label (p ++ ws ++ rest)) with (Some (ws ++ rest))
      by (symmetry; apply strip_prefix_ci_Some; eauto).
    induction Hws as [|c ws Hc _ IH]; [exact Hrest|].
    cbn [app dropWhile]. rewrite Hc. exact IH.
  - intros c s Hc. unfold labelStep, label. cbn [of_string strip_prefix_ci].
    change (canonicalize (N_of_ascii "P")) with 80.
    destruct (N.eqb_spec 80 (canonicalize c)); [congruence | reflexivity].
Qed.

Lemma labelStep_strips_leading_label_witness :
  labelStep (of_string "PERIGON response:" ++ of_string "   " ++ of_string "Hi")
  = of_string "Hi".
Proof.
  refine (proj1 (labelStep_strips_leading_label (of_string "PERIGON response:")
                   (of_string "   ") (of_string "Hi") _ _ _)).
  - vm_compute. reflexivity.
  - repeat constructor.
  - reflexivity.
Defined.

(** ** VerificationCache: more facts *)

Lemma stored_response_step (st : AppState) (e : event)
    (articleId : list N) (answer : AnswerResult) :
  invariant st -> from_page e ->
  perigonResponses st !! articleId = Some answer ->
  perigonResponses (step st e) !! articleId = Some answer.
Proof.
  intros Hinv He Hst.
  destruct e as [a t c | a t c | i r | i r]; cbn [step]; [contradiction| | |].
  - unfold click, handleCheckMainstream.
    destruct (disabled st a); [exact Hst|].
    destruct (perigonResponses st !! a); [exact Hst|].
    destruct (inherited a); exact Hst.
  - unfold resume_question.
    destruct (pending st !! i) as [[a|a]|]; try exact Hst.
    destruct (generateQuestion r); exact Hst.
  - unfold resume_answer.
    destruct (pending st !! i) as [[a|a]|] eqn:Hi; try exact Hst.
    destruct (callPerigonAPI r); [|exact Hst].
    cbn [perigonResponses].
    destruct (decide (a = articleId)) as [->|Hne];
      [|rewrite lookup_insert_ne by assumption; exact Hst].
    exfalso. destruct (Hinv articleId) as (_ & _ & Hle & _).
    pose proof (count_delete (task_of articleId) _ i _ Hi) as Ht.
    cbn [task_of] in Ht. rewrite bool_decide_eq_true_2 in Ht by reflexivity.
    unfold in_flight, completed in Hle. rewrite Hst in Hle. lia.
Qed.

Lemma run_app (st : AppState) (events1 events2 : list event) :
  VerificationCache.run st (events1 ++ events2)
  = VerificationCache.run (VerificationCache.run st events1) events2.
Proof. unfold VerificationCache.run. apply fold_left_app. Qed.

(** X16: over the events of the page, the answer stored for an article is
    never replaced or removed: once it is there, it is the same after any
    further clicks and responses, for this article or for others, and the
    article then has nothing in flight. *)
Theorem stored_response_is_final
    (events1 events2 : list event) (articleId : list N) (answer : AnswerResult) :
  Forall from_page events1 -> Forall from_page events2 ->
  perigonResponses (VerificationCache.run VerificationCache.initial events1)
    !! articleId = Some answer ->
  perigonResponses
    (VerificationCache.run VerificationCache.initial (events1 ++ events2))
    !! articleId = Some answer
  /\ in_flight articleId
       (VerificationCache.run VerificationCache.initial (events1 ++ events2))
     = 0%nat.
Proof.
  intros H1 H2 Hst.
  assert (Hkeep : perigonResponses
            (VerificationCache.run VerificationCache.initial (events1 ++ events2))
            !! articleId = Some answer).
  { induction events2 as [|e events2 IH] using rev_ind.
    - rewrite app_nil_r. exact Hst.
    - apply Forall_app in H2 as [H2 He]. inversion He; subst.
      rewrite app_assoc, run_snoc.
      apply stored_response_step; [|assumption|apply IH, H2].
      apply invariant_run, Forall_app. split; assumption. }
  split; [exact Hkeep|].
  assert (Hall : Forall from_page (events1 ++ events2))
    by (apply Forall_app; split; assumption).
  destruct (invariant_run _ Hall articleId) as (_ & _ & Hle & _).
  unfold completed in Hle. rewrite Hkeep in Hle. lia.
Qed.

Lemma stored_response_is_final_witness :
  perigonResponses
    (VerificationCache.run VerificationCache.initial
       ([Click (of_string "a1") (of_string "T") (of_string "B");
         QuestionResponse 0%nat FetchRejected;
         AnswerResponse 0%nat StreamRejected]
        ++ [Click (of_string "a1") (of_string "T") (of_string "B");
            Click (of_string "a2") (of_string "T") (of_string "B")]))
    !! of_string "a1"
  = Some failed_answer.
Proof.
  refine (proj1 (stored_response_is_final _ _ (of_string "a1") failed_answer _ _ _)).
  - repeat constructor.
  - repeat constructor.
  - vm_compute. reflexivity.
Defined.

(** ** The card of an article: facts *)

Import ArticleCard.

(** X17: the rating on a card is that of the first record of the table
    whose domain is the domain of the article, later records of the same
    domain being ignored; for a domain that no record has, there is no
    rating. *)
Theorem card_rating_lookup
    (results : list SourceRecord) (domain_ : list N) :
  (Forall (fun s => domain s <> domain_) results ->
   find_source results domain_ = None /\ card_rating results domain_ = None)
  /\ (forall before s after,
        results = before ++ s :: after ->
        domain s = domain_ ->
        Forall (fun s' => domain s' <> domain_) before ->
        find_source results domain_ = Some s
        /\ card_rating results domain_ = getBiasRating (Some s)).
Proof.
  assert (Hmiss : forall l, Forall (fun s => domain s <> domain_) l ->
                            find_source l domain_ = None).
  { intros l Hl. unfold find_source.
    induction Hl as [|s l Hs _ IH]; [reflexivity|].
    cbn [List.find]. rewrite bool_decide_eq_false_2 by exact Hs. exact IH. }
  split.
  - intros Hall. unfold card_rating. rewrite (Hmiss _ Hall).
    split; reflexivity.
  - intros before s after -> Hs Hbefore.
    assert (Hfind : find_source (before ++ s :: after) domain_ = Some s).
    { unfold find_source. induction Hbefore as [|s' l Hs' _ IH].
      - cbn [app List.find]. rewrite bool_decide_eq_true_2 by exact Hs.
        reflexivity.
      - cbn [app List.find]. rewrite bool_decide_eq_false_2 by exact Hs'.
        exact IH. }
    unfold card_rating. rewrite Hfind. split; reflexivity.
Qed.

Lemma card_rating_lookup_witness :
  card_rating
    [{| domain := of_string "wng.org"; mbfcBiasRating := None;
        allSidesBiasRating := Some (rating_name Right);
        adFontesBiasRating := None |}]
    (of_string "cbn.com")
  = None.
Proof.
  refine (proj2 (proj1 (card_rating_lookup _ (of_string "cbn.com")) _)).
  repeat constructor. discriminate.
Defined.

(** X18: the name shown for the source of an article is never empty or
    otherwise falsy: it is the [name] of the source when that is truthy,
    else its [domain] when that is truthy, else ["Unknown Source"].
    Reading it throws exactly when the article is [null] or its [source] is
    absent or [null]. *)
Theorem source_label_truthy (article : value) :
  (forall label, source_label article = Normal label -> truthy label = true)
  /\ ((exists e, source_label article = Throw e)
      <-> article = JNull
          \/ get (Some article) (of_string "source") = Normal None
          \/ get (Some article) (of_string "source") = Normal (Some JNull))
  /\ (forall source name domain,
        get (Some article) (of_string "source") = Normal source ->
        get source (of_string "name") = Normal name ->
        get source (of_string "domain") = Normal domain ->
        (truthy name = true -> source_label article = Normal name)
        /\ (truthy name = false -> truthy domain = true ->
            source_label article = Normal domain)
        /\ (truthy name = false -> truthy domain = false ->
            source_label article
            = Normal (Some (JString (of_string "Unknown Source"))))).
Proof.
  unfold source_label. split; [|split].
  3: { intros source name domain -> Hn Hd. cbn [bind]. rewrite Hn, Hd.
       cbn [bind]. split; [|split].
       - intros ->. reflexivity.
       - intros -> ->. reflexivity.
       - intros -> ->. reflexivity. }
  - intros label.
    destruct (get (Some article) (of_string "source")) as [source|];
      [|discriminate]. cbn [bind].
    destruct (get source (of_string "name")) as [name|]; [|discriminate].
    cbn [bind]. destruct (truthy name) eqn:Hn; [intros [= <-]; exact Hn|].
    destruct (get source (of_string "domain")) as [d|]; [|discriminate].
    cbn [bind]. destruct (truthy d) eqn:Hd; intros [= <-]; [exact Hd|reflexivity].
  - destruct article as [| b | lit | s | elems | props];
      cbn [get bind truthy].
    1: { split; [intros _; left; reflexivity | intros _; eauto]. }
    1-4: split; [intros _; right; left; reflexivity | intros _; eauto].
    destruct (assoc (of_string "source") props) as [source|];
      [|split; [intros _; right; left; reflexivity | intros _; eauto]].
    destruct source as [| b | lit | s | elems | sprops]; cbn [get bind truthy].
    1: { split; [intros _; right; right; reflexivity | intros _; eauto]. }
    1-4: split; [intros [e He]; discriminate
                | intros [H|[H|H]]; discriminate].
    split.
    + intros [e He].
      destruct (truthy (assoc (of_string "name") sprops)); [discriminate|].
      destruct (truthy (assoc (of_string "domain") sprops)); discriminate.
    + intros [H|[H|H]]; discriminate.
Qed.

Lemma source_label_truthy_witness :
  truthy (Some (JString (of_string "cbn.com"))) = true.
Proof.
  refine (proj1 (source_label_truthy
    (JObject [(of_string "source",
               JObject [(of_string "name", JString []);
                        (of_string "domain", JString (of_string "cbn.com"))])]))
    _ _).
  vm_compute. reflexivity.
Defined.

(** X19: over the events of the page, the button of an article whose
    identifier is not a name a plain object inherits is disabled exactly
    while a verification of that article is in flight: it is enabled
    before the first click and again once the answer is stored, when a
    click no longer sends anything.  For an identifier that is such a name
    no request is ever sent and nothing is ever in flight. *)
Theorem button_disabled_while_in_flight
    (events : list event) (articleId title content : list N) :
  Forall from_page events ->
  let st := VerificationCache.run VerificationCache.initial events in
  (inherited articleId = false ->
   (disabled st articleId = true <-> in_flight articleId st = 1%nat)
   /\ (completed articleId st = 1%nat ->
       disabled st articleId = false
       /\ calls (click st articleId title content) = calls st))
  /\ (inherited articleId = true ->
      question_calls articleId st = 0%nat /\ in_flight articleId st = 0%nat).
Proof.
  intros Hall st. split.
  - intros Hinh.
    destruct (invariant_run events Hall articleId) as (_ & _ & Hle & Hd).
    specialize (Hd Hinh). fold st in Hle, Hd. split; [exact Hd|].
    intros Hc.
    assert (Hdis : disabled st articleId = false).
    { destruct (disabled st articleId); [|reflexivity].
      destruct Hd as [Hd _]. specialize (Hd eq_refl). lia. }
    split; [exact Hdis|].
    unfold click, handleCheckMainstream, completed in *. rewrite Hdis.
    destruct (perigonResponses st !! articleId); [reflexivity | discriminate].
  - intros Hinh. apply inherited_name_run; assumption.
Qed.

Lemma button_disabled_while_in_flight_witness :
  disabled
    (VerificationCache.run VerificationCache.initial
       [Click (of_string "a1") (of_string "T") (of_string "B");
        QuestionResponse 0%nat FetchRejected])
    (of_string "a1") = true
  <-> in_flight (of_string "a1")
        (VerificationCache.run VerificationCache.initial
           [Click (of_string "a1") (of_string "T") (of_string "B");
            QuestionResponse 0%nat FetchRejected]) = 1%nat.
Proof.
  refine (proj1 (proj1 (button_disabled_while_in_flight _ (of_string "a1")
                   (of_string "T") (of_string "B") _) _)).
  - repeat constructor.
  - vm_compute. reflexivity.
Defined.


Lemma handleSourceToggle_membership_witness :
  of_string "wng.org" ∈ handleSourceToggle FAITH_SOURCES (of_string "cbn.com")
  <-> of_string "wng.org" ∈ FAITH_SOURCES.
Proof.
  refine (proj2 (handleSourceToggle_membership FAITH_SOURCES (of_string "cbn.com"))
            (of_string "wng.org") _).
  discriminate.
Defined.

(** X20: the faith fetch stores [data.articles] as it is: for a body that
    is not [null] it never reports an error, it keeps an array of articles
    whole, however long, and when there is no [articles] property the news
    becomes [undefined]. *)
Theorem fetchFaithNews_stores_articles
    (st : NewsFeed.State) (status : N) (data : value) :
  data <> JNull ->
  (exists articles,
      get (Some data) (of_string "articles") = Normal articles
      /\ NewsFeed.fetchFaithNews st (FetchResponse true status (Some data))
         = {| NewsFeed.news := articles; NewsFeed.loading := false;
              NewsFeed.error := NewsFeed.error st |})
  /\ (forall props articles,
        data = JObject props ->
        assoc (of_string "articles") props = Some (JArray articles) ->
        NewsFeed.news
          (NewsFeed.fetchFaithNews st (FetchResponse true status (Some data)))
        = Some (JArray articles))
  /\ (forall props,
        data = JObject props ->
        assoc (of_string "articles") props = None ->
        NewsFeed.news
          (NewsFeed.fetchFaithNews st (FetchResponse true status (Some data)))
        = None).
Proof.
  intros Hnull. split; [|split].
  - unfold NewsFeed.fetchFaithNews, NewsFeed.faith_completed, NewsFeed.faith_try.
    destruct data; try congruence; eexists; split; reflexivity.
  - intros props articles -> Ha.
    unfold NewsFeed.fetchFaithNews, NewsFeed.faith_completed, NewsFeed.faith_try.
    cbn [get]. rewrite Ha. reflexivity.
  - intros props -> Ha.
    unfold NewsFeed.fetchFaithNews, NewsFeed.faith_completed, NewsFeed.faith_try.
    cbn [get]. rewrite Ha. reflexivity.
Qed.

Lemma fetchFaithNews_stores_articles_witness :
  NewsFeed.news
    (NewsFeed.fetchFaithNews NewsFeed.initial
       (FetchResponse true 200 (Some (JObject [(of_string "status", JNull)]))))
  = None.
Proof.
  refine (proj2 (proj2 (fetchFaithNews_stores_articles NewsFeed.initial 200
    (JObject [(of_string "status", JNull)]) _)) _ eq_refl eq_refl).
  discriminate.
Defined.
